(** * localcinema: the HLS job manager, its cache and the playability classifier

    A shallow embedding of [hls.go] (the job registry, the runner, the MP4
    layout inspector, the classifier), of the handlers of [server.go] and of
    the thumbnails of [thumb.go], with the properties the specification
    states about them and further properties read off the code. *)

From Stdlib Require Import ZArith Ascii String Strings.Byte List Bool Lia.
From stdpp Require Import gmap strings pretty.

Import ListNotations.
Local Open Scope string_scope.
Local Open Scope Z_scope.

(** ** Go strings

    A Go string is a sequence of bytes; [string] (a list of 8-bit [ascii]) is
    that.  [[]byte] buffers are [list byte]; [string(buf)] is
    [string_of_list_byte]. *)

(** [strings.HasPrefix(s, prefix)] *)
Fixpoint strings_HasPrefix (s prefix : string) {struct prefix} : bool :=
  match prefix with
  | EmptyString => true
  | String a prefix' =>
      match s with
      | EmptyString => false
      | String b s' => Ascii.eqb a b && strings_HasPrefix s' prefix'
      end
  end.

(** [strings.Contains(s, substr)] *)
Fixpoint strings_Contains (s substr : string) : bool :=
  strings_HasPrefix s substr ||
  match s with
  | EmptyString => false
  | String _ s' => strings_Contains s' substr
  end.

(** [strings.HasSuffix(s, suffix)] *)
Definition strings_HasSuffix (s suffix : string) : bool :=
  strings_HasPrefix (String.rev s) (String.rev suffix).

(** [strings.TrimPrefix(s, prefix)] *)
Fixpoint drop_string (n : nat) (s : string) : string :=
  match n, s with
  | S n', String _ s' => drop_string n' s'
  | _, _ => s
  end.

Definition strings_TrimPrefix (s prefix : string) : string :=
  if strings_HasPrefix s prefix then drop_string (String.length prefix) s else s.

(** [strings.Cut(s, "/")]: the text before and after the first slash. *)
Fixpoint cut_slash (s : string) : option (string * string) :=
  match s with
  | EmptyString => None
  | String c s' =>
      if Ascii.eqb c "/" then Some (EmptyString, s')
      else match cut_slash s' with
           | Some (before, after) => Some (String c before, after)
           | None => None
           end
  end.

(** [strings.SplitN(s, "/", 2)] *)
Definition strings_SplitN_slash_2 (s : string) : list string :=
  match cut_slash s with
  | Some (before, after) => [before; after]
  | None => [s]
  end.

(** [strings.ToLower] on the ASCII letters (bytes outside [A-Z] are kept). *)
Definition lower_ascii (c : ascii) : ascii :=
  let n := nat_of_ascii c in
  if ((65 <=? n) && (n <=? 90))%nat then ascii_of_nat (n + 32) else c.

Fixpoint strings_ToLower (s : string) : string :=
  match s with
  | EmptyString => EmptyString
  | String c s' => String (lower_ascii c) (strings_ToLower s')
  end.

(** [strings.Index(s, substr)], [None] for Go's -1. *)
Fixpoint strings_Index (s substr : string) : option nat :=
  if strings_HasPrefix s substr then Some 0%nat
  else match s with
       | EmptyString => None
       | String _ s' => S <$> strings_Index s' substr
       end.

(** [s[:n]] *)
Fixpoint take_string (n : nat) (s : string) : string :=
  match n, s with
  | S n', String c s' => String c (take_string n' s')
  | _, _ => EmptyString
  end.

(** ** Paths *)

(** [filepath.Ext(path)]: the suffix from the last dot of the last element. *)
Fixpoint ext_scan (rev_path : list ascii) (acc : string) : string :=
  match rev_path with
  | [] => EmptyString
  | c :: rest =>
      if Ascii.eqb c "/" then EmptyString
      else if Ascii.eqb c "." then String c acc
      else ext_scan rest (String c acc)
  end.

Definition filepath_Ext (path : string) : string :=
  ext_scan (rev (list_ascii_of_string path)) EmptyString.

(** The elements of a path between slashes. *)
Fixpoint path_elements_go (cur : string) (s : string) : list string :=
  match s with
  | EmptyString => [String.rev cur]
  | String c s' =>
      if Ascii.eqb c "/" then String.rev cur :: path_elements_go EmptyString s'
      else path_elements_go (String c cur) s'
  end.

Definition path_elements (s : string) : list string := path_elements_go EmptyString s.

(** One element pushed on the cleaned elements so far (kept reversed):
    empty and [.] vanish, [..] removes the element before it, stays when the
    path is relative and nothing is left to remove, and vanishes at the root. *)
Definition clean_push (rooted : bool) (stack : list string) (e : string) : list string :=
  if decide (e = "" ∨ e = ".") then stack
  else if decide (e = "..") then
    match stack with
    | [] => if rooted then [] else [".."]
    | top :: below => if decide (top = "..") then ".." :: stack else below
    end
  else e :: stack.

Fixpoint join_slash (l : list string) : string :=
  match l with
  | [] => EmptyString
  | [e] => e
  | e :: l' => e ++ "/" ++ join_slash l'
  end.

(** [filepath.Clean(path)] *)
Definition filepath_Clean (path : string) : string :=
  let rooted := strings_HasPrefix path "/" in
  let body := join_slash (rev (fold_left (clean_push rooted) (path_elements path) [])) in
  if rooted then "/" ++ body
  else if decide (body = "") then "." else body.

(** [filepath.Join(a, b)]: empty elements are ignored, the result is cleaned. *)
Definition filepath_Join (a b : string) : string :=
  if decide (a = "") then (if decide (b = "") then "" else filepath_Clean b)
  else if decide (b = "") then filepath_Clean a
  else filepath_Clean (a ++ "/" ++ b).

(** [filepath.Base(path)] comes further down, with the player page. *)

(** [p] is [dir] itself or lies below it. *)
Definition path_under (dir p : string) : bool :=
  bool_decide (p = dir) || strings_HasPrefix p (dir ++ "/").

(** ** Machine integers *)

(** A value stored in an [int64] (two's complement wrap-around). *)
Definition int64 (z : Z) : Z := (z + 2 ^ 63) mod 2 ^ 64 - 2 ^ 63.

Definition byte_val (b : byte) : Z := Z.of_N (Byte.to_N b).

(** The big-endian unsigned value of a run of bytes. *)
Definition be_uint (b : list byte) : Z :=
  fold_left (fun acc x => acc * 256 + byte_val x) b 0.

(** [binary.BigEndian.Uint32(b)] and [binary.BigEndian.Uint64(b)] *)
Definition BigEndian_Uint32 (b : list byte) : Z := be_uint (firstn 4 b).
Definition BigEndian_Uint64 (b : list byte) : Z := be_uint (firstn 8 b).

(** ** Files and the disk *)

(** A regular file: its size and modification time as [os.Stat] reports them,
    its bytes by offset (so that a file of hundreds of megabytes is a small
    term), whether [os.Open] is refused, and the offsets at which the device
    answers a read with an I/O error. *)
Record File := {
  f_size : Z;
  f_mtime : Z;
  f_data : Z -> byte;
  f_noopen : bool;
  f_bad : Z -> bool
}.

Definition offsets (off : Z) (n : nat) : list Z :=
  map (fun i => off + Z.of_nat i) (seq 0 n).

(** [f.ReadAt(buf, off)] with [len(buf) = n]: an error (here [None]) for a
    negative offset, when fewer than [n] bytes remain, or on an I/O error. *)
Definition ReadAt (f : File) (n : nat) (off : Z) : option (list byte) :=
  if (off <? 0) || (f_size f <? off + Z.of_nat n) || existsb (f_bad f) (offsets off n)
  then None
  else Some (map (f_data f) (offsets off n)).

(** The disk: regular files by path, and the directories. *)
Record Disk := {
  files : gmap string File;
  dirs : gset string
}.

(** [os.Stat(path)] of a video file. *)
Definition os_Stat (d : Disk) (path : string) : option File := files d !! path.

(** [os.Open(path)] *)
Definition os_Open (d : Disk) (path : string) : option File :=
  match files d !! path with
  | Some f => if f_noopen f then None else Some f
  | None => None
  end.

(** [os.ReadFile(path)]: the whole content, when the file opens and reads. *)
Definition os_ReadFile (d : Disk) (path : string) : option (list byte) :=
  match os_Open d path with
  | Some f => ReadAt f (Z.to_nat (f_size f)) 0
  | None => None
  end.

(** ** The MP4 layout inspector *)

Definition largeMp4Threshold : Z := 500 * 1024 * 1024.

(** What one turn of the loop of [hasMoovAtFront] does. *)
Inductive walk_step :=
| Break
| Return (b : bool)
| Continue (offset : Z).

Definition box_step (f : File) (offset : Z) : walk_step :=
  match ReadAt f 8 offset with
  | None => Break
  | Some buf =>
      let size := int64 (BigEndian_Uint32 (firstn 4 buf)) in
      let boxType := string_of_list_byte (skipn 4 buf) in
      let size64 :=
        if size =? 1 then
          match ReadAt f 8 (int64 (offset + 8)) with
          | None => None
          | Some buf64 => Some (int64 (BigEndian_Uint64 buf64))
          end
        else Some size in
      match size64 with
      | None => Break
      | Some size =>
          let size := if size =? 0 then int64 (f_size f - offset) else size in
          if size <? 8 then Break
          else if String.eqb boxType "moov" then Return true
          else if String.eqb boxType "mdat" then Return false
          else Continue (int64 (offset + size))
      end
  end.

(** The [for] loop, with the number of turns it may still take. *)
Fixpoint walk (fuel : nat) (f : File) (offset : Z) : option bool :=
  match fuel with
  | O => None
  | S fuel' =>
      match box_step f offset with
      | Break => Some true
      | Return b => Some b
      | Continue offset' => walk fuel' f offset'
      end
  end.

(** Every turn but the last reads a header of eight bytes inside the file
    and moves on by eight bytes at least: [f_size / 8 + 1] turns are enough
    ([walk_total] below). *)
Definition walk_fuel (f : File) : nat := S (Z.to_nat (f_size f / 8)).

Definition hasMoovAtFront (d : Disk) (filePath : string) : bool :=
  match os_Open d filePath with
  | None => false
  | Some f =>
      match walk (walk_fuel f) f 0 with
      | Some b => b
      | None => true
      end
  end.

(** ** The playability classifier *)

Definition needsTranscode (filePath : string) : bool :=
  let ext := strings_ToLower (filepath_Ext filePath) in
  negb (String.eqb ext ".mp4") && negb (String.eqb ext ".m4v").

Definition needsStreamingMp4 (d : Disk) (filePath : string) : bool :=
  match os_Stat d filePath with
  | None => false
  | Some info =>
      if f_size info <? largeMp4Threshold then false
      else negb (hasMoovAtFront d filePath)
  end.

(** [useHLS] as [handlePlay] computes it. *)
Definition useHLS (d : Disk) (fullPath : string) : bool :=
  needsTranscode fullPath || needsStreamingMp4 d fullPath.

Definition canBrowserPlayCodec (codec : string) : bool :=
  if decide (codec = "h264" ∨ codec = "avc1" ∨ codec = "avc") then true else false.

(** ** The inspector as the specification words it

    The top-level boxes of a file, with offsets that are plain integers: a
    box header is eight bytes, a big-endian unsigned 32-bit size and a
    four-byte type; a size of 1 stands for the 64-bit value in the next eight
    bytes, read as the [int64] it is stored in; a size of 0 for the rest of
    the file; a header that cannot be read or a size under 8 ends the
    walk. *)

Definition signed64 (u : Z) : Z := if u <? 2 ^ 63 then u else u - 2 ^ 64.

Definition spec_box (f : File) (off : Z) : option (Z * string) :=
  match ReadAt f 8 off with
  | None => None
  | Some hdr =>
      let size32 := be_uint (firstn 4 hdr) in
      let type := string_of_list_byte (skipn 4 hdr) in
      let real :=
        if size32 =? 1 then
          match ReadAt f 8 (off + 8) with
          | None => None
          | Some large => Some (signed64 (be_uint large))
          end
        else Some size32 in
      match real with
      | None => None
      | Some sz =>
          let sz := if sz =? 0 then f_size f - off else sz in
          if sz <? 8 then None else Some (sz, type)
      end
  end.

(** [top_boxes f off l]: walking from [off], the boxes met are [l] (size and
    type of each), and the walk ends after them. *)
Inductive top_boxes (f : File) : Z -> list (Z * string) -> Prop :=
| top_boxes_end off :
    spec_box f off = None -> top_boxes f off []
| top_boxes_box off sz ty l :
    spec_box f off = Some (sz, ty) ->
    top_boxes f (off + sz) l ->
    top_boxes f off ((sz, ty) :: l).

Definition is_moov_or_mdat (ty : string) : bool :=
  String.eqb ty "moov" || String.eqb ty "mdat".

(** The decision rule: the first [moov] or [mdat] met decides, and a walk
    that meets neither counts as moov at the front. *)
Definition spec_decision (types : list string) : bool :=
  match find is_moov_or_mdat types with
  | Some ty => String.eqb ty "moov"
  | None => true
  end.

(** What a turn of the loop does with the box the specification finds. *)
Definition step_of_box (off : Z) (box : option (Z * string)) : walk_step :=
  match box with
  | None => Break
  | Some (sz, ty) =>
      if String.eqb ty "moov" then Return true
      else if String.eqb ty "mdat" then Return false
      else Continue (int64 (off + sz))
  end.

(** The walk of the code against the walk of the specification: the code is
    at the offset of the specification, or at a negative one (its offset has
    wrapped around) while the specification is beyond the end of the file. *)
Definition same_place (f : File) (c s : Z) : Prop :=
  c = s \/ (c < 0 /\ f_size f < s + 8).

(** The offsets at which the loop of [hasMoovAtFront] reads a box header. *)
Inductive walk_reaches (f : File) : Z -> Prop :=
| reaches_start : walk_reaches f 0
| reaches_next off off' :
    walk_reaches f off -> box_step f off = Continue off' -> walk_reaches f off'.

(** One of the two reads of a turn fails: the header, or the 64-bit size
    that a size field of 1 announces. *)
Definition read_fails_at (f : File) (off : Z) : Prop :=
  ReadAt f 8 off = None \/
  (exists buf, ReadAt f 8 off = Some buf
               /\ int64 (BigEndian_Uint32 (firstn 4 buf)) = 1
               /\ ReadAt f 8 (int64 (off + 8)) = None).

(** A read error occurs during the box walk. *)
Definition read_error_in_walk (f : File) : Prop :=
  exists off, walk_reaches f off /\ read_fails_at f off.

(** ** Sample files *)

Definition be_bytes (n : nat) (v : Z) : list byte :=
  map (fun i => match Byte.of_N (Z.to_N ((v / 256 ^ Z.of_nat (n - 1 - i)) mod 256)) with
                | Some b => b
                | None => x00
                end) (seq 0 n).

Definition box_header (size : Z) (type : string) : list byte :=
  (be_bytes 4 size ++ list_byte_of_string type)%list.

(** The byte at [off] of a file that holds the given runs and zeros elsewhere. *)
Fixpoint sparse (chunks : list (Z * list byte)) (off : Z) : byte :=
  match chunks with
  | [] => x00
  | (start, bytes) :: rest =>
      if (start <=? off) && (off <? start + Z.of_nat (length bytes))
      then nth (Z.to_nat (off - start)) bytes x00
      else sparse rest off
  end.

Definition mkfile (size : Z) (chunks : list (Z * list byte)) : File :=
  {| f_size := size; f_mtime := 1700000000000000000; f_data := sparse chunks;
     f_noopen := false; f_bad := fun _ => false |}.

Definition MiB : Z := 1024 * 1024.

(** [ftyp], then [mdat], and a [moov] of 16 bytes at the tail. *)
Definition tail_moov (size : Z) : File :=
  mkfile size [(0, box_header 24 "ftyp"); (24, box_header (size - 40) "mdat");
               (size - 16, box_header 16 "moov")].

(** [ftyp], then [moov], then an [mdat] whose size field is 0 (to the end). *)
Definition front_moov (size : Z) : File :=
  mkfile size [(0, box_header 24 "ftyp"); (24, box_header 16 "moov");
               (40, box_header 0 "mdat")].

(** [ftyp] and a [free] box with size field 0: neither [moov] nor [mdat]. *)
Definition no_moov (size : Z) : File :=
  mkfile size [(0, box_header 24 "ftyp"); (24, box_header 0 "free")].

(** [ftyp], and a device that fails every read from offset 24 on. *)
Definition bad_sector (size : Z) : File :=
  {| f_size := size; f_mtime := 1700000000000000000;
     f_data := sparse [(0, box_header 24 "ftyp")];
     f_noopen := false; f_bad := fun off => 24 <=? off |}.

(** A file that [os.Stat] sees and [os.Open] refuses. *)
Definition no_permission (size : Z) : File :=
  {| f_size := size; f_mtime := 1700000000000000000;
     f_data := sparse [(0, box_header 24 "ftyp"); (24, box_header 16 "moov")];
     f_noopen := true; f_bad := fun _ => false |}.

(** [ftyp], then an [mdat] whose size field is 1 and whose 64-bit size is
    all ones: as an [int64] that is -1. *)
Definition huge_mdat (size : Z) : File :=
  mkfile size [(0, box_header 24 "ftyp"); (24, box_header 1 "mdat");
               (32, be_bytes 8 (2 ^ 64 - 1))].

Definition one_file (path : string) (f : File) : Disk :=
  {| files := {[ path := f ]}; dirs := ∅ |}.

(** ** The fingerprint

    [crypto/md5] of the standard library, written out (RFC 1321): the job key
    is the first eight bytes of a digest, in hexadecimal. *)

Module MD5.

Definition u32 (x : Z) : Z := x mod 2 ^ 32.

Definition rotl (x c : Z) : Z :=
  u32 (Z.lor (Z.shiftl x c) (Z.shiftr x (32 - c))).

Definition not32 (x : Z) : Z := Z.lxor x 0xffffffff.

Definition shifts : list Z :=
  [7; 12; 17; 22; 7; 12; 17; 22; 7; 12; 17; 22; 7; 12; 17; 22;
   5; 9; 14; 20; 5; 9; 14; 20; 5; 9; 14; 20; 5; 9; 14; 20;
   4; 11; 16; 23; 4; 11; 16; 23; 4; 11; 16; 23; 4; 11; 16; 23;
   6; 10; 15; 21; 6; 10; 15; 21; 6; 10; 15; 21; 6; 10; 15; 21].

Definition sines : list Z :=
  [0xd76aa478; 0xe8c7b756; 0x242070db; 0xc1bdceee; 0xf57c0faf; 0x4787c62a; 0xa8304613; 0xfd469501;
   0x698098d8; 0x8b44f7af; 0xffff5bb1; 0x895cd7be; 0x6b901122; 0xfd987193; 0xa679438e; 0x49b40821;
   0xf61e2562; 0xc040b340; 0x265e5a51; 0xe9b6c7aa; 0xd62f105d; 0x02441453; 0xd8a1e681; 0xe7d3fbc8;
   0x21e1cde6; 0xc33707d6; 0xf4d50d87; 0x455a14ed; 0xa9e3e905; 0xfcefa3f8; 0x676f02d9; 0x8d2a4c8a;
   0xfffa3942; 0x8771f681; 0x6d9d6122; 0xfde5380c; 0xa4beea44; 0x4bdecfa9; 0xf6bb4b60; 0xbebfbc70;
   0x289b7ec6; 0xeaa127fa; 0xd4ef3085; 0x04881d05; 0xd9d4d039; 0xe6db99e5; 0x1fa27cf8; 0xc4ac5665;
   0xf4292244; 0x432aff97; 0xab9423a7; 0xfc93a039; 0x655b59c3; 0x8f0ccc92; 0xffeff47d; 0x85845dd1;
   0x6fa87e4f; 0xfe2ce6e0; 0xa3014314; 0x4e0811a1; 0xf7537e82; 0xbd3af235; 0x2ad7d2bb; 0xeb86d391].

(** One of the 64 operations on the state (A, B, C, D) with the block's
    sixteen little-endian words [M]. *)
Definition step (M : list Z) (st : Z * Z * Z * Z) (i : nat) : Z * Z * Z * Z :=
  let '(A, B, C, D) := st in
  let '(F, g) :=
    if (i <? 16)%nat then (Z.lor (Z.land B C) (Z.land (not32 B) D), i)
    else if (i <? 32)%nat then (Z.lor (Z.land D B) (Z.land (not32 D) C), ((5 * i + 1) mod 16)%nat)
    else if (i <? 48)%nat then (Z.lxor (Z.lxor B C) D, ((3 * i + 5) mod 16)%nat)
    else (Z.lxor C (Z.lor B (not32 D)), ((7 * i) mod 16)%nat) in
  let F := u32 (F + A + nth i sines 0 + nth g M 0) in
  (D, u32 (B + rotl F (nth i shifts 0)), B, C).

Definition le_uint (b : list byte) : Z :=
  fold_right (fun x acc => byte_val x + 256 * acc) 0 b.

Fixpoint words (n : nat) (b : list byte) : list Z :=
  match n with
  | O => []
  | S n' => le_uint (firstn 4 b) :: words n' (skipn 4 b)
  end.

Definition block (h : Z * Z * Z * Z) (b : list byte) : Z * Z * Z * Z :=
  let '(a0, b0, c0, d0) := h in
  let '(A, B, C, D) := fold_left (step (words 16 b)) (seq 0 64) h in
  (u32 (a0 + A), u32 (b0 + B), u32 (c0 + C), u32 (d0 + D)).

Fixpoint blocks (n : nat) (h : Z * Z * Z * Z) (b : list byte) : Z * Z * Z * Z :=
  match n with
  | O => h
  | S n' => blocks n' (block h (firstn 64 b)) (skipn 64 b)
  end.

Definition to_byte (z : Z) : byte :=
  match Byte.of_N (Z.to_N (z mod 256)) with Some b => b | None => x00 end.

Definition le_bytes (n : nat) (v : Z) : list byte :=
  map (fun i => to_byte (v / 256 ^ Z.of_nat i)) (seq 0 n).

Definition pad (msg : list byte) : list byte :=
  let len := Z.of_nat (length msg) in
  let zeros := Z.to_nat ((55 - len) mod 64) in
  (msg ++ [x80] ++ repeat x00 zeros ++ le_bytes 8 (8 * len))%list.

(** [md5.Sum(data)] *)
Definition Sum (data : list byte) : list byte :=
  let padded := pad data in
  let '(a, b, c, d) :=
    blocks (length padded / 64) (0x67452301, 0xefcdab89, 0x98badcfe, 0x10325476) padded in
  (le_bytes 4 a ++ le_bytes 4 b ++ le_bytes 4 c ++ le_bytes 4 d)%list.

End MD5.

Definition hex_digit (n : Z) : ascii :=
  nth (Z.to_nat n) (list_ascii_of_string "0123456789abcdef") "0"%char.

(** [fmt.Sprintf("%x", b)] *)
Fixpoint hex (b : list byte) : string :=
  match b with
  | [] => EmptyString
  | x :: b' => String (hex_digit (byte_val x / 16)) (String (hex_digit (byte_val x mod 16)) (hex b'))
  end.

(** ** The process state

    The registry [hlsJobs] maps a key to a [*HLSJob]: a job is a location in
    [heap], shared by the registry, by the callers that were handed it and by
    the goroutine that runs its transcoder. *)

Definition loc := positive.

(** [*exec.Cmd]: the program, its arguments, and [Process], which is nil
    until the process has been started. *)
Record ExecCmd := {
  Path : string;
  Args : list string;
  Process : option Z
}.

Record HLSJob := {
  Dir : string;
  Cmd : option ExecCmd;
  Done : bool;          (* the channel [Done] is closed *)
  Cached : bool;
  lastAccess : Z
}.

(** The goroutine that [getOrStartHLS] launches, with what its closure holds. *)
Record Runner := {
  r_job : loc;
  r_cacheDir : string;
  r_key : string
}.

(** What the program does to the world outside its memory, in order. *)
Inductive Event :=
| EvStat (path : string)
| EvReadFile (path : string)
| EvMkdirAll (path : string)
| EvRemoveAll (path : string)
| EvOutput (program : string) (args : list string)        (* a tool run to its end for its output *)
| EvStart (program : string) (args : list string) (pid : Z) (* an external process started *)
| EvKill (pid : Z)
| EvSleep (ms : Z)
| EvServeFile (path : string).

Record State := {
  hlsJobs : gmap string loc;
  heap : gmap loc HLSJob;
  next_loc : loc;
  hlsJobsMu : bool;        (* the mutex is held *)
  disk : Disk;
  goroutines : list Runner;
  now_ms : Z;              (* the clock, in milliseconds since the epoch *)
  trace : list Event
}.

(** The package variables set at start-up, the platform, and the two things
    the program cannot see into: what [ffprobe] prints for given arguments
    ([None] when [cmd.Output] returns an error), and what the transcoder and
    the other goroutines do to the disk while a handler sleeps. *)
Record Env := {
  hlsCacheDir : string;
  ffmpegBin : string;
  ffprobeBin : string;
  GOOS : string;
  ffprobe_Output : list string -> option string;
  elapse : Z -> Disk -> Disk
}.

Inductive result (A : Type) :=
| Ok (a : A)
| Err (msg : string).
Arguments Ok {A} a.
Arguments Err {A} msg.

(** ** A state monad for the effects *)

Definition M (A : Type) : Type := State -> A * State.

Definition ret {A} (a : A) : M A := fun st => (a, st).

Definition bind {A B} (m : M A) (k : A -> M B) : M B :=
  fun st => let (a, st') := m st in k a st'.

Declare Scope m_scope.
Delimit Scope m_scope with m.
Notation "x <- m ;; k" := (bind m (fun x => k))
  (at level 100, m at next level, k at level 200, right associativity) : m_scope.
Notation "m ;; k" := (bind m (fun _ => k))
  (at level 100, k at level 200, right associativity) : m_scope.
Local Open Scope m_scope.

(** The state with one field changed. *)
Definition log (evs : list Event) (st : State) : State :=
  {| hlsJobs := hlsJobs st; heap := heap st; next_loc := next_loc st;
     hlsJobsMu := hlsJobsMu st; disk := disk st; goroutines := goroutines st;
     now_ms := now_ms st; trace := (trace st ++ evs)%list |}.

Definition with_disk (d : Disk) (st : State) : State :=
  {| hlsJobs := hlsJobs st; heap := heap st; next_loc := next_loc st;
     hlsJobsMu := hlsJobsMu st; disk := d; goroutines := goroutines st;
     now_ms := now_ms st; trace := trace st |}.

Definition with_jobs (m : gmap string loc) (st : State) : State :=
  {| hlsJobs := m; heap := heap st; next_loc := next_loc st;
     hlsJobsMu := hlsJobsMu st; disk := disk st; goroutines := goroutines st;
     now_ms := now_ms st; trace := trace st |}.

Definition with_heap (h : gmap loc HLSJob) (st : State) : State :=
  {| hlsJobs := hlsJobs st; heap := h; next_loc := next_loc st;
     hlsJobsMu := hlsJobsMu st; disk := disk st; goroutines := goroutines st;
     now_ms := now_ms st; trace := trace st |}.

Definition with_next (l : loc) (st : State) : State :=
  {| hlsJobs := hlsJobs st; heap := heap st; next_loc := l;
     hlsJobsMu := hlsJobsMu st; disk := disk st; goroutines := goroutines st;
     now_ms := now_ms st; trace := trace st |}.

Definition with_mu (b : bool) (st : State) : State :=
  {| hlsJobs := hlsJobs st; heap := heap st; next_loc := next_loc st;
     hlsJobsMu := b; disk := disk st; goroutines := goroutines st;
     now_ms := now_ms st; trace := trace st |}.

Definition with_goroutines (g : list Runner) (st : State) : State :=
  {| hlsJobs := hlsJobs st; heap := heap st; next_loc := next_loc st;
     hlsJobsMu := hlsJobsMu st; disk := disk st; goroutines := g;
     now_ms := now_ms st; trace := trace st |}.

Definition with_now (t : Z) (st : State) : State :=
  {| hlsJobs := hlsJobs st; heap := heap st; next_loc := next_loc st;
     hlsJobsMu := hlsJobsMu st; disk := disk st; goroutines := goroutines st;
     now_ms := t; trace := trace st |}.

Definition gets {A} (f : State -> A) : M A := fun st => (f st, st).
Definition modify (f : State -> State) : M unit := fun st => (tt, f st).

Definition emit (e : Event) : M unit := modify (log [e]).
Definition set_disk (d : Disk) : M unit := modify (with_disk d).
Definition set_jobs (m : gmap string loc) : M unit := modify (with_jobs m).
Definition set_mu (b : bool) : M unit := modify (with_mu b).
Definition set_goroutines (g : list Runner) : M unit := modify (with_goroutines g).
Definition set_now (t : Z) : M unit := modify (with_now t).

(** [&HLSJob{...}]: a fresh location holds the job. *)
Definition new_HLSJob (j : HLSJob) : M loc := fun st =>
  (next_loc st, with_next (Pos.succ (next_loc st)) (with_heap (<[next_loc st := j]> (heap st)) st)).

(** An assignment through a job pointer. *)
Definition update_job (l : loc) (f : HLSJob -> HLSJob) : M unit :=
  modify (fun st => with_heap (alter f l (heap st)) st).

Definition Lock : M unit := set_mu true.
Definition Unlock : M unit := set_mu false.

(** [time.Now().Unix()] *)
Definition time_Now_Unix : M Z := gets (fun st => now_ms st / 1000).

(** ** The disk, written to *)

(** A path and the directories above it (the root apart). *)
Fixpoint dir_prefixes (seen : string) (s : string) : list string :=
  match s with
  | EmptyString => [String.rev seen]
  | String c s' =>
      ((if Ascii.eqb c "/" && negb (bool_decide (seen = "")) then [String.rev seen] else [])
       ++ dir_prefixes (String c seen) s')%list
  end.

(** [os.MkdirAll(path, 0755)]: refused when [path] or a directory above it is
    a regular file; otherwise [path] and the directories above it exist. *)
Definition mkdir_all (path : string) (d : Disk) : option Disk :=
  if existsb (fun q => bool_decide (is_Some (files d !! q))) (dir_prefixes "" path)
  then None
  else Some {| files := files d; dirs := dirs d ∪ list_to_set (dir_prefixes "" path) |}.

(** [os.RemoveAll(path)]: [path] and everything below it is gone. *)
Definition remove_all (path : string) (d : Disk) : Disk :=
  {| files := filter (fun kv => path_under path kv.1 = false) (files d);
     dirs := filter (fun p => path_under path p = false) (dirs d) |}.

Definition Stat (path : string) : M (option File) :=
  emit (EvStat path) ;; gets (fun st => os_Stat (disk st) path).

Definition ReadFile (path : string) : M (option (list byte)) :=
  emit (EvReadFile path) ;; gets (fun st => os_ReadFile (disk st) path).

(** The error of [os.MkdirAll], if any. *)
Definition MkdirAll (path : string) : M (option string) :=
  emit (EvMkdirAll path) ;;
  d <- gets disk ;;
  match mkdir_all path d with
  | Some d' => set_disk d' ;; ret None
  | None => ret (Some ("mkdir " ++ path ++ ": not a directory"))
  end.

Definition RemoveAll (path : string) : M unit :=
  emit (EvRemoveAll path) ;;
  d <- gets disk ;;
  set_disk (remove_all path d).

(** ** The job manager ([hls.go]) *)

Definition quote : string := String "034" EmptyString.

(** The key of a path with a given modification time. *)
Definition job_key (filePath : string) (mtime : Z) : string :=
  let data := filePath ++ "|" ++ pretty mtime in
  hex (firstn 8 (MD5.Sum (list_byte_of_string data))).

(** The key [hlsJobKey] computes on a given disk, and what [isCacheComplete]
    answers there. *)
Definition key_on (d : Disk) (filePath : string) : string :=
  job_key filePath (match os_Stat d filePath with Some f => f_mtime f | None => 0 end).

Definition complete_on (d : Disk) (dir : string) : bool :=
  match os_ReadFile d (filepath_Join dir "stream.m3u8") with
  | Some data => strings_Contains (string_of_list_byte data) "#EXT-X-ENDLIST"
  | None => false
  end.

Definition hlsJobKey (filePath : string) : M string :=
  info <- Stat filePath ;;
  let mtime := match info with Some f => f_mtime f | None => 0 end in
  ret (job_key filePath mtime).

Definition isCacheComplete (dir : string) : M bool :=
  let m3u8Path := filepath_Join dir "stream.m3u8" in
  data <- ReadFile m3u8Path ;;
  match data with
  | None => ret false
  | Some data => ret (strings_Contains (string_of_list_byte data) "#EXT-X-ENDLIST")
  end.

(** The codec name in the output of [ffprobe]. *)
Definition parse_codec (s : string) : string :=
  match strings_Index s ("=" ++ quote) with
  | Some idx =>
      let s := drop_string (idx + 2) s in
      match strings_Index s quote with
      | Some e => take_string e s
      | None => ""
      end
  | None => ""
  end.

(** A new job that nobody has touched yet. *)
Definition make_job (dir : string) (cmd : option ExecCmd) (cached : bool) (t : Z) : HLSJob :=
  {| Dir := dir; Cmd := cmd; Done := false; Cached := cached; lastAccess := t |}.

Definition close_Done (j : HLSJob) : HLSJob :=
  {| Dir := Dir j; Cmd := Cmd j; Done := true; Cached := Cached j; lastAccess := lastAccess j |}.

Definition set_Cached (j : HLSJob) : HLSJob :=
  {| Dir := Dir j; Cmd := Cmd j; Done := Done j; Cached := true; lastAccess := lastAccess j |}.

Definition set_lastAccess (t : Z) (j : HLSJob) : HLSJob :=
  {| Dir := Dir j; Cmd := Cmd j; Done := Done j; Cached := Cached j; lastAccess := t |}.

Definition set_Process (pid : Z) (j : HLSJob) : HLSJob :=
  {| Dir := Dir j;
     Cmd := (fun c => {| Path := Path c; Args := Args c; Process := Some pid |}) <$> Cmd j;
     Done := Done j; Cached := Cached j; lastAccess := lastAccess j |}.

(** How [cmd.Run()] ends. *)
Inductive RunResult :=
| StartFailed
| Exited (code : Z)
| Signaled.

(** [cmd.Run()] returns a nil error exactly for exit status 0. *)
Definition run_error (r : RunResult) : bool :=
  match r with
  | Exited 0 => false
  | _ => true
  end.

Section Manager.

Variable env : Env.

Definition exeSuffix : string :=
  if decide (GOOS env = "windows") then ".exe" else "".

Definition ffmpegPath : string :=
  if decide (ffmpegBin env = "") then "ffmpeg" ++ exeSuffix else ffmpegBin env.

Definition ffprobePath : string :=
  if decide (ffprobeBin env = "") then "ffprobe" ++ exeSuffix else ffprobeBin env.

Definition probe_args (filePath : string) : list string :=
  ["-v"; "quiet"; "-select_streams"; "v:0"; "-show_entries"; "stream=codec_name";
   "-print_format"; "flat"; filePath].

Definition probeVideoCodec (filePath : string) : M string :=
  emit (EvOutput ffprobePath (probe_args filePath)) ;;
  match ffprobe_Output env (probe_args filePath) with
  | None => ret ""
  | Some out => ret (parse_codec out)
  end.

(** The codec [probeVideoCodec] reports. *)
Definition probed_codec (filePath : string) : string :=
  match ffprobe_Output env (probe_args filePath) with
  | Some out => parse_codec out
  | None => ""
  end.

Definition commonArgs (segPattern : string) : list string :=
  ["-map"; "0:v:0"; "-map"; "0:a:0?"; "-c:a"; "aac"; "-ac"; "2"; "-b:a"; "128k";
   "-f"; "hls"; "-hls_time"; "6"; "-hls_list_size"; "0";
   "-hls_segment_filename"; segPattern; "-hls_flags"; "independent_segments"].

(** The argument vector of the transcoder. *)
Definition ffmpeg_args (filePath codec cacheDir : string) : list string :=
  let m3u8Path := filepath_Join cacheDir "stream.m3u8" in
  let segPattern := filepath_Join cacheDir "seg%05d.ts" in
  let args :=
    if canBrowserPlayCodec codec then
      (["-loglevel"; "error"; "-i"; filePath; "-c:v"; "copy"; "-bsf:v"; "h264_mp4toannexb"]
       ++ commonArgs segPattern)%list
    else
      let videoArgs :=
        if decide (GOOS env = "darwin")
        then ["-c:v"; "h264_videotoolbox"; "-b:v"; "4M"]
        else ["-c:v"; "libx264"; "-preset"; "fast"; "-b:v"; "4M"] in
      ((["-loglevel"; "error"; "-i"; filePath] ++ videoArgs)
       ++ ["-force_key_frames"; "expr:gte(t,n_forced*2)"]
       ++ commonArgs segPattern)%list in
  (args ++ [m3u8Path])%list.

Definition getOrStartHLS (filePath : string) : M (result loc) :=
  key <- hlsJobKey filePath ;;
  Lock ;;
  found <- gets (fun st => hlsJobs st !! key) ;;
  match found with
  | Some job => Unlock ;; ret (Ok job)
  | None =>
      let cacheDir := filepath_Join (hlsCacheDir env) key in
      complete <- isCacheComplete cacheDir ;;
      if complete then
        t <- time_Now_Unix ;;
        job <- new_HLSJob (make_job cacheDir None true t) ;;
        update_job job close_Done ;;
        jobs <- gets hlsJobs ;;
        set_jobs (<[key := job]> jobs) ;;
        Unlock ;;
        ret (Ok job)
      else
        err <- MkdirAll cacheDir ;;
        match err with
        | Some e => Unlock ;; ret (Err ("创建缓存目录失败: " ++ e))
        | None =>
            codec <- probeVideoCodec filePath ;;
            let cmd := {| Path := ffmpegPath;
                          Args := ffmpeg_args filePath codec cacheDir;
                          Process := None |} in
            t <- time_Now_Unix ;;
            job <- new_HLSJob (make_job cacheDir (Some cmd) false t) ;;
            jobs <- gets hlsJobs ;;
            set_jobs (<[key := job]> jobs) ;;
            Unlock ;;
            running <- gets goroutines ;;
            set_goroutines (running ++ [{| r_job := job; r_cacheDir := cacheDir;
                                           r_key := key |}])%list ;;
            ret (Ok job)
        end
  end.

(** The goroutine, first half: [cmd.Run()] has started the process, which
    got the identifier [pid]; [cmd.Process] is set from here on. *)
Definition runner_started (r : Runner) (pid : Z) : M unit :=
  j <- gets (fun st => heap st !! r_job r) ;;
  match j with
  | Some {| Cmd := Some c |} =>
      emit (EvStart (Path c) (Args c) pid) ;;
      update_job (r_job r) (set_Process pid)
  | _ => ret tt
  end.

(** The goroutine, second half: [cmd.Run()] has returned. *)
Definition runner_returned (r : Runner) (res : RunResult) : M unit :=
  (if run_error res
   then RemoveAll (r_cacheDir r)
   else update_job (r_job r) set_Cached) ;;
  update_job (r_job r) close_Done ;;
  running <- gets goroutines ;;
  set_goroutines (filter (fun r' => r_job r' ≠ r_job r) running).

Definition TouchHLS (key : string) : M unit :=
  Lock ;;
  found <- gets (fun st => hlsJobs st !! key) ;;
  match found with
  | Some job => t <- time_Now_Unix ;; update_job job (set_lastAccess t)
  | None => ret tt
  end ;;
  Unlock.

Definition StopHLS (key : string) : M unit :=
  Lock ;;
  found <- gets (fun st => hlsJobs st !! key) ;;
  match found with
  | Some _ => jobs <- gets hlsJobs ;; set_jobs (delete key jobs)
  | None => ret tt
  end ;;
  Unlock ;;
  match found with
  | None => ret tt
  | Some job =>
      j <- gets (fun st => heap st !! job) ;;
      match j with
      | Some {| Dir := dir; Cmd := Some {| Process := Some pid |}; Cached := false |} =>
          emit (EvKill pid) ;;
          RemoveAll dir
      | _ => ret tt
      end
  end.

Definition hlsIdleTimeout : Z := 60.

Fixpoint stop_all (keys : list string) : M unit :=
  match keys with
  | [] => ret tt
  | key :: keys' => StopHLS key ;; stop_all keys'
  end.

(** One tick of the reaper (every ten seconds). *)
Definition reaper_tick : M unit :=
  now <- time_Now_Unix ;;
  Lock ;;
  jobs <- gets hlsJobs ;;
  objs <- gets heap ;;
  let idle (kv : string * loc) : bool :=
    match objs !! kv.2 with
    | Some j => (0 <? lastAccess j) && (hlsIdleTimeout <? now - lastAccess j)
    | None => false
    end in
  let idleKeys := (filter (fun kv => idle kv = true) (map_to_list jobs)).*1 in
  Unlock ;;
  stop_all idleKeys.

End Manager.

(** ** The artifact server ([handleHLS] of [server.go]) *)

(** What the handler answers: [http.NotFound], [http.Error] with its text
    and status, or [http.ServeFile] on a path after the headers it has set. *)
Inductive Response :=
| NotFound
| Error (msg : string) (code : Z)
| ServeFile (headers : list (string * string)) (path : string).

Definition StatusNotFound : Z := 404.
Definition StatusServiceUnavailable : Z := 503.

(** The status line of an answer, when the handler itself decides it. *)
Definition status_of (r : Response) : option Z :=
  match r with
  | NotFound => Some StatusNotFound
  | Error _ code => Some code
  | ServeFile _ _ => None
  end.

Section Server.

Variable env : Env.

(** [time.Sleep(ms * time.Millisecond)]: the clock moves on, and so does
    the disk, under the hands of the transcoder. *)
Definition time_Sleep (ms : Z) : M unit :=
  emit (EvSleep ms) ;;
  t <- gets now_ms ;;
  d <- gets disk ;;
  set_disk (elapse env t d) ;;
  set_now (t + ms).

(** The playlist is there and names a segment. *)
Definition m3u8_ready (data : option (list byte)) : bool :=
  match data with
  | Some data => strings_Contains (string_of_list_byte data) ".ts"
  | None => false
  end.

(** [for i := 0; i < n; i++] around the read of the playlist. *)
Fixpoint poll_m3u8 (n : nat) (filePath : string) : M bool :=
  match n with
  | O => ret false
  | S n' =>
      data <- ReadFile filePath ;;
      if m3u8_ready data then ret true
      else time_Sleep 100 ;; poll_m3u8 n' filePath
  end.

(** [for i := 0; i < n; i++] around the [os.Stat] of the segment. *)
Fixpoint poll_ts (n : nat) (filePath : string) : M bool :=
  match n with
  | O => ret false
  | S n' =>
      info <- Stat filePath ;;
      if bool_decide (is_Some info) then ret true
      else time_Sleep 100 ;; poll_ts n' filePath
  end.

(** The part of [handleHLS] after the artifact directory is known. *)
Definition serve_artifact (hlsDir fileName : string) : M Response :=
  let filePath := filepath_Join hlsDir fileName in
  if strings_HasSuffix fileName ".m3u8" then
    ready <- poll_m3u8 150 filePath ;;
    if ready then
      emit (EvServeFile filePath) ;;
      ret (ServeFile [("Content-Type", "application/vnd.apple.mpegurl");
                      ("Cache-Control", "no-cache")] filePath)
    else ret (Error "m3u8 not ready" StatusServiceUnavailable)
  else if strings_HasSuffix fileName ".ts" then
    ready <- poll_ts 300 filePath ;;
    if ready then
      emit (EvServeFile filePath) ;;
      ret (ServeFile [("Content-Type", "video/mp2t")] filePath)
    else ret (Error "ts segment not ready" StatusServiceUnavailable)
  else
    emit (EvServeFile filePath) ;;
    ret (ServeFile [] filePath).

(** The artifact directory of a key: the job's, or the complete one on disk. *)
Definition resolve_dir (key : string) : M (option string) :=
  Lock ;;
  found <- gets (fun st => hlsJobs st !! key) ;;
  Unlock ;;
  match found with
  | Some job =>
      j <- gets (fun st => heap st !! job) ;;
      ret (Dir <$> j)
  | None =>
      let cacheDir := filepath_Join (hlsCacheDir env) key in
      complete <- isCacheComplete cacheDir ;;
      if complete then ret (Some cacheDir) else ret None
  end.

(** [handleHLS] on the request path [r.URL.Path]. *)
Definition handleHLS (urlPath : string) : M Response :=
  let path := strings_TrimPrefix urlPath "/hls/" in
  match strings_SplitN_slash_2 path with
  | [key; fileName] =>
      if strings_Contains fileName "/" || strings_Contains fileName ".."
      then ret NotFound
      else
        TouchHLS key ;;
        hlsDir <- resolve_dir key ;;
        match hlsDir with
        | None => ret (Error "转码任务不存在或已结束" StatusNotFound)
        | Some hlsDir => serve_artifact hlsDir fileName
        end
  | _ => ret NotFound
  end.

End Server.

(** ** Sample worlds *)

(** A small file with the given text. *)
Definition text_file (content : string) : File :=
  {| f_size := Z.of_nat (String.length content); f_mtime := 1700000000000000000;
     f_data := fun off => nth (Z.to_nat off) (list_byte_of_string content) x00;
     f_noopen := false; f_bad := fun _ => false |}.

(** A Linux host whose [ffprobe] reports the given codec, and on whose disk
    nothing moves while a handler sleeps. *)
Definition quiet_env (codec : string) : Env :=
  {| hlsCacheDir := "/home/u/.cache/localcinema/hls";
     ffmpegBin := ""; ffprobeBin := ""; GOOS := "linux";
     ffprobe_Output := fun _ =>
       Some ("streams.stream.0.codec_name=" ++ quote ++ codec ++ quote)%string;
     elapse := fun _ d => d |}.

(** The process just after start-up, on a given disk. *)
Definition fresh_state (d : Disk) : State :=
  {| hlsJobs := ∅; heap := ∅; next_loc := 1%positive; hlsJobsMu := false;
     disk := d; goroutines := []; now_ms := 1700000000000; trace := [] |}.

(** A video of 4096 bytes at [/v/foo.mkv]. *)
Definition video_disk : Disk := one_file "/v/foo.mkv" (no_moov 4096).

(** The key of [/v/foo.mkv] on [video_disk]. *)
Definition foo_key : string := "09d25094f467daf8".

(** [video_disk] with a finished playlist for [/v/foo.mkv] in the cache. *)
Definition cached_disk : Disk :=
  {| files := <["/home/u/.cache/localcinema/hls/09d25094f467daf8/stream.m3u8" :=
                 text_file "#EXTM3U seg00000.ts #EXT-X-ENDLIST"]> (files video_disk);
     dirs := {["/home/u/.cache/localcinema/hls/09d25094f467daf8"]} |}.

(** [video_disk] where the cache root is a regular file. *)
Definition blocked_disk : Disk :=
  {| files := <["/home/u/.cache/localcinema/hls" := text_file "not a directory"]>
                (files video_disk);
     dirs := ∅ |}.

(** The goroutine that the first [getOrStartHLS] for [/v/foo.mkv] launches. *)
Definition foo_runner : Runner :=
  {| r_job := 1%positive;
     r_cacheDir := "/home/u/.cache/localcinema/hls/09d25094f467daf8";
     r_key := foo_key |}.

(** [/v/foo.mkv] was asked for, its transcoder started as process 4242. *)
Definition running_state : State :=
  (runner_started foo_runner 4242
     (getOrStartHLS (quiet_env "hevc") "/v/foo.mkv" (fresh_state video_disk)).2).2.

(** The transcoder then exited with status 1. *)
Definition failed_state : State :=
  (runner_returned foo_runner (Exited 1) running_state).2.

(** The transcoder exited with status 0 instead. *)
Definition finished_state : State :=
  (runner_returned foo_runner (Exited 0) running_state).2.

(** The job of [running_state]. *)
Definition foo_job : HLSJob :=
  {| Dir := "/home/u/.cache/localcinema/hls/09d25094f467daf8";
     Cmd := Some {| Path := "ffmpeg";
                    Args := ffmpeg_args (quiet_env "hevc") "/v/foo.mkv" "hevc"
                              "/home/u/.cache/localcinema/hls/09d25094f467daf8";
                    Process := Some 4242 |};
     Done := false; Cached := false; lastAccess := 1700000000 |}.

(** The job of [/v/foo.mkv] adopted from [cached_disk], then left alone for
    61 seconds and met by the reaper. *)
Definition adopted_state : State :=
  (getOrStartHLS (quiet_env "hevc") "/v/foo.mkv" (fresh_state cached_disk)).2.

Definition reaped_state : State :=
  (reaper_tick (with_now (now_ms adopted_state + 61000) adopted_state)).2.

(** ** What the rest of the program may do to a registered job

    Everything that runs besides [StopHLS] and the reaper: a call of
    [getOrStartHLS], a touch, the two halves of a transcoder goroutine, a
    request served by [handleHLS]. *)
Inductive Action :=
| ActGetOrStart (filePath : string)
| ActTouch (key : string)
| ActStarted (r : Runner) (pid : Z)
| ActReturned (r : Runner) (res : RunResult)
| ActHandleHLS (urlPath : string).

Definition perform (env : Env) (st : State) (a : Action) : State :=
  match a with
  | ActGetOrStart filePath => (getOrStartHLS env filePath st).2
  | ActTouch key => (TouchHLS key st).2
  | ActStarted r pid => (runner_started r pid st).2
  | ActReturned r res => (runner_returned r res st).2
  | ActHandleHLS urlPath => (handleHLS env urlPath st).2
  end.

(** The process a job still holds a handle of. *)
Definition live_handle (j : HLSJob) : option Z :=
  match Cmd j with
  | Some c => Process c
  | None => None
  end.

(** ** Waiting for an artifact, seen from outside *)

(** The disk after [i] sleeps of 100 ms that began at clock [t]. *)
Fixpoint disk_after (env : Env) (i : nat) (t : Z) (d : Disk) : Disk :=
  match i with
  | O => d
  | S i' => disk_after env i' (t + 100) (elapse env t d)
  end.

(** [n] failed attempts: each a look at the disk, then a sleep of 100 ms. *)
Definition retry_events (look : Event) (n : nat) : list Event :=
  concat (repeat [look; EvSleep 100] n).

(** A disk on which the transcoder writes the playlist of [/v/foo.mkv] and
    its first segment 250 ms after the clock of [fresh_state]. *)
Definition writing_env : Env :=
  {| hlsCacheDir := "/home/u/.cache/localcinema/hls";
     ffmpegBin := ""; ffprobeBin := ""; GOOS := "linux";
     ffprobe_Output := fun _ => None;
     elapse := fun t d =>
       if 1700000000250 <=? t + 100 then
         {| files :=
              <["/home/u/.cache/localcinema/hls/09d25094f467daf8/stream.m3u8" :=
                  text_file "#EXTM3U seg00000.ts"]>
                (<["/home/u/.cache/localcinema/hls/09d25094f467daf8/seg00000.ts" :=
                    text_file "G"]> (files d));
            dirs := dirs d |}
       else d |}.

(** [st'] is [st] but for the clock, the disk and the events. *)
Definition same_memory (st st' : State) : Prop :=
  hlsJobs st' = hlsJobs st /\ heap st' = heap st /\ next_loc st' = next_loc st
  /\ hlsJobsMu st' = hlsJobsMu st /\ goroutines st' = goroutines st.

(** The first steps of [handleHLS] once the name has passed the check. *)
Definition touch_and_resolve (env : Env) (key : string) : M (option string) :=
  TouchHLS key ;; resolve_dir env key.

(** [running_state] after a request for the playlist of [/v/foo.mkv] has
    touched the job and found its directory. *)
Definition touched_state : State :=
  (touch_and_resolve writing_env foo_key running_state).2.

(** [running_state] on a disk where the transcoder has written the head of
    the playlist of [/v/foo.mkv] and no segment yet: the file exists, and
    its text does not contain [.ts]. *)
Definition stalled_state : State :=
  with_disk
    {| files := <["/home/u/.cache/localcinema/hls/09d25094f467daf8/stream.m3u8" :=
                   text_file "#EXTM3U #EXT-X-VERSION:3"]> (files (disk running_state));
       dirs := dirs (disk running_state) |}
    running_state.

(** [stalled_state] after a request for that playlist has touched the job
    and found its directory. *)
Definition stalled_touched_state : State :=
  (touch_and_resolve (quiet_env "hevc") foo_key stalled_state).2.

(** ** Proof automation *)

(** Runs the monad: unfolds the primitives and projects the fields. *)
Ltac run_m :=
  unfold Lock, Unlock, time_Now_Unix, emit, set_disk, set_jobs, set_mu, set_goroutines,
    set_now, new_HLSJob, update_job;
  unfold bind, ret, gets, modify;
  cbn [fst snd hlsJobs heap next_loc hlsJobsMu disk goroutines now_ms trace
       log with_disk with_jobs with_heap with_next with_mu with_goroutines with_now].

(** Projects the fields of a state built by the updates. *)
Ltac proj_st :=
  cbn [hlsJobs heap next_loc hlsJobsMu disk goroutines now_ms trace
       log with_disk with_jobs with_heap with_next with_mu with_goroutines with_now];
  rewrite <- ?app_assoc; cbn [app].

(** Splits a conjunction into its parts, and nothing else. *)
Ltac split_all := repeat match goal with |- _ /\ _ => split end.

(** ** The life of the registry

    Every step the process and its surroundings can take: the actions above,
    a [StopHLS], a tick of the reaper, and the world moving on (other
    processes write to the disk, the clock advances). *)
Inductive Step :=
| StepAction (a : Action)
| StepStop (key : string)
| StepReaper
| StepWorld (d : Disk) (t : Z).

Definition run_step (env : Env) (st : State) (s : Step) : State :=
  match s with
  | StepAction a => perform env st a
  | StepStop key => (StopHLS key st).2
  | StepReaper => (reaper_tick st).2
  | StepWorld d t => with_now t (with_disk d st)
  end.

(** The states the process can be in, from its start on some disk. *)
Inductive reachable (env : Env) : State -> Prop :=
| reach_start d : reachable env (fresh_state d)
| reach_step st s : reachable env st -> reachable env (run_step env st s).

(** What holds of the registry, the jobs and the goroutines throughout: a
    registered job exists and its directory is the cache directory of its
    key; locations are handed out in order; the job of a goroutine exists,
    writes to the cache directory of the goroutine's key, has a command, and
    is neither cached nor done; no two goroutines share a job. *)
Definition registry_ok (env : Env) (st : State) : Prop :=
  (forall key l, hlsJobs st !! key = Some l ->
     exists j, heap st !! l = Some j /\ Dir j = filepath_Join (hlsCacheDir env) key)
  /\ (forall l, is_Some (heap st !! l) -> (l < next_loc st)%positive)
  /\ (forall r, r ∈ goroutines st ->
        r_cacheDir r = filepath_Join (hlsCacheDir env) (r_key r)
        /\ exists j, heap st !! r_job r = Some j /\ Dir j = r_cacheDir r
                     /\ is_Some (Cmd j) /\ Cached j = false /\ Done j = false)
  /\ NoDup (r_job <$> goroutines st).

(** The test of the reaper on a job at [now] seconds: touched at least once,
    and not for more than [hlsIdleTimeout]. *)
Definition is_idle (now : Z) (j : option HLSJob) : bool :=
  match j with
  | Some j => (0 <? lastAccess j) && (hlsIdleTimeout <? now - lastAccess j)
  | None => false
  end.

(** The events by which the program only looks at the world or waits. *)
Definition looks_only (e : Event) : bool :=
  match e with
  | EvStat _ | EvReadFile _ | EvSleep _ | EvServeFile _ => true
  | _ => false
  end.

(** A job with everything but the time of its last access. *)
Definition untouched (j : HLSJob) : HLSJob := set_lastAccess 0 j.

(** The directory that [StopHLS] removes, if any: that of the job of the
    key, when the job holds a started process and is not cached. *)
Definition stop_removes (st : State) (key : string) (dir : string) : Prop :=
  exists job j pid,
    hlsJobs st !! key = Some job /\ heap st !! job = Some j
    /\ live_handle j = Some pid /\ Cached j = false /\ Dir j = dir.

(** [st'] is [st] after the program has only looked at the world and
    waited: the memory is the same, and the new events are looks and sleeps. *)
Definition only_looked (st st' : State) : Prop :=
  same_memory st st'
  /\ exists evs, trace st' = (trace st ++ evs)%list /\ forallb looks_only evs = true.

(** ** Keys and codec names *)

(** A string of the digits that [%x] prints. *)
Definition is_hex_string (s : string) : bool :=
  forallb (fun c => existsb (Ascii.eqb c) (list_ascii_of_string "0123456789abcdef"))
          (list_ascii_of_string s).

(** ** The pages and the video files ([server.go])

    [scanner.go]'s table of the extensions that count as videos. *)
Definition videoExts (ext : string) : bool :=
  bool_decide (ext ∈ [".mp4"; ".mkv"; ".avi"; ".mov"; ".webm"; ".m4v"; ".wmv"; ".flv"]).

(** [filepath.IsAbs(path)], on a system whose separator is the slash. *)
Definition filepath_IsAbs (path : string) : bool := strings_HasPrefix path "/".

(** [strings.TrimSuffix(s, suffix)] *)
Definition strings_TrimSuffix (s suffix : string) : string :=
  if strings_HasSuffix s suffix
  then take_string (String.length s - String.length suffix) s
  else s.

(** [filepath.Base(path)]: the last element, trailing slashes apart. *)
Fixpoint strip_slashes (rev_path : list ascii) : list ascii :=
  match rev_path with
  | c :: rest => if Ascii.eqb c "/" then strip_slashes rest else rev_path
  | [] => []
  end.

Fixpoint last_element (rev_path : list ascii) (acc : string) : string :=
  match rev_path with
  | [] => acc
  | c :: rest => if Ascii.eqb c "/" then acc else last_element rest (String c acc)
  end.

Definition filepath_Base (path : string) : string :=
  if decide (path = "") then "."
  else
    let e := last_element (strip_slashes (rev (list_ascii_of_string path))) "" in
    if decide (e = "") then "/" else e.

(** [(s *Server) isValidPath(relPath)], with [s.videoDir] as [videoDir]. *)
Definition isValidPath (videoDir relPath : string) : bool :=
  if decide (relPath = "") then false
  else
    let cleaned := filepath_Clean relPath in
    if filepath_IsAbs cleaned || strings_HasPrefix cleaned ".." then false
    else
      let full := filepath_Join videoDir cleaned in
      if negb (strings_HasPrefix full (videoDir ++ "/")) then false
      else videoExts (strings_ToLower (filepath_Ext cleaned)).

Definition StatusBadRequest : Z := 400.
Definition StatusForbidden : Z := 403.
Definition StatusInternalServerError : Z := 500.

(** [strconv.Atoi(s)], the value alone (the handlers drop the error): an
    optional sign, then decimal digits; 0 on a syntax error; on a value out
    of range the digits are read no further and the nearest bound of [int]
    (64 bits) is returned. *)
Inductive parsed :=
| SyntaxError
| RangeError
| Value (n : Z).

(** [strconv.ParseUint(s, 10, 64)] after its check for the empty string. *)
Fixpoint ParseUint_digits (n : Z) (s : string) : parsed :=
  match s with
  | EmptyString => Value n
  | String c s' =>
      let d := Z.of_nat (nat_of_ascii c) - 48 in
      if (d <? 0) || (9 <? d) then SyntaxError
      else if (2 ^ 64 - 1) / 10 + 1 <=? n then RangeError
      else if 2 ^ 64 - 1 <? n * 10 + d then RangeError
      else ParseUint_digits (n * 10 + d) s'
  end.

Definition strconv_ParseInt (s : string) : parsed :=
  let neg := match s with String "-" _ => true | _ => false end in
  let digits := match s with
                | String "-" s' => s'
                | String "+" s' => s'
                | _ => s
                end in
  if decide (digits = "") then SyntaxError
  else match ParseUint_digits 0 digits with
       | SyntaxError => SyntaxError
       | RangeError => Value (if neg then - 2 ^ 63 else 2 ^ 63 - 1)
       | Value un =>
           if negb neg && (2 ^ 63 <=? un) then Value (2 ^ 63 - 1)
           else if neg && (2 ^ 63 <? un) then Value (- 2 ^ 63)
           else Value (if neg then - un else un)
       end.

Definition strconv_Atoi (s : string) : Z :=
  match strconv_ParseInt s with
  | Value n => n
  | _ => 0
  end.

(** [scanner.go]'s [VideoFile]. *)
Record VideoFile := {
  Name : string;
  RelPath : string;
  Size : Z;
  SizeStr : string;
  Duration : string
}.

Record IndexData := {
  Videos : list VideoFile;
  Page : Z;
  PageSize : Z;
  Total : Z;
  TotalPages : Z
}.

(** The data [handlePlay] hands to its template. *)
Module Player.
Record Data := {
  Name : string;
  File : string;
  UseHLS : bool;
  HLSKey : string;
  Related : list VideoFile
}.
End Player.

(** What a page handler answers: one of the plain answers, a template
    executed on its data, or a run-time panic (which [net/http] turns into
    an aborted connection). *)
Inductive Answer (D : Type) :=
| Plain (r : Response)
| Template (name : string) (data : D)
| Panic.
Arguments Plain {D} r.
Arguments Template {D} name data.
Arguments Panic {D}.

(** The slice expression [s[lo:hi]], which panics out of range. *)
Definition go_slice {A} (s : list A) (lo hi : Z) : option (list A) :=
  if (0 <=? lo) && (lo <=? hi) && (hi <=? Z.of_nat (length s))
  then Some (firstn (Z.to_nat (hi - lo)) (skipn (Z.to_nat lo) s))
  else None.

(** The arithmetic of [handleIndex] on the two query values, in [int]s of 64
    bits; [/] rounds towards zero. *)
Definition index_data (videos : list VideoFile) (page size : Z) : option IndexData :=
  let size := if size <=? 0 then 20 else size in
  let total := Z.of_nat (length videos) in
  let totalPages := Z.quot (int64 (int64 (total + size) - 1)) size in
  let totalPages := if totalPages <? 1 then 1 else totalPages in
  let page := if page <? 1 then 1 else page in
  let page := if totalPages <? page then totalPages else page in
  let start := int64 (int64 (page - 1) * size) in
  let end_ := int64 (start + size) in
  let end_ := if total <? end_ then total else end_ in
  match go_slice videos start end_ with
  | Some shown =>
      Some {| Videos := shown; Page := page; PageSize := size; Total := total;
              TotalPages := totalPages |}
  | None => None
  end.

Section Pages.

Variable env : Env.

(** [s.videoDir] *)
Variable videoDir : string.

(** [ScanVideos(root)] walks the directory, runs [ffprobe] and formats
    floating-point numbers; the handlers are modelled for whatever it does
    and returns: the list and the error. *)
Variable ScanVideos : string -> M (list VideoFile * option string).

Definition handleIndex (urlPath pageQuery sizeQuery : string) : M (Answer IndexData) :=
  if negb (String.eqb urlPath "/") then ret (Plain NotFound)
  else
    scanned <- ScanVideos videoDir ;;
    match scanned with
    | (_, Some _) => ret (Plain (Error "扫描视频目录失败" StatusInternalServerError))
    | (videos, None) =>
        let page := strconv_Atoi pageQuery in
        let size := strconv_Atoi sizeQuery in
        match index_data videos page size with
        | Some data => ret (Template "index.html" data)
        | None => ret Panic
        end
    end.

Definition handlePlay (file : string) : M (Answer Player.Data) :=
  if decide (file = "") then ret (Plain (Error "缺少 file 参数" StatusBadRequest))
  else if negb (isValidPath videoDir file)
  then ret (Plain (Error "无效的文件路径" StatusForbidden))
  else
    let fullPath := filepath_Join videoDir file in
    hls <- gets (fun st => useHLS (disk st) fullPath) ;;
    scanned <- ScanVideos videoDir ;;
    let related := filter (fun v => RelPath v <> file) scanned.1 in
    key <- (if hls : bool
            then key <- hlsJobKey fullPath ;;
                 getOrStartHLS env fullPath ;;
                 ret key
            else ret "") ;;
    ret (Template "player.html"
           {| Player.Name := strings_TrimSuffix (filepath_Base file) (filepath_Ext file);
              Player.File := file;
              Player.UseHLS := hls;
              Player.HLSKey := key;
              Player.Related := related |}).

Definition handleVideo (file : string) : M Response :=
  if decide (file = "") then ret (Error "缺少 file 参数" StatusBadRequest)
  else if negb (isValidPath videoDir file)
  then ret (Error "无效的文件路径" StatusForbidden)
  else
    let fullPath := filepath_Join videoDir file in
    emit (EvServeFile fullPath) ;;
    ret (ServeFile [] fullPath).

End Pages.

(** An element that [filepath.Clean] keeps as it is: not empty, not [.],
    not [..], and free of slashes. *)
Definition normal_elem (e : string) : Prop :=
  e <> "" /\ e <> "." /\ e <> ".." /\ strings_Contains e "/" = false.

Definition slash_free (e : string) : Prop := strings_Contains e "/" = false.

(** ** Thumbnails ([thumb.go]) *)

(** What [handleThumb] answers: one of the plain answers, or a body written
    after the headers it has set. *)
Inductive ThumbAnswer :=
| Answered (r : Response)
| Wrote (headers : list (string * string)) (body : string).

(** The four argument vectors that [generateThumb] tries in turn. *)
Definition thumb_attempts (videoPath outPath : string) : list (list string) :=
  [ ["-ss"; "5"; "-i"; videoPath;
     "-vframes"; "1"; "-vf"; "scale=320:-2"; "-q:v"; "6"; "-y"; outPath];
    ["-i"; videoPath;
     "-vframes"; "1"; "-vf"; "scale=320:-2"; "-q:v"; "6"; "-y"; outPath];
    ["-analyzeduration"; "20000000"; "-probesize"; "50000000";
     "-ss"; "5"; "-i"; videoPath;
     "-vframes"; "1"; "-vf"; "scale=320:-2"; "-q:v"; "6"; "-y"; outPath];
    ["-analyzeduration"; "20000000"; "-probesize"; "50000000";
     "-i"; videoPath;
     "-vframes"; "1"; "-vf"; "scale=320:-2"; "-q:v"; "6"; "-y"; outPath] ].

Section Thumbs.

Variable env : Env.

(** [s.videoDir] and the package variable [thumbCacheDir]. *)
Variable videoDir : string.
Variable thumbCacheDir : string.

(** What a run of [ffmpeg] to its end does: its error, if any, and the disk
    it leaves. *)
Variable ffmpeg_CombinedOutput : list string -> Disk -> option string * Disk.

(** [staticFS.ReadFile("static/placeholder.svg")] *)
Variable placeholder : option string.

Definition CombinedOutput (args : list string) : M (option string) :=
  emit (EvOutput (ffmpegPath env) args) ;;
  d <- gets disk ;;
  let (err, d') := ffmpeg_CombinedOutput args d in
  set_disk d' ;;
  ret err.

(** The loop of [generateThumb] over the attempts still to make. *)
Fixpoint try_attempts (attempts : list (list string)) (outPath : string)
    (lastErr : option string) : M (option string) :=
  match attempts with
  | [] => ret lastErr
  | args :: rest =>
      err <- CombinedOutput args ;;
      match err with
      | Some _ => try_attempts rest outPath err
      | None =>
          info <- Stat outPath ;;
          match info with
          | Some f => if 0 <? f_size f then ret None else try_attempts rest outPath err
          | None => try_attempts rest outPath err
          end
      end
  end.

(** [generateThumb(videoPath, outPath)]: the error it returns, if any. *)
Definition generateThumb (videoPath outPath : string) : M (option string) :=
  try_attempts (thumb_attempts videoPath outPath) outPath None.

Definition thumbPath (videoPath : string) : M string :=
  info <- Stat videoPath ;;
  let mtime := match info with Some f => f_mtime f | None => 0 end in
  ret (filepath_Join thumbCacheDir (job_key videoPath mtime ++ ".jpg")).

Definition servePlaceholder : ThumbAnswer :=
  match placeholder with
  | None => Answered (Error "封面生成失败" StatusInternalServerError)
  | Some data => Wrote [("Content-Type", "image/svg+xml");
                        ("Cache-Control", "public, max-age=3600")] data
  end.

Definition handleThumb (file : string) : M ThumbAnswer :=
  if decide (file = "") then ret (Answered (Error "缺少 file 参数" StatusBadRequest))
  else if negb (isValidPath videoDir file)
  then ret (Answered (Error "无效的文件路径" StatusForbidden))
  else
    let fullPath := filepath_Join videoDir file in
    cached <- thumbPath fullPath ;;
    info <- Stat cached ;;
    failed <- match info with
              | Some _ => ret false
              | None =>
                  err <- generateThumb fullPath cached ;;
                  ret (bool_decide (is_Some err))
              end ;;
    if failed : bool then ret servePlaceholder
    else
      emit (EvServeFile cached) ;;
      ret (Answered (ServeFile [("Cache-Control", "public, max-age=86400")] cached)).

End Thumbs.

(** The runs of [ffmpeg] among some events, in order. *)
Definition tool_runs (evs : list Event) : list (string * list string) :=
  omap (fun e => match e with EvOutput program args => Some (program, args) | _ => None end) evs.

(** A non-empty file is at [path]. *)
Definition file_there (d : Disk) (path : string) : Prop :=
  exists f, os_Stat d path = Some f /\ 0 < f_size f.

(** ** Clearing the cache ([hls.go]) *)

(** [ClearHLSCache()]: the error it returns, if any. *)
Definition ClearHLSCache (env : Env) : M (option string) :=
  if decide (hlsCacheDir env = "") then ret None
  else RemoveAll (hlsCacheDir env) ;; ret None.

(** * Properties *)

(** ** Machine integers and reads *)

Lemma int64_range z : - 2 ^ 63 <= int64 z < 2 ^ 63.
Proof. unfold int64. pose proof (Z.mod_pos_bound (z + 2 ^ 63) (2 ^ 64)). lia. Qed.

Lemma int64_small z : - 2 ^ 63 <= z < 2 ^ 63 -> int64 z = z.
Proof. intros H. unfold int64. rewrite Z.mod_small; lia. Qed.

Lemma int64_wrap z : 2 ^ 63 <= z < 2 ^ 64 -> int64 z = z - 2 ^ 64.
Proof.
  intros H. unfold int64.
  replace (z + 2 ^ 63) with ((z - 2 ^ 63) + 1 * 2 ^ 64) by lia.
  rewrite Z.mod_add by lia. rewrite Z.mod_small; lia.
Qed.

Lemma byte_val_range b : 0 <= byte_val b < 256.
Proof. unfold byte_val. pose proof (Byte.to_N_bounded b). lia. Qed.

Lemma be_fold_shift l a :
  fold_left (fun acc x => acc * 256 + byte_val x) l a
  = a * 256 ^ Z.of_nat (length l) + fold_left (fun acc x => acc * 256 + byte_val x) l 0.
Proof.
  revert a. induction l as [|x l IH]; intros a.
  - simpl. lia.
  - cbn [fold_left length]. rewrite IH, (IH (0 * 256 + byte_val x)).
    rewrite Nat2Z.inj_succ, Z.pow_succ_r by lia. lia.
Qed.

Lemma be_uint_app l1 l2 :
  be_uint (l1 ++ l2) = be_uint l1 * 256 ^ Z.of_nat (length l2) + be_uint l2.
Proof. unfold be_uint. rewrite fold_left_app. apply be_fold_shift. Qed.

Lemma be_uint_range l : 0 <= be_uint l < 256 ^ Z.of_nat (length l).
Proof.
  induction l as [|x l IH] using rev_ind.
  - cbn. lia.
  - rewrite be_uint_app, length_app. simpl length.
    replace (Z.of_nat (length l + 1)) with (Z.of_nat (length l) + 1) by lia.
    rewrite Z.pow_add_r by lia. change (be_uint [x]) with (0 * 256 + byte_val x).
    pose proof (byte_val_range x). change (256 ^ Z.of_nat 1) with 256.
    change (256 ^ 1) with 256. nia.
Qed.

Lemma ReadAt_length f n off buf : ReadAt f n off = Some buf -> length buf = n.
Proof.
  unfold ReadAt. destruct (_ || _); [discriminate|]. intros [= <-].
  unfold offsets. now rewrite !length_map, length_seq.
Qed.

Lemma ReadAt_inside f n off buf :
  ReadAt f n off = Some buf -> 0 <= off /\ off + Z.of_nat n <= f_size f.
Proof.
  unfold ReadAt. destruct (off <? 0) eqn:E1; [discriminate|].
  destruct (f_size f <? off + Z.of_nat n) eqn:E2; [discriminate|]. intros _. lia.
Qed.

Lemma ReadAt_outside f n off :
  off < 0 \/ f_size f < off + Z.of_nat n -> ReadAt f n off = None.
Proof.
  intros H. unfold ReadAt.
  destruct (off <? 0) eqn:E1; [reflexivity|].
  destruct (f_size f <? off + Z.of_nat n) eqn:E2; [reflexivity|]. lia.
Qed.

Lemma Uint32_range b : 0 <= BigEndian_Uint32 b < 2 ^ 32.
Proof.
  unfold BigEndian_Uint32. pose proof (be_uint_range (firstn 4 b)) as H.
  pose proof (length_firstn 4 b) as L.
  assert (256 ^ Z.of_nat (length (firstn 4 b)) <= 256 ^ 4)
    by (apply Z.pow_le_mono_r; lia).
  change (256 ^ 4) with (2 ^ 32) in *. lia.
Qed.

Lemma Uint64_range b : 0 <= BigEndian_Uint64 b < 2 ^ 64.
Proof.
  unfold BigEndian_Uint64. pose proof (be_uint_range (firstn 8 b)) as H.
  pose proof (length_firstn 8 b) as L.
  assert (256 ^ Z.of_nat (length (firstn 8 b)) <= 256 ^ 8)
    by (apply Z.pow_le_mono_r; lia).
  change (256 ^ 8) with (2 ^ 64) in *. lia.
Qed.

Lemma int64_signed64 u : 0 <= u < 2 ^ 64 -> int64 u = signed64 u.
Proof.
  intros H. unfold signed64. destruct (u <? 2 ^ 63) eqn:E.
  - apply int64_small. lia.
  - apply int64_wrap. lia.
Qed.

(** ** The inspector *)

Lemma box_step_spec f off :
  0 <= f_size f < 2 ^ 63 ->
  box_step f off = step_of_box off (spec_box f off).
Proof.
  intros Hsz. unfold box_step, spec_box, step_of_box. cbv zeta.
  destruct (ReadAt f 8 off) as [buf|] eqn:Hrd; [|reflexivity].
  apply ReadAt_inside in Hrd as Hin. change (Z.of_nat 8) with 8 in Hin.
  unfold BigEndian_Uint32. rewrite !firstn_firstn. change (Init.Nat.min 4 4) with 4%nat.
  pose proof (Uint32_range buf) as H32. unfold BigEndian_Uint32 in H32.
  rewrite (int64_small (be_uint (firstn 4 buf))) by lia.
  rewrite (int64_small (off + 8)) by lia.
  rewrite (int64_small (f_size f - off)) by lia.
  destruct (be_uint (firstn 4 buf) =? 1).
  - destruct (ReadAt f 8 (off + 8)) as [large|] eqn:Hl; [|reflexivity].
    pose proof (Uint64_range large) as H64.
    rewrite int64_signed64 by exact H64. unfold BigEndian_Uint64.
    apply ReadAt_length in Hl. rewrite firstn_all2 by lia.
    destruct (_ <? 8); reflexivity.
  - destruct (_ <? 8); reflexivity.
Qed.

Lemma spec_box_Some f off sz ty :
  spec_box f off = Some (sz, ty) -> 0 <= off /\ off + 8 <= f_size f /\ 8 <= sz.
Proof.
  unfold spec_box. destruct (ReadAt f 8 off) as [buf|] eqn:Hrd; [|discriminate].
  apply ReadAt_inside in Hrd. change (Z.of_nat 8) with 8 in Hrd.
  destruct (if _ =? 1 then _ else _) as [s|]; [|discriminate].
  destruct (_ <? 8) eqn:E; [discriminate|]. intros [= <- _]. lia.
Qed.

Lemma spec_box_below f off sz ty :
  0 <= f_size f < 2 ^ 63 -> spec_box f off = Some (sz, ty) -> sz < 2 ^ 63.
Proof.
  intros Hsz. unfold spec_box. cbv zeta.
  destruct (ReadAt f 8 off) as [buf|] eqn:Hrd; [|discriminate].
  apply ReadAt_inside in Hrd. change (Z.of_nat 8) with 8 in Hrd.
  pose proof (Uint32_range buf) as H32. unfold BigEndian_Uint32 in H32.
  assert (Hreal : forall s,
    (if be_uint (firstn 4 buf) =? 1
     then match ReadAt f 8 (off + 8) with
          | Some large => Some (signed64 (be_uint large))
          | None => None
          end
     else Some (be_uint (firstn 4 buf))) = Some s -> s < 2 ^ 63).
  { intros s. destruct (_ =? 1).
    - destruct (ReadAt f 8 (off + 8)) as [large|] eqn:Hl; [|discriminate].
      intros [= <-]. unfold signed64.
      destruct (Z.ltb_spec (be_uint large) (2 ^ 63)); [lia|].
      pose proof (be_uint_range large) as Hr. apply ReadAt_length in Hl.
      rewrite Hl in Hr. change (256 ^ Z.of_nat 8) with (2 ^ 64) in Hr. lia.
    - intros [= <-]. lia. }
  destruct (if _ =? 1 then _ else _) as [s|]; [|discriminate].
  specialize (Hreal s eq_refl).
  destruct (s =? 0); destruct (_ <? 8); try discriminate; intros [= <- _]; lia.
Qed.

Lemma spec_box_outside f off :
  off < 0 \/ f_size f < off + 8 -> spec_box f off = None.
Proof. intros H. unfold spec_box. now rewrite ReadAt_outside. Qed.

(** Every turn that goes on has read a header inside the file and ends at a
    negative offset or at least eight bytes further. *)
Lemma box_step_Continue_size f off off' :
  box_step f off = Continue off' ->
  exists sz, 8 <= sz < 2 ^ 63 /\ off' = int64 (off + sz)
             /\ 0 <= off /\ off + 8 <= f_size f.
Proof.
  unfold box_step. cbv zeta.
  destruct (ReadAt f 8 off) as [buf|] eqn:Hrd; [|discriminate].
  apply ReadAt_inside in Hrd. change (Z.of_nat 8) with 8 in Hrd.
  set (size := int64 (BigEndian_Uint32 (firstn 4 buf))).
  assert (Hreal : forall s,
    (if size =? 1
     then match ReadAt f 8 (int64 (off + 8)) with
          | Some buf64 => Some (int64 (BigEndian_Uint64 buf64))
          | None => None
          end
     else Some size) = Some s -> - 2 ^ 63 <= s < 2 ^ 63).
  { intros s. destruct (size =? 1).
    - destruct (ReadAt f 8 (int64 (off + 8))); [|discriminate].
      intros [= <-]. apply int64_range.
    - intros [= <-]. apply int64_range. }
  destruct (if size =? 1 then _ else _) as [s|]; [|discriminate].
  specialize (Hreal s eq_refl).
  set (sz := if s =? 0 then int64 (f_size f - off) else s).
  assert (Hsz : - 2 ^ 63 <= sz < 2 ^ 63).
  { subst sz. destruct (s =? 0); [apply int64_range|exact Hreal]. }
  destruct (sz <? 8) eqn:E; [discriminate|].
  destruct (String.eqb _ "moov"); [discriminate|].
  destruct (String.eqb _ "mdat"); [discriminate|].
  intros [= <-]. exists sz. repeat split; lia.
Qed.

Lemma box_step_Continue f off off' :
  - 2 ^ 63 <= off < 2 ^ 63 ->
  box_step f off = Continue off' ->
  0 <= off /\ off + 8 <= f_size f /\ - 2 ^ 63 <= off' < 2 ^ 63
  /\ (off' < 0 \/ off + 8 <= off').
Proof.
  intros Hoff Hst. apply box_step_Continue_size in Hst as (sz & Hsz & -> & H0 & H8).
  pose proof (int64_range (off + sz)) as Hr.
  repeat split; try lia.
  destruct (Z_lt_dec (off + sz) (2 ^ 63)) as [Hs|Hs].
  - right. rewrite int64_small; lia.
  - left. rewrite int64_wrap; lia.
Qed.

(** The loop ends: [walk] never runs out of the turns [walk_fuel] grants. *)
Lemma walk_enough f n : forall off,
  - 2 ^ 63 <= off < 2 ^ 63 ->
  off < 0 \/ f_size f - off < 8 * (Z.of_nat n + 1) ->
  exists b, walk (S n) f off = Some b.
Proof.
  induction n as [|n IH]; intros off Hoff Hm.
  - cbn [walk]. destruct (box_step f off) as [| b | off'] eqn:Hst; eauto.
    apply box_step_Continue in Hst as (H0 & H8 & Hr & Hnext); [lia|exact Hoff].
  - cbn [walk]. destruct (box_step f off) as [| b | off'] eqn:Hst; eauto.
    apply box_step_Continue in Hst as (H0 & H8 & Hr & Hnext); [|exact Hoff].
    apply IH; lia.
Qed.

Lemma walk_total f : exists b, walk (walk_fuel f) f 0 = Some b.
Proof.
  unfold walk_fuel. apply walk_enough; [lia|]. right.
  pose proof (Z.mul_succ_div_gt (f_size f) 8 ltac:(lia)). lia.
Qed.

(** More turns do not change an answer. *)
Lemma walk_more f n : forall off b m,
  walk n f off = Some b -> (n <= m)%nat -> walk m f off = Some b.
Proof.
  induction n as [|n IH]; intros off b m Hw Hle; [discriminate|].
  destruct m as [|m]; [lia|]. cbn [walk] in *.
  destruct (box_step f off); try exact Hw. apply IH; [exact Hw|lia].
Qed.

Lemma walk_decides f boxes : forall s,
  0 <= f_size f < 2 ^ 63 ->
  top_boxes f s boxes ->
  forall n c b, same_place f c s -> walk n f c = Some b ->
  b = spec_decision (map snd boxes).
Proof.
  intros s Hsz Htb. induction Htb as [s Hbox | s sz ty l Hbox Htb IH];
    intros n c b Hplace Hw; destruct n as [|n]; try discriminate; cbn [walk] in Hw.
  - assert (Hst : box_step f c = Break).
    { rewrite box_step_spec by exact Hsz. destruct Hplace as [-> | [Hc Hs]].
      - now rewrite Hbox.
      - rewrite spec_box_outside by lia. reflexivity. }
    rewrite Hst in Hw. now injection Hw as <-.
  - apply spec_box_Some in Hbox as Hin. destruct Hin as (H0 & H8 & Hsz8).
    destruct Hplace as [-> | [Hc Hs]]; [|lia].
    rewrite box_step_spec in Hw by exact Hsz. rewrite Hbox in Hw.
    unfold step_of_box in Hw. unfold spec_decision. cbn [map snd find].
    unfold is_moov_or_mdat at 1.
    destruct (String.eqb ty "moov") eqn:Emoov.
    { cbn [orb]. rewrite Emoov. now injection Hw as <-. }
    destruct (String.eqb ty "mdat") eqn:Emdat.
    { cbn [orb]. rewrite Emoov. now injection Hw as <-. }
    cbn [orb]. apply (IH n (int64 (s + sz)) b); [|exact Hw].
    destruct (Z_lt_dec (s + sz) (2 ^ 63)) as [Hlt|Hge].
    + left. apply int64_small. lia.
    + right. pose proof (spec_box_below f s sz ty Hsz Hbox).
      rewrite int64_wrap; lia.
Qed.

(** The boxes of a file exist and are determined. *)
Lemma top_boxes_exist f n : forall off,
  f_size f - off < 8 * Z.of_nat n -> exists boxes, top_boxes f off boxes.
Proof.
  induction n as [|n IH]; intros off Hm.
  - exists []. constructor. apply spec_box_outside. lia.
  - destruct (spec_box f off) as [[sz ty]|] eqn:Hbox.
    + apply spec_box_Some in Hbox as Hin. destruct Hin as (H0 & H8 & Hsz8).
      destruct (IH (off + sz)) as [l Hl]; [lia|].
      exists ((sz, ty) :: l). econstructor; eassumption.
    + exists []. now constructor.
Qed.

Lemma top_boxes_unique f off l1 :
  top_boxes f off l1 -> forall l2, top_boxes f off l2 -> l1 = l2.
Proof.
  induction 1 as [off Hb | off sz ty l Hb Htb IH]; intros l2 H2; inversion H2; subst.
  - reflexivity.
  - congruence.
  - congruence.
  - match goal with H : spec_box f off = Some _ |- _ => rewrite Hb in H; injection H as <- <- end.
    f_equal. now apply IH.
Qed.

Lemma hasMoovAtFront_open d filePath f :
  os_Open d filePath = Some f ->
  walk (walk_fuel f) f 0 = Some (hasMoovAtFront d filePath).
Proof.
  intros Ho. unfold hasMoovAtFront. rewrite Ho.
  destruct (walk_total f) as [b ->]. reflexivity.
Qed.

Lemma spec_decision_first pre sz ty post :
  Forall (fun b : Z * string => is_moov_or_mdat b.2 = false) pre ->
  is_moov_or_mdat ty = true ->
  spec_decision (map snd (pre ++ (sz, ty) :: post)) = String.eqb ty "moov".
Proof.
  intros Hpre Hty. unfold spec_decision. induction Hpre as [|[s t] pre Ht Hpre IH].
  - cbn. now rewrite Hty.
  - cbn in *. now rewrite Ht.
Qed.

Lemma spec_decision_none boxes :
  Forall (fun b : Z * string => is_moov_or_mdat b.2 = false) boxes ->
  spec_decision (map snd boxes) = true.
Proof.
  intros H. unfold spec_decision. induction H as [|[s t] l Ht H IH].
  - reflexivity.
  - cbn in *. now rewrite Ht.
Qed.

Lemma size0_box_is_last f off hdr :
  ReadAt f 8 off = Some hdr ->
  BigEndian_Uint32 hdr = 0 ->
  top_boxes f off [(f_size f - off, string_of_list_byte (skipn 4 hdr))].
Proof.
  intros Hrd H0. apply ReadAt_inside in Hrd as Hin. change (Z.of_nat 8) with 8 in Hin.
  econstructor.
  - unfold spec_box. rewrite Hrd. cbv zeta. unfold BigEndian_Uint32 in H0. rewrite H0.
    cbn [Z.eqb].
    destruct (Z.ltb_spec (f_size f - off) 8); [lia|reflexivity].
  - constructor. apply spec_box_outside. lia.
Qed.

(** C3.  The inspector walks the top-level boxes from offset 0, a header
    being a big-endian unsigned 32-bit size and a four-byte type, a size of 1
    standing for the 64-bit value of the next eight bytes, a size of 0 for
    the rest of the file, and a size under 8 or a failed read ending the
    walk ([spec_box], [top_boxes]).  On a file that opens, whose size fits an
    [int64], it answers true when a [moov] box comes before any [mdat], false
    when an [mdat] comes first, and true when the walk ends on neither; a
    box with size field 0 is the last one, and the walk ends after it. *)
Theorem hasMoovAtFront_decision_rule (d : Disk) (filePath : string) (f : File) :
  os_Open d filePath = Some f ->
  0 <= f_size f < 2 ^ 63 ->
  exists boxes,
    top_boxes f 0 boxes /\
    (forall boxes', top_boxes f 0 boxes' -> boxes' = boxes) /\
    (forall pre sz post,
        boxes = (pre ++ (sz, "moov") :: post)%list ->
        Forall (fun b : Z * string => is_moov_or_mdat b.2 = false) pre ->
        hasMoovAtFront d filePath = true) /\
    (forall pre sz post,
        boxes = (pre ++ (sz, "mdat") :: post)%list ->
        Forall (fun b : Z * string => is_moov_or_mdat b.2 = false) pre ->
        hasMoovAtFront d filePath = false) /\
    (Forall (fun b : Z * string => is_moov_or_mdat b.2 = false) boxes ->
     hasMoovAtFront d filePath = true) /\
    (forall off hdr,
        ReadAt f 8 off = Some hdr ->
        BigEndian_Uint32 hdr = 0 ->
        top_boxes f off [(f_size f - off, string_of_list_byte (skipn 4 hdr))]).
Proof.
  intros Ho Hsz.
  destruct (top_boxes_exist f (Z.to_nat (f_size f / 8 + 1)) 0) as [boxes Hb].
  { pose proof (Z.mul_succ_div_gt (f_size f) 8 ltac:(lia)). lia. }
  pose proof (hasMoovAtFront_open d filePath f Ho) as Hw.
  assert (Hdec : hasMoovAtFront d filePath = spec_decision (map snd boxes)).
  { eapply walk_decides; [exact Hsz|exact Hb|left; reflexivity|exact Hw]. }
  exists boxes. split; [exact Hb|]. split.
  { intros boxes' Hb'. exact (top_boxes_unique f 0 boxes' Hb' boxes Hb). }
  repeat split.
  - intros pre sz post -> Hpre. rewrite Hdec. now rewrite spec_decision_first.
  - intros pre sz post -> Hpre. rewrite Hdec. now rewrite spec_decision_first.
  - intros Hnone. rewrite Hdec. now apply spec_decision_none.
  - intros off hdr. apply size0_box_is_last.
Qed.

Lemma one_file_Stat path f : os_Stat (one_file path f) path = Some f.
Proof. unfold os_Stat, one_file. cbn [files]. apply lookup_singleton_eq. Qed.

Lemma one_file_Open path f :
  os_Open (one_file path f) path = if f_noopen f then None else Some f.
Proof. unfold os_Open, one_file. cbn [files]. now rewrite lookup_singleton_eq. Qed.

Lemma hasMoovAtFront_decision_rule_witness :
  let d := one_file "/v/a.mp4" (front_moov 4096) in
  let f := front_moov 4096 in
  os_Open d "/v/a.mp4" = Some f /\
  0 <= f_size f < 2 ^ 63 /\
  exists boxes,
    top_boxes f 0 boxes /\
    (forall boxes', top_boxes f 0 boxes' -> boxes' = boxes) /\
    (forall pre sz post,
        boxes = (pre ++ (sz, "moov") :: post)%list ->
        Forall (fun b : Z * string => is_moov_or_mdat b.2 = false) pre ->
        hasMoovAtFront d "/v/a.mp4" = true) /\
    (forall pre sz post,
        boxes = (pre ++ (sz, "mdat") :: post)%list ->
        Forall (fun b : Z * string => is_moov_or_mdat b.2 = false) pre ->
        hasMoovAtFront d "/v/a.mp4" = false) /\
    (Forall (fun b : Z * string => is_moov_or_mdat b.2 = false) boxes ->
     hasMoovAtFront d "/v/a.mp4" = true) /\
    (forall off hdr,
        ReadAt f 8 off = Some hdr ->
        BigEndian_Uint32 hdr = 0 ->
        top_boxes f off [(f_size f - off, string_of_list_byte (skipn 4 hdr))]).
Proof.
  intros d f.
  assert (Ho : os_Open d "/v/a.mp4" = Some f) by (vm_compute; reflexivity).
  assert (Hs : 0 <= f_size f < 2 ^ 63) by (unfold f, front_moov, mkfile; cbn [f_size]; lia).
  split; [exact Ho|]. split; [exact Hs|].
  exact (hasMoovAtFront_decision_rule d "/v/a.mp4" f Ho Hs).
Defined.

(** The three sample layouts, walked. *)
Example front_moov_boxes :
  top_boxes (front_moov 4096) 0 [(24, "ftyp"); (16, "moov"); (4056, "mdat")]
  /\ hasMoovAtFront (one_file "/v/a.mp4" (front_moov 4096)) "/v/a.mp4" = true.
Proof.
  split; [|vm_compute; reflexivity].
  repeat (econstructor; [vm_compute; reflexivity|]). constructor. vm_compute; reflexivity.
Qed.

Example tail_moov_boxes :
  top_boxes (tail_moov 4096) 0 [(24, "ftyp"); (4056, "mdat"); (16, "moov")]
  /\ hasMoovAtFront (one_file "/v/a.mp4" (tail_moov 4096)) "/v/a.mp4" = false.
Proof.
  split; [|vm_compute; reflexivity].
  repeat (econstructor; [vm_compute; reflexivity|]). constructor. vm_compute; reflexivity.
Qed.

Example no_moov_boxes :
  top_boxes (no_moov 4096) 0 [(24, "ftyp"); (4072, "free")]
  /\ hasMoovAtFront (one_file "/v/a.mp4" (no_moov 4096)) "/v/a.mp4" = true.
Proof.
  split; [|vm_compute; reflexivity].
  repeat (econstructor; [vm_compute; reflexivity|]). constructor. vm_compute; reflexivity.
Qed.

(** A 64-bit size with the top bit set is negative in the [int64] of the
    code: the walk ends on it as on any size under 8, whatever the type. *)
Example huge_size_ends_walk :
  box_step (huge_mdat 4096) 24 = Break
  /\ spec_box (huge_mdat 4096) 24 = None
  /\ top_boxes (huge_mdat 4096) 0 [(24, "ftyp")]
  /\ hasMoovAtFront (one_file "/v/a.mp4" (huge_mdat 4096)) "/v/a.mp4" = true.
Proof.
  split; [vm_compute; reflexivity|]. split; [vm_compute; reflexivity|].
  split; [|vm_compute; reflexivity].
  econstructor; [vm_compute; reflexivity|]. constructor. vm_compute; reflexivity.
Qed.

(** ** The classifier *)

Lemma needsTranscode_false filePath :
  needsTranscode filePath = false <->
  strings_ToLower (filepath_Ext filePath) = ".mp4"
  \/ strings_ToLower (filepath_Ext filePath) = ".m4v".
Proof.
  unfold needsTranscode. cbv zeta.
  destruct (String.eqb_spec (strings_ToLower (filepath_Ext filePath)) ".mp4") as [E1|E1];
  destruct (String.eqb_spec (strings_ToLower (filepath_Ext filePath)) ".m4v") as [E2|E2];
    cbn; intuition congruence.
Qed.

Lemma needsStreamingMp4_false d filePath info :
  os_Stat d filePath = Some info ->
  needsStreamingMp4 d filePath = false <->
  f_size info < 500 * 1024 * 1024 \/ hasMoovAtFront d filePath = true.
Proof.
  intros Hst. unfold needsStreamingMp4. rewrite Hst.
  change largeMp4Threshold with (500 * 1024 * 1024).
  destruct (Z.ltb_spec (f_size info) (500 * 1024 * 1024)) as [Hlt|Hge].
  - intuition.
  - destruct (hasMoovAtFront d filePath); cbn; intuition (try lia; try congruence).
Qed.

(** C2.  When [os.Stat] gives the size of the file, [handlePlay] serves it
    directly ([useHLS] is false) if and only if its extension, in lower case,
    is [.mp4] or [.m4v] and the file is smaller than 500 MiB or the inspector
    answers true.  So an MP4 of exactly 500 MiB for which the inspector
    answers false needs HLS, and one of 499 MiB is served directly whatever
    its layout. *)
Theorem useHLS_direct_serve_iff (d : Disk) (fullPath : string) (info : File) :
  os_Stat d fullPath = Some info ->
  (useHLS d fullPath = false <->
   (strings_ToLower (filepath_Ext fullPath) = ".mp4"
    \/ strings_ToLower (filepath_Ext fullPath) = ".m4v")
   /\ (f_size info < 500 * 1024 * 1024 \/ hasMoovAtFront d fullPath = true))
  /\ (needsTranscode fullPath = false ->
      f_size info = 500 * 1024 * 1024 ->
      hasMoovAtFront d fullPath = false ->
      useHLS d fullPath = true)
  /\ (needsTranscode fullPath = false ->
      f_size info = 499 * 1024 * 1024 ->
      useHLS d fullPath = false).
Proof.
  intros Hst.
  assert (Hiff : useHLS d fullPath = false <->
    (strings_ToLower (filepath_Ext fullPath) = ".mp4"
     \/ strings_ToLower (filepath_Ext fullPath) = ".m4v")
    /\ (f_size info < 500 * 1024 * 1024 \/ hasMoovAtFront d fullPath = true)).
  { unfold useHLS. rewrite orb_false_iff, needsTranscode_false.
    now rewrite (needsStreamingMp4_false d fullPath info Hst). }
  split; [exact Hiff|]. split.
  - intros Hext Hsize Hmoov. apply not_false_iff_true. intros E.
    apply Hiff in E as [_ [Hlt|Hm]]; [lia|congruence].
  - intros Hext Hsize. apply Hiff. split; [now apply needsTranscode_false|left; lia].
Qed.

Lemma tail_moov_500_inspect :
  hasMoovAtFront (one_file "/v/a.mp4" (tail_moov (500 * MiB))) "/v/a.mp4" = false.
Proof.
  unfold hasMoovAtFront. rewrite one_file_Open.
  change (f_noopen (tail_moov (500 * MiB))) with false. cbv iota.
  reflexivity.
Qed.

Lemma useHLS_direct_serve_iff_witness :
  os_Stat (one_file "/v/a.mp4" (tail_moov (500 * MiB))) "/v/a.mp4"
  = Some (tail_moov (500 * MiB))
  /\ f_size (tail_moov (500 * MiB)) = 500 * 1024 * 1024
  /\ hasMoovAtFront (one_file "/v/a.mp4" (tail_moov (500 * MiB))) "/v/a.mp4" = false
  /\ useHLS (one_file "/v/a.mp4" (tail_moov (500 * MiB))) "/v/a.mp4" = true
  /\ os_Stat (one_file "/v/a.mp4" (tail_moov (499 * MiB))) "/v/a.mp4"
     = Some (tail_moov (499 * MiB))
  /\ f_size (tail_moov (499 * MiB)) = 499 * 1024 * 1024
  /\ useHLS (one_file "/v/a.mp4" (tail_moov (499 * MiB))) "/v/a.mp4" = false.
Proof.
  pose proof (one_file_Stat "/v/a.mp4" (tail_moov (500 * MiB))) as S500.
  pose proof (one_file_Stat "/v/a.mp4" (tail_moov (499 * MiB))) as S499.
  pose proof tail_moov_500_inspect as Hm.
  assert (E : needsTranscode "/v/a.mp4" = false) by reflexivity.
  assert (B500 : f_size (tail_moov (500 * MiB)) = 500 * 1024 * 1024) by reflexivity.
  assert (B499 : f_size (tail_moov (499 * MiB)) = 499 * 1024 * 1024) by reflexivity.
  refine (conj S500 (conj B500 (conj Hm (conj _ (conj S499 (conj B499 _)))))).
  - exact (proj1 (proj2 (useHLS_direct_serve_iff _ _ _ S500)) E B500 Hm).
  - exact (proj2 (proj2 (useHLS_direct_serve_iff _ _ _ S499)) E B499).
Defined.

(** ** Layouts that cannot be read *)

Lemma read_fails_Break f off : read_fails_at f off -> box_step f off = Break.
Proof.
  unfold box_step. intros [Hrd | (buf & Hrd & H1 & Hl)]; rewrite Hrd; [reflexivity|].
  cbv zeta. rewrite H1. cbn [Z.eqb Pos.eqb]. now rewrite Hl.
Qed.

(** The answer of the whole walk is the answer of the walk from any offset
    it reaches. *)
Lemma walk_from_reached f off :
  walk_reaches f off ->
  forall n b, walk n f 0 = Some b -> exists m, walk m f off = Some b.
Proof.
  induction 1 as [|off off' Hr IH Hst]; intros n b Hw.
  - now exists n.
  - destruct (IH n b Hw) as [m Hm]. destruct m as [|m]; [discriminate|].
    cbn [walk] in Hm. rewrite Hst in Hm. now exists m.
Qed.

Lemma read_error_says_front d filePath f :
  os_Open d filePath = Some f -> read_error_in_walk f -> hasMoovAtFront d filePath = true.
Proof.
  intros Ho (off & Hreach & Hfail).
  pose proof (hasMoovAtFront_open d filePath f Ho) as Hw.
  destruct (walk_from_reached f off Hreach _ _ Hw) as [m Hm].
  destruct m as [|m]; [discriminate|]. cbn [walk] in Hm.
  rewrite (read_fails_Break f off Hfail) in Hm. now injection Hm as <-.
Qed.

(** C8, as the code has it.  For an [.mp4] or [.m4v] file of 500 MiB or more:
    when the file cannot be opened, the classifier asks for HLS; when a read
    fails during the box walk, the walk ends there, the inspector answers
    true, and the file is served directly. *)
Theorem unreadable_layout_routing (d : Disk) (fullPath : string) (info : File) :
  os_Stat d fullPath = Some info ->
  needsTranscode fullPath = false ->
  largeMp4Threshold <= f_size info ->
  (os_Open d fullPath = None -> useHLS d fullPath = true)
  /\ (forall f, os_Open d fullPath = Some f -> read_error_in_walk f ->
                useHLS d fullPath = false).
Proof.
  intros Hst Hext Hbig. unfold useHLS, needsStreamingMp4. rewrite Hext, Hst.
  destruct (Z.ltb_spec (f_size info) largeMp4Threshold) as [Hlt|_]; [lia|]. split.
  - intros Ho. unfold hasMoovAtFront. now rewrite Ho.
  - intros f Ho Herr. now rewrite (read_error_says_front d fullPath f Ho Herr).
Qed.

Lemma bad_sector_read_error : read_error_in_walk (bad_sector (600 * MiB)).
Proof.
  exists 24. split.
  - apply (reaches_next _ 0 24); [constructor|]. reflexivity.
  - left. reflexivity.
Qed.

(** C8 as stated fails on this file: an [.mp4] of 600 MiB whose device
    fails every read after the [ftyp] box.  The walk meets the read error at
    offset 24, and the classifier still serves the file directly. *)
Lemma read_error_is_served_directly :
  os_Stat (one_file "/v/a.mp4" (bad_sector (600 * MiB))) "/v/a.mp4"
  = Some (bad_sector (600 * MiB))
  /\ needsTranscode "/v/a.mp4" = false
  /\ largeMp4Threshold <= f_size (bad_sector (600 * MiB))
  /\ os_Open (one_file "/v/a.mp4" (bad_sector (600 * MiB))) "/v/a.mp4"
     = Some (bad_sector (600 * MiB))
  /\ read_error_in_walk (bad_sector (600 * MiB))
  /\ useHLS (one_file "/v/a.mp4" (bad_sector (600 * MiB))) "/v/a.mp4" = false.
Proof.
  split; [apply one_file_Stat|]. split; [reflexivity|].
  split; [unfold largeMp4Threshold, MiB, bad_sector; cbn [f_size]; lia|].
  split; [apply one_file_Open|]. split; [exact bad_sector_read_error|].
  unfold useHLS, needsStreamingMp4. rewrite one_file_Stat.
  change (needsTranscode "/v/a.mp4") with false.
  destruct (Z.ltb_spec (f_size (bad_sector (600 * MiB))) largeMp4Threshold) as [Hlt|_].
  - unfold largeMp4Threshold, MiB, bad_sector in Hlt. cbn [f_size] in Hlt. lia.
  - unfold hasMoovAtFront. rewrite one_file_Open. reflexivity.
Qed.

Lemma unreadable_layout_routing_witness :
  (os_Stat (one_file "/v/a.mp4" (no_permission (600 * MiB))) "/v/a.mp4"
   = Some (no_permission (600 * MiB))
   /\ os_Open (one_file "/v/a.mp4" (no_permission (600 * MiB))) "/v/a.mp4" = None
   /\ useHLS (one_file "/v/a.mp4" (no_permission (600 * MiB))) "/v/a.mp4" = true)
  /\ (os_Stat (one_file "/v/a.mp4" (bad_sector (600 * MiB))) "/v/a.mp4"
      = Some (bad_sector (600 * MiB))
      /\ os_Open (one_file "/v/a.mp4" (bad_sector (600 * MiB))) "/v/a.mp4"
         = Some (bad_sector (600 * MiB))
      /\ read_error_in_walk (bad_sector (600 * MiB))
      /\ useHLS (one_file "/v/a.mp4" (bad_sector (600 * MiB))) "/v/a.mp4" = false).
Proof.
  assert (E : needsTranscode "/v/a.mp4" = false) by reflexivity.
  assert (B1 : largeMp4Threshold <= f_size (no_permission (600 * MiB)))
    by (unfold largeMp4Threshold, MiB, no_permission; cbn [f_size]; lia).
  assert (B2 : largeMp4Threshold <= f_size (bad_sector (600 * MiB)))
    by (unfold largeMp4Threshold, MiB, bad_sector; cbn [f_size]; lia).
  pose proof (one_file_Stat "/v/a.mp4" (no_permission (600 * MiB))) as S1.
  pose proof (one_file_Stat "/v/a.mp4" (bad_sector (600 * MiB))) as S2.
  pose proof (one_file_Open "/v/a.mp4" (no_permission (600 * MiB))) as O1.
  pose proof (one_file_Open "/v/a.mp4" (bad_sector (600 * MiB))) as O2.
  cbn [no_permission bad_sector f_noopen] in O1, O2.
  refine (conj (conj S1 (conj O1 _)) (conj S2 (conj O2 (conj bad_sector_read_error _)))).
  - exact (proj1 (unreadable_layout_routing _ _ _ S1 E B1) O1).
  - exact (proj2 (unreadable_layout_routing _ _ _ S2 E B2) _ O2 bad_sector_read_error).
Defined.

(** ** Running the monad *)

Lemma hlsJobKey_run filePath st :
  hlsJobKey filePath st = (key_on (disk st) filePath, log [EvStat filePath] st).
Proof. unfold hlsJobKey, Stat, key_on. run_m. reflexivity. Qed.

Lemma isCacheComplete_run dir st :
  isCacheComplete dir st
  = (complete_on (disk st) dir, log [EvReadFile (filepath_Join dir "stream.m3u8")] st).
Proof.
  unfold isCacheComplete, ReadFile, complete_on. run_m.
  destruct (os_ReadFile (disk st) _); reflexivity.
Qed.

Section ManagerFacts.

Variable env : Env.

(** The ways [getOrStartHLS] ends: on a key the registry holds, on a complete
    cache, on a directory that cannot be made, and with a new transcoder. *)
Lemma getOrStartHLS_resident filePath st job :
  hlsJobs st !! key_on (disk st) filePath = Some job ->
  getOrStartHLS env filePath st
  = (Ok job, with_mu false (with_mu true (log [EvStat filePath] st))).
Proof.
  intros Hjob. unfold getOrStartHLS. run_m. rewrite hlsJobKey_run.
  run_m. rewrite Hjob. reflexivity.
Qed.

Lemma getOrStartHLS_cached filePath st key cacheDir :
  key = key_on (disk st) filePath ->
  cacheDir = filepath_Join (hlsCacheDir env) key ->
  hlsJobs st !! key = None ->
  complete_on (disk st) cacheDir = true ->
  exists st',
    getOrStartHLS env filePath st = (Ok (next_loc st), st')
    /\ hlsJobs st' = <[key := next_loc st]> (hlsJobs st)
    /\ heap st' = <[next_loc st := {| Dir := cacheDir; Cmd := None; Done := true;
                                       Cached := true; lastAccess := now_ms st / 1000 |}]>
                   (heap st)
    /\ next_loc st' = Pos.succ (next_loc st)
    /\ hlsJobsMu st' = false
    /\ disk st' = disk st
    /\ goroutines st' = goroutines st
    /\ now_ms st' = now_ms st
    /\ trace st' = (trace st
                    ++ [EvStat filePath; EvReadFile (filepath_Join cacheDir "stream.m3u8")])%list.
Proof.
  intros -> -> Hjob Hc. eexists. split.
  { unfold getOrStartHLS. run_m. rewrite hlsJobKey_run.
    run_m. rewrite Hjob. rewrite isCacheComplete_run.
    run_m. rewrite Hc. run_m. reflexivity. }
  proj_st. rewrite alter_insert_eq. repeat split; reflexivity.
Qed.

Lemma getOrStartHLS_mkdir_fails filePath st key cacheDir :
  key = key_on (disk st) filePath ->
  cacheDir = filepath_Join (hlsCacheDir env) key ->
  hlsJobs st !! key = None ->
  complete_on (disk st) cacheDir = false ->
  mkdir_all cacheDir (disk st) = None ->
  exists st',
    getOrStartHLS env filePath st
    = (Err ("创建缓存目录失败: " ++ ("mkdir " ++ cacheDir ++ ": not a directory")), st')
    /\ hlsJobs st' = hlsJobs st
    /\ heap st' = heap st
    /\ next_loc st' = next_loc st
    /\ hlsJobsMu st' = false
    /\ disk st' = disk st
    /\ goroutines st' = goroutines st
    /\ now_ms st' = now_ms st
    /\ trace st' = (trace st
                    ++ [EvStat filePath; EvReadFile (filepath_Join cacheDir "stream.m3u8");
                        EvMkdirAll cacheDir])%list.
Proof.
  intros -> -> Hjob Hc Hmk. eexists. split.
  { unfold getOrStartHLS. run_m. rewrite hlsJobKey_run.
    run_m. rewrite Hjob. rewrite isCacheComplete_run.
    run_m. rewrite Hc. unfold MkdirAll. run_m. rewrite Hmk. run_m. reflexivity. }
  proj_st. repeat split; reflexivity.
Qed.

Lemma getOrStartHLS_starts filePath st key cacheDir d' :
  key = key_on (disk st) filePath ->
  cacheDir = filepath_Join (hlsCacheDir env) key ->
  hlsJobs st !! key = None ->
  complete_on (disk st) cacheDir = false ->
  mkdir_all cacheDir (disk st) = Some d' ->
  exists st',
    getOrStartHLS env filePath st = (Ok (next_loc st), st')
    /\ hlsJobs st' = <[key := next_loc st]> (hlsJobs st)
    /\ heap st' = <[next_loc st :=
                     {| Dir := cacheDir;
                        Cmd := Some {| Path := ffmpegPath env;
                                       Args := ffmpeg_args env filePath
                                                 (probed_codec env filePath) cacheDir;
                                       Process := None |};
                        Done := false; Cached := false;
                        lastAccess := now_ms st / 1000 |}]> (heap st)
    /\ next_loc st' = Pos.succ (next_loc st)
    /\ hlsJobsMu st' = false
    /\ disk st' = d'
    /\ goroutines st' = (goroutines st
                         ++ [{| r_job := next_loc st; r_cacheDir := cacheDir;
                                r_key := key |}])%list
    /\ now_ms st' = now_ms st
    /\ trace st' = (trace st
                    ++ [EvStat filePath; EvReadFile (filepath_Join cacheDir "stream.m3u8");
                        EvMkdirAll cacheDir;
                        EvOutput (ffprobePath env) (probe_args filePath)])%list.
Proof.
  intros -> -> Hjob Hc Hmk.
  assert (Hprobe : forall s, probeVideoCodec env filePath s
                             = (probed_codec env filePath,
                                log [EvOutput (ffprobePath env) (probe_args filePath)] s)).
  { intros s. unfold probeVideoCodec, probed_codec. run_m.
    destruct (ffprobe_Output env (probe_args filePath)); reflexivity. }
  eexists. split.
  { unfold getOrStartHLS. run_m. rewrite hlsJobKey_run.
    run_m. rewrite Hjob. rewrite isCacheComplete_run.
    run_m. rewrite Hc. unfold MkdirAll. run_m. rewrite Hmk. run_m.
    rewrite Hprobe. run_m. reflexivity. }
  proj_st. repeat split; reflexivity.
Qed.

End ManagerFacts.

(** ** Adopting a complete cache *)

Lemma complete_on_spec d dir :
  complete_on d dir = true <->
  exists data, os_ReadFile d (filepath_Join dir "stream.m3u8") = Some data
               /\ strings_Contains (string_of_list_byte data) "#EXT-X-ENDLIST" = true.
Proof.
  unfold complete_on. destruct (os_ReadFile d _) as [data|].
  - split; [intros H; now exists data | intros (data' & [= <-] & H); exact H].
  - split; [discriminate | intros (data' & [=] & _)].
Qed.

(** C7.  When the registry has no entry for the key of the path and the
    directory of that key under the cache root holds a [stream.m3u8] with the
    marker [#EXT-X-ENDLIST], [getOrStartHLS] registers and returns a job with
    no process handle, [Cached] set and [Done] closed; it launches no
    goroutine and its only effects outside memory are the [os.Stat] of the
    source and the read of the playlist: no external tool runs. *)
Theorem getOrStartHLS_adopts_complete_cache
    (env : Env) (filePath : string) (st : State) (key cacheDir : string) (data : list byte) :
  key = key_on (disk st) filePath ->
  cacheDir = filepath_Join (hlsCacheDir env) key ->
  hlsJobs st !! key = None ->
  os_ReadFile (disk st) (filepath_Join cacheDir "stream.m3u8") = Some data ->
  strings_Contains (string_of_list_byte data) "#EXT-X-ENDLIST" = true ->
  exists job st',
    getOrStartHLS env filePath st = (Ok job, st')
    /\ hlsJobs st' = <[key := job]> (hlsJobs st)
    /\ heap st' !! job = Some {| Dir := cacheDir; Cmd := None; Done := true;
                                 Cached := true; lastAccess := now_ms st / 1000 |}
    /\ goroutines st' = goroutines st
    /\ disk st' = disk st
    /\ trace st' = (trace st
                    ++ [EvStat filePath; EvReadFile (filepath_Join cacheDir "stream.m3u8")])%list.
Proof.
  intros Hkey Hdir Hjob Hread Hend.
  assert (Hc : complete_on (disk st) cacheDir = true)
    by (apply complete_on_spec; eauto).
  destruct (getOrStartHLS_cached env filePath st key cacheDir Hkey Hdir Hjob Hc)
    as (st' & Hrun & Hjobs & Hheap & _ & _ & Hdisk & Hgo & _ & Htrace).
  exists (next_loc st), st'. repeat split; try assumption.
  rewrite Hheap. apply lookup_insert_eq.
Qed.

Lemma getOrStartHLS_adopts_complete_cache_witness :
  foo_key = key_on (disk (fresh_state cached_disk)) "/v/foo.mkv"
  /\ hlsJobs (fresh_state cached_disk) !! foo_key = None
  /\ os_ReadFile (disk (fresh_state cached_disk))
       "/home/u/.cache/localcinema/hls/09d25094f467daf8/stream.m3u8"
     = Some (list_byte_of_string "#EXTM3U seg00000.ts #EXT-X-ENDLIST")
  /\ exists job st',
      getOrStartHLS (quiet_env "hevc") "/v/foo.mkv" (fresh_state cached_disk) = (Ok job, st')
      /\ hlsJobs st' = <[foo_key := job]> (hlsJobs (fresh_state cached_disk))
      /\ heap st' !! job
         = Some {| Dir := "/home/u/.cache/localcinema/hls/09d25094f467daf8"; Cmd := None;
                   Done := true; Cached := true;
                   lastAccess := now_ms (fresh_state cached_disk) / 1000 |}
      /\ goroutines st' = goroutines (fresh_state cached_disk)
      /\ disk st' = disk (fresh_state cached_disk)
      /\ trace st' = (trace (fresh_state cached_disk)
                      ++ [EvStat "/v/foo.mkv";
                          EvReadFile
                            "/home/u/.cache/localcinema/hls/09d25094f467daf8/stream.m3u8"])%list.
Proof.
  assert (Hkey : foo_key = key_on (disk (fresh_state cached_disk)) "/v/foo.mkv")
    by (vm_compute; reflexivity).
  assert (Hjob : hlsJobs (fresh_state cached_disk) !! foo_key = None)
    by (vm_compute; reflexivity).
  assert (Hread : os_ReadFile (disk (fresh_state cached_disk))
                    "/home/u/.cache/localcinema/hls/09d25094f467daf8/stream.m3u8"
                  = Some (list_byte_of_string "#EXTM3U seg00000.ts #EXT-X-ENDLIST"))
    by (vm_compute; reflexivity).
  refine (conj Hkey (conj Hjob (conj Hread _))).
  exact (getOrStartHLS_adopts_complete_cache (quiet_env "hevc") "/v/foo.mkv"
           (fresh_state cached_disk) foo_key
           "/home/u/.cache/localcinema/hls/09d25094f467daf8"
           (list_byte_of_string "#EXTM3U seg00000.ts #EXT-X-ENDLIST")
           Hkey ltac:(vm_compute; reflexivity) Hjob Hread ltac:(vm_compute; reflexivity)).
Defined.

(** ** A failed job stays resident *)

(** What the second half of the goroutine leaves behind. *)
Lemma runner_returned_run r res st :
  exists st',
    runner_returned r res st = (tt, st')
    /\ hlsJobs st' = hlsJobs st
    /\ heap st' = alter close_Done (r_job r)
                    (if run_error res then heap st else alter set_Cached (r_job r) (heap st))
    /\ next_loc st' = next_loc st
    /\ hlsJobsMu st' = hlsJobsMu st
    /\ disk st' = (if run_error res then remove_all (r_cacheDir r) (disk st) else disk st)
    /\ goroutines st' = filter (fun r' => r_job r' <> r_job r) (goroutines st)
    /\ now_ms st' = now_ms st
    /\ trace st' = (trace st ++ if run_error res then [EvRemoveAll (r_cacheDir r)] else [])%list.
Proof.
  unfold runner_returned, RemoveAll.
  destruct (run_error res); (eexists; split; [run_m; reflexivity|]);
    proj_st; rewrite ?app_nil_r; repeat split; reflexivity.
Qed.

(** C1, as the code has it.  After the transcoder of a registered job has
    ended in an error (a non-zero exit status among them) and the job is
    still in the registry, [getOrStartHLS] for the same key returns that
    resident job, failed as it is ([Cached] false, [Done] closed).  It does
    not enter the admission path: the registry, the jobs, the goroutines and
    the disk stay as they are, and the only effect is the [os.Stat] that
    computes the key. *)
Theorem getOrStartHLS_returns_failed_job
    (env : Env) (filePath : string) (st : State) (r : Runner) (res : RunResult) (j : HLSJob) :
  run_error res = true ->
  heap st !! r_job r = Some j ->
  Cached j = false ->
  hlsJobs st !! key_on (disk (runner_returned r res st).2) filePath = Some (r_job r) ->
  exists st2,
    getOrStartHLS env filePath (runner_returned r res st).2 = (Ok (r_job r), st2)
    /\ heap st2 !! r_job r
       = Some {| Dir := Dir j; Cmd := Cmd j; Done := true; Cached := false;
                 lastAccess := lastAccess j |}
    /\ hlsJobs st2 = hlsJobs st
    /\ heap st2 = heap (runner_returned r res st).2
    /\ goroutines st2 = goroutines (runner_returned r res st).2
    /\ disk st2 = disk (runner_returned r res st).2
    /\ trace st2 = (trace (runner_returned r res st).2 ++ [EvStat filePath])%list.
Proof.
  intros Herr Hj Hcached Hkey.
  destruct (runner_returned_run r res st)
    as (st1 & Hrun & Hjobs & Hheap & _ & _ & _ & _ & _ & _).
  rewrite Hrun in *. cbn [snd] in *.
  exists (with_mu false (with_mu true (log [EvStat filePath] st1))). split.
  { apply getOrStartHLS_resident. now rewrite Hjobs. }
  proj_st. rewrite Hheap, Herr, lookup_alter_eq, Hj. unfold close_Done. cbn [fmap option_fmap option_map].
  rewrite Hcached. repeat split; try reflexivity. exact Hjobs.
Qed.

Lemma getOrStartHLS_returns_failed_job_witness :
  run_error (Exited 1) = true
  /\ heap running_state !! r_job foo_runner = Some foo_job
  /\ Cached foo_job = false
  /\ hlsJobs running_state !! key_on (disk failed_state) "/v/foo.mkv" = Some (r_job foo_runner)
  /\ exists st2,
      getOrStartHLS (quiet_env "hevc") "/v/foo.mkv" failed_state = (Ok (r_job foo_runner), st2)
      /\ heap st2 !! r_job foo_runner
         = Some {| Dir := Dir foo_job; Cmd := Cmd foo_job; Done := true; Cached := false;
                   lastAccess := lastAccess foo_job |}
      /\ hlsJobs st2 = hlsJobs running_state
      /\ heap st2 = heap failed_state
      /\ goroutines st2 = goroutines failed_state
      /\ disk st2 = disk failed_state
      /\ trace st2 = (trace failed_state ++ [EvStat "/v/foo.mkv"])%list.
Proof.
  assert (H1 : run_error (Exited 1) = true) by reflexivity.
  assert (H2 : heap running_state !! r_job foo_runner = Some foo_job)
    by (vm_compute; reflexivity).
  assert (H3 : Cached foo_job = false) by reflexivity.
  assert (H4 : hlsJobs running_state !! key_on (disk failed_state) "/v/foo.mkv"
               = Some (r_job foo_runner)) by (vm_compute; reflexivity).
  refine (conj H1 (conj H2 (conj H3 (conj H4 _)))).
  exact (getOrStartHLS_returns_failed_job (quiet_env "hevc") "/v/foo.mkv" running_state
           foo_runner (Exited 1) foo_job H1 H2 H3 H4).
Defined.

(** C1 as stated fails here: the transcoder of [/v/foo.mkv] has exited with
    status 1, the job is still registered under the same key, and the next
    call for the same path hands out that very job and launches no
    goroutine, hence no new process. *)
Lemma failed_job_is_not_retried :
  goroutines (getOrStartHLS (quiet_env "hevc") "/v/foo.mkv" (fresh_state video_disk)).2
  = [foo_runner]
  /\ key_on (disk failed_state) "/v/foo.mkv" = foo_key
  /\ hlsJobs failed_state !! foo_key = Some 1%positive
  /\ (fun j => (Cached j, Done j)) <$> heap failed_state !! 1%positive = Some (false, true)
  /\ goroutines failed_state = []
  /\ (getOrStartHLS (quiet_env "hevc") "/v/foo.mkv" failed_state).1 = Ok 1%positive
  /\ goroutines (getOrStartHLS (quiet_env "hevc") "/v/foo.mkv" failed_state).2 = []
  /\ heap (getOrStartHLS (quiet_env "hevc") "/v/foo.mkv" failed_state).2 = heap failed_state
  /\ trace (getOrStartHLS (quiet_env "hevc") "/v/foo.mkv" failed_state).2
     = (trace failed_state ++ [EvStat "/v/foo.mkv"])%list.
Proof.
  split_all; vm_compute; reflexivity.
Qed.

(** C10.  When [os.MkdirAll] fails on the directory of the key,
    [getOrStartHLS] returns an error and leaves the registry and the jobs as
    they were: nothing is registered for the key, no goroutine is launched,
    the mutex is released, and the effects stop at the [MkdirAll] (no codec
    probe, no process).  A later call for the same key, on a disk where the
    directory can be made, is admitted afresh and launches the transcoder. *)
Theorem getOrStartHLS_mkdir_failure
    (env : Env) (filePath : string) (st : State) (key cacheDir : string) :
  key = key_on (disk st) filePath ->
  cacheDir = filepath_Join (hlsCacheDir env) key ->
  hlsJobs st !! key = None ->
  complete_on (disk st) cacheDir = false ->
  mkdir_all cacheDir (disk st) = None ->
  exists msg st',
    getOrStartHLS env filePath st = (Err msg, st')
    /\ hlsJobs st' = hlsJobs st
    /\ heap st' = heap st
    /\ hlsJobs st' !! key = None
    /\ goroutines st' = goroutines st
    /\ disk st' = disk st
    /\ hlsJobsMu st' = false
    /\ trace st' = (trace st
                    ++ [EvStat filePath; EvReadFile (filepath_Join cacheDir "stream.m3u8");
                        EvMkdirAll cacheDir])%list
    /\ (forall d d',
           key_on d filePath = key ->
           complete_on d cacheDir = false ->
           mkdir_all cacheDir d = Some d' ->
           exists job st'',
             getOrStartHLS env filePath (with_disk d st') = (Ok job, st'')
             /\ hlsJobs st'' !! key = Some job
             /\ goroutines st''
                = (goroutines st ++ [{| r_job := job; r_cacheDir := cacheDir;
                                        r_key := key |}])%list).
Proof.
  intros Hkey Hdir Hjob Hc Hmk.
  destruct (getOrStartHLS_mkdir_fails env filePath st key cacheDir Hkey Hdir Hjob Hc Hmk)
    as (st' & Hrun & Hjobs & Hheap & Hnext & Hmu & Hdisk & Hgo & Hnow & Htrace).
  eexists _, st'. split; [exact Hrun|].
  repeat (split; [first [assumption | now rewrite Hjobs]|]).
  intros d d' Hkey' Hc' Hmk'.
  destruct (getOrStartHLS_starts env filePath (with_disk d st') key cacheDir d')
    as (st'' & Hrun' & Hjobs' & _ & _ & _ & _ & Hgo' & _); cbn [disk hlsJobs with_disk];
    try (now rewrite ?Hjobs); try congruence.
  exists (next_loc (with_disk d st')), st''. split; [exact Hrun'|]. split.
  - rewrite Hjobs'. apply lookup_insert_eq.
  - rewrite Hgo'. cbn [goroutines with_disk]. now rewrite Hgo.
Qed.

Lemma getOrStartHLS_mkdir_failure_witness :
  foo_key = key_on (disk (fresh_state blocked_disk)) "/v/foo.mkv"
  /\ hlsJobs (fresh_state blocked_disk) !! foo_key = None
  /\ complete_on (disk (fresh_state blocked_disk))
       "/home/u/.cache/localcinema/hls/09d25094f467daf8" = false
  /\ mkdir_all "/home/u/.cache/localcinema/hls/09d25094f467daf8"
       (disk (fresh_state blocked_disk)) = None
  /\ exists msg st',
      getOrStartHLS (quiet_env "h264") "/v/foo.mkv" (fresh_state blocked_disk) = (Err msg, st')
      /\ hlsJobs st' = hlsJobs (fresh_state blocked_disk)
      /\ heap st' = heap (fresh_state blocked_disk)
      /\ hlsJobs st' !! foo_key = None
      /\ goroutines st' = goroutines (fresh_state blocked_disk)
      /\ disk st' = disk (fresh_state blocked_disk)
      /\ hlsJobsMu st' = false
      /\ trace st'
         = (trace (fresh_state blocked_disk)
            ++ [EvStat "/v/foo.mkv";
                EvReadFile (filepath_Join "/home/u/.cache/localcinema/hls/09d25094f467daf8"
                              "stream.m3u8");
                EvMkdirAll "/home/u/.cache/localcinema/hls/09d25094f467daf8"])%list
      /\ (forall d d',
             key_on d "/v/foo.mkv" = foo_key ->
             complete_on d "/home/u/.cache/localcinema/hls/09d25094f467daf8" = false ->
             mkdir_all "/home/u/.cache/localcinema/hls/09d25094f467daf8" d = Some d' ->
             exists job st'',
               getOrStartHLS (quiet_env "h264") "/v/foo.mkv" (with_disk d st') = (Ok job, st'')
               /\ hlsJobs st'' !! foo_key = Some job
               /\ goroutines st''
                  = (goroutines (fresh_state blocked_disk)
                     ++ [{| r_job := job;
                            r_cacheDir := "/home/u/.cache/localcinema/hls/09d25094f467daf8";
                            r_key := foo_key |}])%list).
Proof.
  assert (H1 : foo_key = key_on (disk (fresh_state blocked_disk)) "/v/foo.mkv")
    by (vm_compute; reflexivity).
  assert (H2 : hlsJobs (fresh_state blocked_disk) !! foo_key = None)
    by (vm_compute; reflexivity).
  assert (H3 : complete_on (disk (fresh_state blocked_disk))
                 "/home/u/.cache/localcinema/hls/09d25094f467daf8" = false)
    by (vm_compute; reflexivity).
  assert (H4 : mkdir_all "/home/u/.cache/localcinema/hls/09d25094f467daf8"
                 (disk (fresh_state blocked_disk)) = None)
    by (vm_compute; reflexivity).
  refine (conj H1 (conj H2 (conj H3 (conj H4 _)))).
  exact (getOrStartHLS_mkdir_failure (quiet_env "h264") "/v/foo.mkv"
           (fresh_state blocked_disk) foo_key
           "/home/u/.cache/localcinema/hls/09d25094f467daf8"
           H1 ltac:(vm_compute; reflexivity) H2 H3 H4).
Defined.

(** ** The disk after [os.RemoveAll] *)

Lemma remove_all_gone dir d p :
  path_under dir p = true ->
  files (remove_all dir d) !! p = None /\ p ∉ dirs (remove_all dir d).
Proof.
  intros Hu. unfold remove_all. cbn [files dirs]. split.
  - apply map_lookup_filter_None. right. intros x _. cbn. congruence.
  - rewrite elem_of_filter. intros [Hp _]. congruence.
Qed.

Lemma remove_all_elsewhere dir d p :
  path_under dir p = false ->
  files (remove_all dir d) !! p = files d !! p.
Proof.
  intros Hu. unfold remove_all. cbn [files].
  destruct (files d !! p) as [x|] eqn:E.
  - apply map_lookup_filter_Some. split; [exact E|exact Hu].
  - apply map_lookup_filter_None. left. exact E.
Qed.

(** ** What keeps a job registered *)

Lemma TouchHLS_run key st :
  exists st',
    TouchHLS key st = (tt, st')
    /\ hlsJobs st' = hlsJobs st
    /\ heap st' = match hlsJobs st !! key with
                  | Some job => alter (set_lastAccess (now_ms st / 1000)) job (heap st)
                  | None => heap st
                  end
    /\ next_loc st' = next_loc st
    /\ hlsJobsMu st' = false
    /\ disk st' = disk st
    /\ goroutines st' = goroutines st
    /\ now_ms st' = now_ms st
    /\ trace st' = trace st.
Proof.
  unfold TouchHLS. run_m.
  destruct (hlsJobs st !! key); (eexists; split; [run_m; reflexivity|]);
    proj_st; repeat split; reflexivity.
Qed.

Lemma runner_started_jobs r pid st :
  hlsJobs (runner_started r pid st).2 = hlsJobs st.
Proof.
  unfold runner_started. run_m.
  destruct (heap st !! r_job r) as [[dir [c|] dn ca la]|]; run_m; reflexivity.
Qed.

Section ServerFacts.

Variable env : Env.

Lemma time_Sleep_jobs ms st :
  hlsJobs (time_Sleep env ms st).2 = hlsJobs st /\ heap (time_Sleep env ms st).2 = heap st.
Proof. unfold time_Sleep. run_m. split; reflexivity. Qed.

Lemma poll_m3u8_jobs n filePath : forall st,
  hlsJobs (poll_m3u8 env n filePath st).2 = hlsJobs st.
Proof.
  induction n as [|n IH]; intros st; cbn [poll_m3u8]; [reflexivity|].
  unfold ReadFile. run_m.
  destruct (m3u8_ready (os_ReadFile (disk st) filePath)); [reflexivity|].
  fold (bind (time_Sleep env 100) (fun _ => poll_m3u8 env n filePath)).
  unfold bind. destruct (time_Sleep env 100 _) as [[] st1] eqn:E.
  rewrite IH. pose proof (time_Sleep_jobs 100 (log [EvReadFile filePath] st)) as [H _].
  rewrite E in H. exact H.
Qed.

End ServerFacts.

(** ** Request paths *)

Lemma TrimPrefix_hls s : strings_TrimPrefix ("/hls/" ++ s) "/hls/" = s.
Proof. reflexivity. Qed.

Lemma append_cons c s t : String c s ++ t = String c (s ++ t).
Proof. reflexivity. Qed.

Lemma Contains_slash_app k rest : strings_Contains (k ++ "/" ++ rest) "/" = true.
Proof.
  induction k as [|c k IH].
  - reflexivity.
  - rewrite append_cons. cbn [strings_Contains]. rewrite IH. apply orb_true_r.
Qed.

Lemma cut_slash_key key rest :
  strings_Contains key "/" = false -> cut_slash (key ++ "/" ++ rest) = Some (key, rest).
Proof.
  induction key as [|c key IH]; intros H.
  - reflexivity.
  - cbn [strings_Contains] in H. apply orb_false_iff in H as [Hc Hk].
    rewrite append_cons. cbn [cut_slash].
    destruct (Ascii.eqb_spec c "/") as [->|Hne]; [discriminate Hc|].
    rewrite (IH Hk). reflexivity.
Qed.

Lemma cut_slash_any key name :
  exists a b, cut_slash (key ++ "/" ++ name) = Some (a, b)
              /\ (b = name \/ strings_Contains b "/" = true).
Proof.
  induction key as [|c key (a & b & Hcut & Hb)].
  - exists "", name. split; [reflexivity|now left].
  - rewrite append_cons. cbn [cut_slash]. destruct (Ascii.eqb c "/").
    + exists "", (key ++ "/" ++ name). split; [reflexivity|].
      right. apply Contains_slash_app.
    + rewrite Hcut. exists (String c a), b. split; [reflexivity|exact Hb].
Qed.

Lemma Contains_app_r s t sub :
  strings_Contains t sub = true -> strings_Contains (s ++ t) sub = true.
Proof.
  intros H. induction s as [|c s IH]; [exact H|].
  rewrite append_cons. cbn [strings_Contains]. rewrite IH. apply orb_true_r.
Qed.

(** C9.  A request [/hls/K/name] whose [name] contains a slash or two dots
    in a row is answered 404 before anything else happens: the state is
    unchanged, so no [lastAccess] is updated and no file is looked at, read
    or served. *)
Theorem handleHLS_rejects_traversal (env : Env) (key name : string) (st : State) :
  strings_Contains name "/" = true \/ strings_Contains name ".." = true ->
  handleHLS env ("/hls/" ++ key ++ "/" ++ name) st = (NotFound, st)
  /\ status_of NotFound = Some 404.
Proof.
  intros Hbad. split; [|reflexivity].
  unfold handleHLS. rewrite TrimPrefix_hls. unfold strings_SplitN_slash_2.
  destruct (cut_slash_any key name) as (a & b & -> & Hb).
  assert (Hrej : strings_Contains b "/" || strings_Contains b ".." = true).
  { destruct Hb as [-> | Hb].
    - destruct Hbad as [H|H]; rewrite H; [reflexivity|apply orb_true_r].
    - now rewrite Hb. }
  rewrite Hrej. reflexivity.
Qed.

Lemma handleHLS_rejects_traversal_witness :
  (strings_Contains "..%2fsecret" "/" = true \/ strings_Contains "..%2fsecret" ".." = true)
  /\ handleHLS (quiet_env "hevc") ("/hls/" ++ foo_key ++ "/" ++ "..%2fsecret") running_state
     = (NotFound, running_state)
  /\ status_of NotFound = Some 404.
Proof.
  assert (H : strings_Contains "..%2fsecret" "/" = true
              \/ strings_Contains "..%2fsecret" ".." = true) by (right; reflexivity).
  exact (conj H (handleHLS_rejects_traversal (quiet_env "hevc") foo_key "..%2fsecret"
                   running_state H)).
Defined.

(** ** Polling *)

Lemma same_memory_refl st : same_memory st st.
Proof. repeat split. Qed.

Lemma same_memory_trans st1 st2 st3 :
  same_memory st1 st2 -> same_memory st2 st3 -> same_memory st1 st3.
Proof. unfold same_memory. intuition congruence. Qed.

Section Polling.

Variable env : Env.

Lemma time_Sleep_run ms st :
  exists st',
    time_Sleep env ms st = (tt, st')
    /\ same_memory st st'
    /\ disk st' = elapse env (now_ms st) (disk st)
    /\ now_ms st' = now_ms st + ms
    /\ trace st' = (trace st ++ [EvSleep ms])%list.
Proof.
  eexists. split; [unfold time_Sleep; run_m; reflexivity|].
  unfold same_memory. proj_st. repeat split; reflexivity.
Qed.

Lemma retry_events_S look n :
  retry_events look (S n) = (look :: EvSleep 100 :: retry_events look n)%list.
Proof. reflexivity. Qed.

Lemma poll_m3u8_timeout filePath n : forall st,
  (forall i, (i < n)%nat ->
     m3u8_ready (os_ReadFile (disk_after env i (now_ms st) (disk st)) filePath) = false) ->
  exists st',
    poll_m3u8 env n filePath st = (false, st')
    /\ same_memory st st'
    /\ disk st' = disk_after env n (now_ms st) (disk st)
    /\ now_ms st' = now_ms st + 100 * Z.of_nat n
    /\ trace st' = (trace st ++ retry_events (EvReadFile filePath) n)%list.
Proof.
  induction n as [|n IH]; intros st Hno.
  - exists st. cbn [poll_m3u8 disk_after]. unfold retry_events. cbn [repeat concat].
    rewrite app_nil_r. repeat split; try reflexivity. lia.
  - cbn [poll_m3u8]. unfold ReadFile. run_m.
    pose proof (Hno 0%nat ltac:(lia)) as H0. cbn [disk_after] in H0. rewrite H0.
    destruct (time_Sleep_run 100 (log [EvReadFile filePath] st))
      as (st1 & -> & Hmem & Hdisk & Hnow & Htrace).
    revert Hdisk Hnow Htrace Hmem. unfold same_memory. proj_st.
    intros Hdisk Hnow Htrace Hmem.
    destruct (IH st1) as (st' & Hrun & Hmem' & Hdisk' & Hnow' & Htrace').
    { intros i Hi. rewrite Hnow, Hdisk. apply (Hno (S i)). lia. }
    exists st'. split; [exact Hrun|]. split.
    { eapply same_memory_trans; [exact Hmem|exact Hmem']. }
    rewrite Hdisk', Hnow', Htrace', Hnow, Hdisk, Htrace, retry_events_S.
    cbn [disk_after]. rewrite <- app_assoc. repeat split; try reflexivity. lia.
Qed.

Lemma poll_m3u8_ready filePath i : forall n st,
  (i < n)%nat ->
  m3u8_ready (os_ReadFile (disk_after env i (now_ms st) (disk st)) filePath) = true ->
  (forall j, (j < i)%nat ->
     m3u8_ready (os_ReadFile (disk_after env j (now_ms st) (disk st)) filePath) = false) ->
  exists st',
    poll_m3u8 env n filePath st = (true, st')
    /\ same_memory st st'
    /\ disk st' = disk_after env i (now_ms st) (disk st)
    /\ now_ms st' = now_ms st + 100 * Z.of_nat i
    /\ trace st' = (trace st ++ retry_events (EvReadFile filePath) i
                    ++ [EvReadFile filePath])%list.
Proof.
  induction i as [|i IH]; intros n st Hlt Hyes Hno; (destruct n as [|n]; [lia|]).
  - cbn [poll_m3u8]. unfold ReadFile. run_m. cbn [disk_after] in Hyes. rewrite Hyes.
    eexists. split; [reflexivity|]. unfold same_memory. proj_st.
    repeat split; try reflexivity. lia.
  - cbn [poll_m3u8]. unfold ReadFile. run_m.
    pose proof (Hno 0%nat ltac:(lia)) as H0. cbn [disk_after] in H0. rewrite H0.
    destruct (time_Sleep_run 100 (log [EvReadFile filePath] st))
      as (st1 & -> & Hmem & Hdisk & Hnow & Htrace).
    revert Hdisk Hnow Htrace Hmem. unfold same_memory. proj_st.
    intros Hdisk Hnow Htrace Hmem.
    destruct (IH n st1) as (st' & Hrun & Hmem' & Hdisk' & Hnow' & Htrace').
    { lia. }
    { rewrite Hnow, Hdisk. exact Hyes. }
    { intros j Hj. rewrite Hnow, Hdisk. apply (Hno (S j)). lia. }
    exists st'. split; [exact Hrun|]. split.
    { eapply same_memory_trans; [exact Hmem|exact Hmem']. }
    rewrite Hdisk', Hnow', Htrace', Hnow, Hdisk, Htrace, retry_events_S.
    cbn [disk_after]. rewrite <- !app_assoc. repeat split; try reflexivity. lia.
Qed.

End Polling.

Section PollingSegments.

Variable env : Env.

Lemma poll_ts_timeout filePath n : forall st,
  (forall i, (i < n)%nat ->
     bool_decide (is_Some (os_Stat (disk_after env i (now_ms st) (disk st)) filePath)) = false) ->
  exists st',
    poll_ts env n filePath st = (false, st')
    /\ same_memory st st'
    /\ disk st' = disk_after env n (now_ms st) (disk st)
    /\ now_ms st' = now_ms st + 100 * Z.of_nat n
    /\ trace st' = (trace st ++ retry_events (EvStat filePath) n)%list.
Proof.
  induction n as [|n IH]; intros st Hno.
  - exists st. cbn [poll_ts disk_after]. unfold retry_events. cbn [repeat concat].
    rewrite app_nil_r. repeat split; try reflexivity. lia.
  - cbn [poll_ts]. unfold Stat. run_m.
    pose proof (Hno 0%nat ltac:(lia)) as H0. cbn [disk_after] in H0. rewrite H0.
    destruct (time_Sleep_run env 100 (log [EvStat filePath] st))
      as (st1 & -> & Hmem & Hdisk & Hnow & Htrace).
    revert Hdisk Hnow Htrace Hmem. unfold same_memory. proj_st.
    intros Hdisk Hnow Htrace Hmem.
    destruct (IH st1) as (st' & Hrun & Hmem' & Hdisk' & Hnow' & Htrace').
    { intros i Hi. rewrite Hnow, Hdisk. apply (Hno (S i)). lia. }
    exists st'. split; [exact Hrun|]. split.
    { eapply same_memory_trans; [exact Hmem|exact Hmem']. }
    rewrite Hdisk', Hnow', Htrace', Hnow, Hdisk, Htrace, retry_events_S.
    cbn [disk_after]. rewrite <- app_assoc. repeat split; try reflexivity. lia.
Qed.

Lemma poll_ts_ready filePath i : forall n st,
  (i < n)%nat ->
  bool_decide (is_Some (os_Stat (disk_after env i (now_ms st) (disk st)) filePath)) = true ->
  (forall j, (j < i)%nat ->
     bool_decide (is_Some (os_Stat (disk_after env j (now_ms st) (disk st)) filePath)) = false) ->
  exists st',
    poll_ts env n filePath st = (true, st')
    /\ same_memory st st'
    /\ disk st' = disk_after env i (now_ms st) (disk st)
    /\ now_ms st' = now_ms st + 100 * Z.of_nat i
    /\ trace st' = (trace st ++ retry_events (EvStat filePath) i ++ [EvStat filePath])%list.
Proof.
  induction i as [|i IH]; intros n st Hlt Hyes Hno; (destruct n as [|n]; [lia|]).
  - cbn [poll_ts]. unfold Stat. run_m. cbn [disk_after] in Hyes. rewrite Hyes.
    eexists. split; [reflexivity|]. unfold same_memory. proj_st.
    repeat split; try reflexivity. lia.
  - cbn [poll_ts]. unfold Stat. run_m.
    pose proof (Hno 0%nat ltac:(lia)) as H0. cbn [disk_after] in H0. rewrite H0.
    destruct (time_Sleep_run env 100 (log [EvStat filePath] st))
      as (st1 & -> & Hmem & Hdisk & Hnow & Htrace).
    revert Hdisk Hnow Htrace Hmem. unfold same_memory. proj_st.
    intros Hdisk Hnow Htrace Hmem.
    destruct (IH n st1) as (st' & Hrun & Hmem' & Hdisk' & Hnow' & Htrace').
    { lia. }
    { rewrite Hnow, Hdisk. exact Hyes. }
    { intros j Hj. rewrite Hnow, Hdisk. apply (Hno (S j)). lia. }
    exists st'. split; [exact Hrun|]. split.
    { eapply same_memory_trans; [exact Hmem|exact Hmem']. }
    rewrite Hdisk', Hnow', Htrace', Hnow, Hdisk, Htrace, retry_events_S.
    cbn [disk_after]. rewrite <- !app_assoc. repeat split; try reflexivity. lia.
Qed.

(** A name that ends in [.ts] does not end in [.m3u8]. *)
Lemma ts_is_not_m3u8 fileName :
  strings_HasSuffix fileName ".ts" = true -> strings_HasSuffix fileName ".m3u8" = false.
Proof.
  unfold strings_HasSuffix. change (String.rev ".ts") with "st.".
  change (String.rev ".m3u8") with "8u3m.".
  destruct (String.rev fileName) as [|c s]; [discriminate|].
  cbn [strings_HasPrefix]. destruct (Ascii.eqb_spec "s" c) as [<-|]; [reflexivity|discriminate].
Qed.

(** [handleHLS] on a well-formed request: touch, resolve, then serve. *)
Lemma handleHLS_well_formed key fileName st :
  strings_Contains key "/" = false ->
  strings_Contains fileName "/" = false ->
  strings_Contains fileName ".." = false ->
  handleHLS env ("/hls/" ++ key ++ "/" ++ fileName) st
  = (let (hlsDir, st1) := touch_and_resolve env key st in
     match hlsDir with
     | None => (Error "转码任务不存在或已结束" StatusNotFound, st1)
     | Some hlsDir => serve_artifact env hlsDir fileName st1
     end).
Proof.
  intros Hkey Hslash Hdots. unfold handleHLS. rewrite TrimPrefix_hls.
  unfold strings_SplitN_slash_2. rewrite (cut_slash_key key fileName Hkey).
  rewrite Hslash, Hdots. cbn [orb]. unfold touch_and_resolve, bind.
  destruct (TouchHLS key st) as [[] st0]. destruct (resolve_dir env key st0) as [[d|] st1];
    reflexivity.
Qed.

End PollingSegments.

(** ** The bounded wait of [handleHLS] *)

(** The test of the loop over the playlist, in terms of the disk: the file
    reads and its text contains [.ts]. *)
Lemma m3u8_ready_true d path :
  m3u8_ready (os_ReadFile d path) = true
  <-> exists data, os_ReadFile d path = Some data
                   /\ strings_Contains (string_of_list_byte data) ".ts" = true.
Proof.
  unfold m3u8_ready. destruct (os_ReadFile d path) as [data|].
  - split; [intros H; now exists data | intros (data' & [= <-] & H); exact H].
  - split; [discriminate | intros (data' & [=] & _)].
Qed.

Lemma m3u8_ready_false d path :
  m3u8_ready (os_ReadFile d path) = false
  <-> forall data, os_ReadFile d path = Some data
                   -> strings_Contains (string_of_list_byte data) ".ts" = false.
Proof.
  unfold m3u8_ready. destruct (os_ReadFile d path) as [data|].
  - split; [intros H data' [= <-]; exact H | intros H; now apply H].
  - split; [intros _ data' [=] | reflexivity].
Qed.

(** C4.  For a request [/hls/K/name] whose name passes the check and whose
    artifact directory resolves: a name ending in [.m3u8] is polled by
    reading the playlist, every 100 ms and at most 150 times, until it
    exists and contains [.ts], that is, until [os.ReadFile] returns its
    bytes and their text contains [.ts]; a playlist that cannot be read, or
    that reads and does not contain [.ts], is not ready.  After 150 failed
    attempts (15 s) the answer is 503, otherwise the file is served with
    content type [application/vnd.apple.mpegurl] and
    [Cache-Control: no-cache].  A name ending in [.ts] is polled by
    [os.Stat], at most 300 times (30 s), with 503 on timeout and content
    type [video/mp2t] otherwise. *)
Theorem handleHLS_waits_for_artifact
    (env : Env) (key fileName : string) (st st1 : State) (hlsDir : string) :
  strings_Contains key "/" = false ->
  strings_Contains fileName "/" = false ->
  strings_Contains fileName ".." = false ->
  touch_and_resolve env key st = (Some hlsDir, st1) ->
  (strings_HasSuffix fileName ".m3u8" = true ->
   ((forall i, (i < 150)%nat ->
       forall data,
         os_ReadFile (disk_after env i (now_ms st1) (disk st1))
           (filepath_Join hlsDir fileName) = Some data ->
         strings_Contains (string_of_list_byte data) ".ts" = false) ->
    exists st',
      handleHLS env ("/hls/" ++ key ++ "/" ++ fileName) st
      = (Error "m3u8 not ready" 503, st')
      /\ now_ms st' = now_ms st1 + 15000
      /\ trace st' = (trace st1
                      ++ retry_events (EvReadFile (filepath_Join hlsDir fileName)) 150)%list)
   /\ (forall i, (i < 150)%nat ->
       (exists data,
          os_ReadFile (disk_after env i (now_ms st1) (disk st1))
            (filepath_Join hlsDir fileName) = Some data
          /\ strings_Contains (string_of_list_byte data) ".ts" = true) ->
       (forall j, (j < i)%nat ->
          forall data,
            os_ReadFile (disk_after env j (now_ms st1) (disk st1))
              (filepath_Join hlsDir fileName) = Some data ->
            strings_Contains (string_of_list_byte data) ".ts" = false) ->
       exists st',
         handleHLS env ("/hls/" ++ key ++ "/" ++ fileName) st
         = (ServeFile [("Content-Type", "application/vnd.apple.mpegurl");
                       ("Cache-Control", "no-cache")] (filepath_Join hlsDir fileName), st')
         /\ now_ms st' = now_ms st1 + 100 * Z.of_nat i
         /\ trace st' = (trace st1
                         ++ retry_events (EvReadFile (filepath_Join hlsDir fileName)) i
                         ++ [EvReadFile (filepath_Join hlsDir fileName);
                             EvServeFile (filepath_Join hlsDir fileName)])%list))
  /\ (strings_HasSuffix fileName ".ts" = true ->
      ((forall i, (i < 300)%nat ->
          os_Stat (disk_after env i (now_ms st1) (disk st1))
            (filepath_Join hlsDir fileName) = None) ->
       exists st',
         handleHLS env ("/hls/" ++ key ++ "/" ++ fileName) st
         = (Error "ts segment not ready" 503, st')
         /\ now_ms st' = now_ms st1 + 30000
         /\ trace st' = (trace st1
                         ++ retry_events (EvStat (filepath_Join hlsDir fileName)) 300)%list)
      /\ (forall i, (i < 300)%nat ->
          is_Some (os_Stat (disk_after env i (now_ms st1) (disk st1))
                     (filepath_Join hlsDir fileName)) ->
          (forall j, (j < i)%nat ->
             os_Stat (disk_after env j (now_ms st1) (disk st1))
               (filepath_Join hlsDir fileName) = None) ->
          exists st',
            handleHLS env ("/hls/" ++ key ++ "/" ++ fileName) st
            = (ServeFile [("Content-Type", "video/mp2t")] (filepath_Join hlsDir fileName), st')
            /\ now_ms st' = now_ms st1 + 100 * Z.of_nat i
            /\ trace st' = (trace st1
                            ++ retry_events (EvStat (filepath_Join hlsDir fileName)) i
                            ++ [EvStat (filepath_Join hlsDir fileName);
                                EvServeFile (filepath_Join hlsDir fileName)])%list)).
Proof.
  intros Hkey Hslash Hdots Hres.
  rewrite (handleHLS_well_formed env key fileName st Hkey Hslash Hdots), Hres.
  unfold serve_artifact. split.
  - intros Hm3u8. rewrite Hm3u8. split.
    + intros Hno.
      destruct (poll_m3u8_timeout env (filepath_Join hlsDir fileName) 150 st1)
        as (st' & Hrun & _ & _ & Hnow & Htrace).
      { intros i Hi. apply m3u8_ready_false. now apply Hno. }
      exists st'. run_m. rewrite Hrun. repeat split; [lia|exact Htrace].
    + intros i Hi Hyes Hno.
      destruct (poll_m3u8_ready env (filepath_Join hlsDir fileName) i 150 st1 Hi)
        as (st' & Hrun & _ & _ & Hnow & Htrace).
      { now apply m3u8_ready_true. }
      { intros j Hj. apply m3u8_ready_false. now apply Hno. }
      eexists. run_m. rewrite Hrun. split; [reflexivity|]. proj_st.
      rewrite Htrace, <- !app_assoc. split; [exact Hnow|reflexivity].
  - intros Hts. rewrite (ts_is_not_m3u8 fileName Hts), Hts. split.
    + intros Hno.
      destruct (poll_ts_timeout env (filepath_Join hlsDir fileName) 300 st1)
        as (st' & Hrun & _ & _ & Hnow & Htrace).
      { intros i Hi. rewrite (Hno i Hi). apply bool_decide_eq_false. intros [? [=]]. }
      exists st'. run_m. rewrite Hrun. repeat split; [lia|exact Htrace].
    + intros i Hi Hyes Hno.
      destruct (poll_ts_ready env (filepath_Join hlsDir fileName) i 300 st1 Hi)
        as (st' & Hrun & _ & _ & Hnow & Htrace).
      { now apply bool_decide_eq_true. }
      { intros j Hj. rewrite (Hno j Hj). apply bool_decide_eq_false. intros [? [=]]. }
      eexists. run_m. rewrite Hrun. split; [reflexivity|]. proj_st.
      rewrite Htrace, <- !app_assoc. split; [exact Hnow|reflexivity].
Qed.

Lemma quiet_disk_after codec i : forall t d, disk_after (quiet_env codec) i t d = d.
Proof. induction i as [|i IH]; intros t d; [reflexivity|]. cbn [disk_after]. apply IH. Qed.

Lemma handleHLS_waits_for_artifact_witness :
  strings_Contains foo_key "/" = false
  /\ strings_Contains "stream.m3u8" "/" = false
  /\ strings_Contains "stream.m3u8" ".." = false
  /\ touch_and_resolve writing_env foo_key running_state
     = (Some "/home/u/.cache/localcinema/hls/09d25094f467daf8", touched_state)
  /\ touch_and_resolve (quiet_env "hevc") foo_key running_state
     = (Some "/home/u/.cache/localcinema/hls/09d25094f467daf8", touched_state)
  /\ touch_and_resolve (quiet_env "hevc") foo_key stalled_state
     = (Some "/home/u/.cache/localcinema/hls/09d25094f467daf8", stalled_touched_state)
  /\ strings_HasSuffix "stream.m3u8" ".m3u8" = true
  /\ os_ReadFile (disk stalled_touched_state)
       (filepath_Join "/home/u/.cache/localcinema/hls/09d25094f467daf8" "stream.m3u8")
     = Some (list_byte_of_string "#EXTM3U #EXT-X-VERSION:3")
  /\ (exists st',
        handleHLS writing_env ("/hls/" ++ foo_key ++ "/" ++ "stream.m3u8") running_state
        = (ServeFile [("Content-Type", "application/vnd.apple.mpegurl");
                      ("Cache-Control", "no-cache")]
             (filepath_Join "/home/u/.cache/localcinema/hls/09d25094f467daf8" "stream.m3u8"),
           st')
        /\ now_ms st' = now_ms touched_state + 100 * Z.of_nat 3
        /\ trace st'
           = (trace touched_state
              ++ retry_events
                   (EvReadFile (filepath_Join "/home/u/.cache/localcinema/hls/09d25094f467daf8"
                                  "stream.m3u8")) 3
              ++ [EvReadFile (filepath_Join "/home/u/.cache/localcinema/hls/09d25094f467daf8"
                                "stream.m3u8");
                  EvServeFile (filepath_Join "/home/u/.cache/localcinema/hls/09d25094f467daf8"
                                 "stream.m3u8")])%list)
  /\ (exists st',
        handleHLS (quiet_env "hevc") ("/hls/" ++ foo_key ++ "/" ++ "stream.m3u8") running_state
        = (Error "m3u8 not ready" 503, st')
        /\ now_ms st' = now_ms touched_state + 15000
        /\ trace st'
           = (trace touched_state
              ++ retry_events
                   (EvReadFile (filepath_Join "/home/u/.cache/localcinema/hls/09d25094f467daf8"
                                  "stream.m3u8")) 150)%list)
  /\ (exists st',
        handleHLS (quiet_env "hevc") ("/hls/" ++ foo_key ++ "/" ++ "stream.m3u8") stalled_state
        = (Error "m3u8 not ready" 503, st')
        /\ now_ms st' = now_ms stalled_touched_state + 15000
        /\ trace st'
           = (trace stalled_touched_state
              ++ retry_events
                   (EvReadFile (filepath_Join "/home/u/.cache/localcinema/hls/09d25094f467daf8"
                                  "stream.m3u8")) 150)%list).
Proof.
  assert (H1 : strings_Contains foo_key "/" = false) by reflexivity.
  assert (H2 : strings_Contains "stream.m3u8" "/" = false) by reflexivity.
  assert (H3 : strings_Contains "stream.m3u8" ".." = false) by reflexivity.
  assert (H4 : touch_and_resolve writing_env foo_key running_state
               = (Some "/home/u/.cache/localcinema/hls/09d25094f467daf8", touched_state))
    by (vm_compute; reflexivity).
  assert (H5 : touch_and_resolve (quiet_env "hevc") foo_key running_state
               = (Some "/home/u/.cache/localcinema/hls/09d25094f467daf8", touched_state))
    by (vm_compute; reflexivity).
  assert (H5' : touch_and_resolve (quiet_env "hevc") foo_key stalled_state
                = (Some "/home/u/.cache/localcinema/hls/09d25094f467daf8",
                   stalled_touched_state))
    by (vm_compute; reflexivity).
  assert (H6 : strings_HasSuffix "stream.m3u8" ".m3u8" = true) by reflexivity.
  assert (H7 : os_ReadFile (disk stalled_touched_state)
                 (filepath_Join "/home/u/.cache/localcinema/hls/09d25094f467daf8"
                    "stream.m3u8")
               = Some (list_byte_of_string "#EXTM3U #EXT-X-VERSION:3"))
    by (vm_compute; reflexivity).
  refine (conj H1 (conj H2 (conj H3 (conj H4 (conj H5 (conj H5' (conj H6 (conj H7
            (conj _ (conj _ _)))))))))).
  - refine (proj2 (proj1 (handleHLS_waits_for_artifact writing_env foo_key "stream.m3u8"
                            running_state touched_state _ H1 H2 H3 H4) H6) 3%nat _ _ _).
    + lia.
    + eexists. split; vm_compute; reflexivity.
    + intros j Hj data Hread.
      destruct j as [|[|[|j]]]; [vm_compute in Hread; discriminate .. | lia].
  - refine (proj1 (proj1 (handleHLS_waits_for_artifact (quiet_env "hevc") foo_key
                            "stream.m3u8" running_state touched_state _ H1 H2 H3 H5) H6) _).
    intros i _ data Hread. rewrite quiet_disk_after in Hread.
    vm_compute in Hread. discriminate.
  - refine (proj1 (proj1 (handleHLS_waits_for_artifact (quiet_env "hevc") foo_key
                            "stream.m3u8" stalled_state stalled_touched_state _
                            H1 H2 H3 H5') H6) _).
    intros i _ data Hread. rewrite quiet_disk_after, H7 in Hread.
    injection Hread as <-. vm_compute. reflexivity.
Defined.

Section Registered.

Variable env : Env.

Lemma poll_ts_jobs n filePath : forall st,
  hlsJobs (poll_ts env n filePath st).2 = hlsJobs st.
Proof.
  induction n as [|n IH]; intros st; cbn [poll_ts]; [reflexivity|].
  unfold Stat. run_m.
  destruct (bool_decide (is_Some (os_Stat (disk st) filePath))); [reflexivity|].
  destruct (time_Sleep_run env 100 (log [EvStat filePath] st)) as (st1 & -> & Hmem & _).
  rewrite IH. destruct Hmem as [H _]. exact H.
Qed.

Lemma isCacheComplete_jobs dir st : hlsJobs (isCacheComplete dir st).2 = hlsJobs st.
Proof. rewrite isCacheComplete_run. reflexivity. Qed.

Lemma resolve_dir_jobs key st : hlsJobs (resolve_dir env key st).2 = hlsJobs st.
Proof.
  unfold resolve_dir. run_m. destruct (hlsJobs st !! key); [reflexivity|].
  rewrite isCacheComplete_run. run_m.
  destruct (complete_on (disk st) _); reflexivity.
Qed.

Lemma serve_artifact_jobs hlsDir fileName st :
  hlsJobs (serve_artifact env hlsDir fileName st).2 = hlsJobs st.
Proof.
  unfold serve_artifact.
  destruct (strings_HasSuffix fileName ".m3u8"); [|destruct (strings_HasSuffix fileName ".ts")].
  - run_m. pose proof (poll_m3u8_jobs env 150 (filepath_Join hlsDir fileName) st) as H.
    destruct (poll_m3u8 env 150 _ st) as [[] st1]; exact H.
  - run_m. pose proof (poll_ts_jobs 300 (filepath_Join hlsDir fileName) st) as H.
    destruct (poll_ts env 300 _ st) as [[] st1]; exact H.
  - run_m. reflexivity.
Qed.

Lemma handleHLS_jobs urlPath st : hlsJobs (handleHLS env urlPath st).2 = hlsJobs st.
Proof.
  unfold handleHLS.
  destruct (strings_SplitN_slash_2 _) as [|key [|fileName [|? ?]]]; try reflexivity.
  destruct (_ || _); [reflexivity|]. unfold bind.
  destruct (TouchHLS_run key st) as (st0 & -> & Hj0 & _).
  pose proof (resolve_dir_jobs key st0) as Hj1.
  destruct (resolve_dir env key st0) as [[hlsDir|] st1]; cbn [snd] in *.
  - rewrite serve_artifact_jobs. congruence.
  - unfold ret. cbn [snd]. congruence.
Qed.

Lemma getOrStartHLS_keeps filePath st k l :
  hlsJobs st !! k = Some l ->
  hlsJobs (getOrStartHLS env filePath st).2 !! k = Some l.
Proof.
  intros Hk.
  destruct (hlsJobs st !! key_on (disk st) filePath) as [job|] eqn:Hjob.
  { rewrite (getOrStartHLS_resident env filePath st job Hjob). exact Hk. }
  assert (Hne : key_on (disk st) filePath <> k) by congruence.
  destruct (complete_on (disk st)
              (filepath_Join (hlsCacheDir env) (key_on (disk st) filePath))) eqn:Hc.
  { destruct (getOrStartHLS_cached env filePath st _ _ eq_refl eq_refl Hjob Hc)
      as (st' & -> & Hj & _). cbn [snd]. rewrite Hj. now rewrite lookup_insert_ne. }
  destruct (mkdir_all (filepath_Join (hlsCacheDir env) (key_on (disk st) filePath)) (disk st))
    as [d'|] eqn:Hmk.
  - destruct (getOrStartHLS_starts env filePath st _ _ d' eq_refl eq_refl Hjob Hc Hmk)
      as (st' & -> & Hj & _). cbn [snd]. rewrite Hj. now rewrite lookup_insert_ne.
  - destruct (getOrStartHLS_mkdir_fails env filePath st _ _ eq_refl eq_refl Hjob Hc Hmk)
      as (st' & -> & Hj & _). cbn [snd]. now rewrite Hj.
Qed.

Lemma perform_keeps a st k l :
  hlsJobs st !! k = Some l -> hlsJobs (perform env st a) !! k = Some l.
Proof.
  intros Hk. destruct a as [filePath | key | r pid | r res | urlPath]; cbn [perform].
  - now apply getOrStartHLS_keeps.
  - destruct (TouchHLS_run key st) as (st' & -> & Hj & _). cbn [snd]. now rewrite Hj.
  - now rewrite runner_started_jobs.
  - destruct (runner_returned_run r res st) as (st' & -> & Hj & _). cbn [snd]. now rewrite Hj.
  - now rewrite handleHLS_jobs.
Qed.

Lemma perform_all_keep acts : forall st k l,
  hlsJobs st !! k = Some l -> hlsJobs (fold_left (perform env) acts st) !! k = Some l.
Proof.
  induction acts as [|a acts IH]; intros st k l Hk; [exact Hk|].
  cbn [fold_left]. apply IH. now apply perform_keeps.
Qed.

End Registered.

(** ** The end of a transcoder *)

(** C5.  When the transcoder of a job exits: with a non-zero status the
    whole directory of the job is removed from the disk and [Cached] stays
    false; with status 0 [Cached] becomes true and the disk is left alone;
    either way [Done] is closed and the job stays in the registry, under its
    key, whatever the rest of the program does, [StopHLS] and the reaper
    apart. *)
Theorem runner_exit_outcome
    (r : Runner) (code : Z) (st : State) (j : HLSJob) (key : string) :
  heap st !! r_job r = Some j ->
  Dir j = r_cacheDir r ->
  Cached j = false ->
  hlsJobs st !! key = Some (r_job r) ->
  exists st',
    runner_returned r (Exited code) st = (tt, st')
    /\ (code <> 0 ->
        (forall p, path_under (Dir j) p = true ->
                   files (disk st') !! p = None /\ p ∉ dirs (disk st'))
        /\ heap st' !! r_job r
           = Some {| Dir := Dir j; Cmd := Cmd j; Done := true; Cached := false;
                     lastAccess := lastAccess j |})
    /\ (code = 0 ->
        disk st' = disk st
        /\ heap st' !! r_job r
           = Some {| Dir := Dir j; Cmd := Cmd j; Done := true; Cached := true;
                     lastAccess := lastAccess j |})
    /\ hlsJobs st' = hlsJobs st
    /\ (forall (env : Env) (acts : list Action),
           hlsJobs (fold_left (perform env) acts st') !! key = Some (r_job r)).
Proof.
  intros Hj Hdir Hcached Hkey.
  destruct (runner_returned_run r (Exited code) st)
    as (st' & Hrun & Hjobs & Hheap & _ & _ & Hdisk & _ & _ & _).
  exists st'. split; [exact Hrun|]. split; [|split; [|split]].
  - intros Hcode.
    assert (Herr : run_error (Exited code) = true) by (destruct code; [lia|reflexivity..]).
    rewrite Herr in Hheap, Hdisk. split.
    + intros p Hp. rewrite Hdisk. apply remove_all_gone. now rewrite <- Hdir.
    + rewrite Hheap, lookup_alter_eq, Hj. cbn. unfold close_Done. now rewrite Hcached.
  - intros ->. cbn [run_error] in Hheap, Hdisk. split; [exact Hdisk|].
    rewrite Hheap, !lookup_alter_eq, Hj. reflexivity.
  - exact Hjobs.
  - intros env acts. apply perform_all_keep. now rewrite Hjobs.
Qed.

Lemma runner_exit_outcome_witness :
  heap running_state !! r_job foo_runner = Some foo_job
  /\ Dir foo_job = r_cacheDir foo_runner
  /\ Cached foo_job = false
  /\ hlsJobs running_state !! foo_key = Some (r_job foo_runner)
  /\ exists st',
      runner_returned foo_runner (Exited 1) running_state = (tt, st')
      /\ (1 <> 0 ->
          (forall p, path_under (Dir foo_job) p = true ->
                     files (disk st') !! p = None /\ p ∉ dirs (disk st'))
          /\ heap st' !! r_job foo_runner
             = Some {| Dir := Dir foo_job; Cmd := Cmd foo_job; Done := true; Cached := false;
                       lastAccess := lastAccess foo_job |})
      /\ (1 = 0 ->
          disk st' = disk running_state
          /\ heap st' !! r_job foo_runner
             = Some {| Dir := Dir foo_job; Cmd := Cmd foo_job; Done := true; Cached := true;
                       lastAccess := lastAccess foo_job |})
      /\ hlsJobs st' = hlsJobs running_state
      /\ (forall (env : Env) (acts : list Action),
             hlsJobs (fold_left (perform env) acts st') !! foo_key = Some (r_job foo_runner)).
Proof.
  assert (H1 : heap running_state !! r_job foo_runner = Some foo_job)
    by (vm_compute; reflexivity).
  assert (H2 : Dir foo_job = r_cacheDir foo_runner) by reflexivity.
  assert (H3 : Cached foo_job = false) by reflexivity.
  assert (H4 : hlsJobs running_state !! foo_key = Some (r_job foo_runner))
    by (vm_compute; reflexivity).
  exact (conj H1 (conj H2 (conj H3 (conj H4
           (runner_exit_outcome foo_runner 1 running_state foo_job foo_key H1 H2 H3 H4))))).
Defined.

(** ** Stopping a job *)

(** C6.  [StopHLS] removes the key from the registry.  It kills the process
    and removes the directory of the job exactly when the job holds a
    process handle and is not cached; otherwise, and in particular for a
    cached job, the disk is untouched, so that a later [getOrStartHLS] for
    the key adopts the complete artifact from the disk. *)
Theorem StopHLS_effect (key : string) (st : State) :
  exists st',
    StopHLS key st = (tt, st')
    /\ hlsJobs st' = delete key (hlsJobs st)
    /\ hlsJobs st' !! key = None
    /\ heap st' = heap st
    /\ (hlsJobs st !! key = None -> trace st' = trace st /\ disk st' = disk st)
    /\ (forall job j,
           hlsJobs st !! key = Some job -> heap st !! job = Some j ->
           match live_handle j, Cached j with
           | Some pid, false =>
               trace st' = (trace st ++ [EvKill pid; EvRemoveAll (Dir j)])%list
               /\ disk st' = remove_all (Dir j) (disk st)
               /\ (forall p, path_under (Dir j) p = true ->
                             files (disk st') !! p = None /\ p ∉ dirs (disk st'))
           | _, _ => trace st' = trace st /\ disk st' = disk st
           end)
    /\ (forall job j (env : Env) (filePath : string),
           hlsJobs st !! key = Some job -> heap st !! job = Some j ->
           Cached j = true ->
           key_on (disk st) filePath = key ->
           Dir j = filepath_Join (hlsCacheDir env) key ->
           complete_on (disk st) (Dir j) = true ->
           exists job' st'',
             getOrStartHLS env filePath st' = (Ok job', st'')
             /\ heap st'' !! job'
                = Some {| Dir := Dir j; Cmd := None; Done := true; Cached := true;
                          lastAccess := now_ms st / 1000 |}
             /\ goroutines st'' = goroutines st
             /\ trace st'' = (trace st
                              ++ [EvStat filePath;
                                  EvReadFile (filepath_Join (Dir j) "stream.m3u8")])%list).
Proof.
  assert (Hrun : exists st',
    StopHLS key st = (tt, st')
    /\ hlsJobs st' = delete key (hlsJobs st)
    /\ heap st' = heap st
    /\ next_loc st' = next_loc st
    /\ goroutines st' = goroutines st
    /\ now_ms st' = now_ms st
    /\ (hlsJobs st !! key = None -> trace st' = trace st /\ disk st' = disk st)
    /\ (forall job j,
           hlsJobs st !! key = Some job -> heap st !! job = Some j ->
           match live_handle j, Cached j with
           | Some pid, false =>
               trace st' = (trace st ++ [EvKill pid; EvRemoveAll (Dir j)])%list
               /\ disk st' = remove_all (Dir j) (disk st)
           | _, _ => trace st' = trace st /\ disk st' = disk st
           end)).
  { unfold StopHLS, RemoveAll. run_m.
    destruct (hlsJobs st !! key) as [job|] eqn:Hjob.
    2:{ eexists. split; [run_m; reflexivity|]. proj_st.
        rewrite delete_id by exact Hjob. repeat split; try reflexivity; discriminate. }
    run_m.
    destruct (heap st !! job) as [[dir [[path args [pid|]]|] dn [|] la]|] eqn:Hheap;
      (eexists; split; [run_m; reflexivity|]); proj_st;
      (repeat split; try reflexivity; try discriminate);
      intros job' j' [= <-] Hj'; rewrite Hheap in Hj'; try discriminate;
      injection Hj' as <-; cbn; repeat split; reflexivity. }
  destruct Hrun as (st' & Hrun & Hjobs & Hheap & Hnext & Hgo & Hnow & Hnone & Hsome).
  exists st'. split; [exact Hrun|]. split; [exact Hjobs|].
  split; [rewrite Hjobs; apply lookup_delete_eq|]. split; [exact Hheap|].
  split; [exact Hnone|]. split.
  - intros job j Hjob Hj. specialize (Hsome job j Hjob Hj).
    destruct (live_handle j) as [pid|]; [|exact Hsome].
    destruct (Cached j); [exact Hsome|].
    destruct Hsome as [Ht Hd]. repeat split; try assumption;
      rewrite Hd; now apply remove_all_gone.
  - intros job j env filePath Hjob Hj Hcached Hkey Hdir Hc.
    specialize (Hsome job j Hjob Hj). rewrite Hcached in Hsome.
    assert (Hsame : trace st' = trace st /\ disk st' = disk st)
      by (destruct (live_handle j); exact Hsome).
    destruct Hsame as [Ht Hd].
    destruct (getOrStartHLS_cached env filePath st' key (Dir j))
      as (st'' & Hrun' & _ & Hheap' & _ & _ & _ & Hgo' & _ & Htrace').
    + now rewrite Hd.
    + exact Hdir.
    + rewrite Hjobs. apply lookup_delete_eq.
    + now rewrite Hd.
    + exists (next_loc st'), st''. split; [exact Hrun'|].
      rewrite Hheap', lookup_insert_eq, Hnow, Hgo', Hgo, Htrace', Ht. repeat split.
Qed.

(** ** The scenarios of the specification, computed *)



(** A fresh transcode: the job is registered, its goroutine launched, the
    codec probed; the transcoder re-encodes a video that is not H.264. *)
Example fresh_transcode :
  (getOrStartHLS (quiet_env "hevc") "/v/foo.mkv" (fresh_state video_disk)).1 = Ok 1%positive
  /\ goroutines (getOrStartHLS (quiet_env "hevc") "/v/foo.mkv" (fresh_state video_disk)).2
     = [foo_runner]
  /\ (Args <$> (heap running_state !! 1%positive ≫= Cmd))
     = Some ["-loglevel"; "error"; "-i"; "/v/foo.mkv"; "-c:v"; "libx264"; "-preset"; "fast";
             "-b:v"; "4M"; "-force_key_frames"; "expr:gte(t,n_forced*2)";
             "-map"; "0:v:0"; "-map"; "0:a:0?"; "-c:a"; "aac"; "-ac"; "2"; "-b:a"; "128k";
             "-f"; "hls"; "-hls_time"; "6"; "-hls_list_size"; "0"; "-hls_segment_filename";
             "/home/u/.cache/localcinema/hls/09d25094f467daf8/seg%05d.ts";
             "-hls_flags"; "independent_segments";
             "/home/u/.cache/localcinema/hls/09d25094f467daf8/stream.m3u8"].
Proof. split_all; vm_compute; reflexivity. Qed.

(** Stopping a running transcode kills it and removes its directory;
    stopping a finished one touches nothing on disk. *)
Example stop_running_and_finished :
  trace (StopHLS foo_key running_state).2
  = (trace running_state
     ++ [EvKill 4242; EvRemoveAll "/home/u/.cache/localcinema/hls/09d25094f467daf8"])%list
  /\ hlsJobs (StopHLS foo_key running_state).2 !! foo_key = None
  /\ trace (StopHLS foo_key finished_state).2 = trace finished_state
  /\ disk (StopHLS foo_key finished_state).2 = disk finished_state
  /\ hlsJobs (StopHLS foo_key finished_state).2 !! foo_key = None.
Proof. split_all; vm_compute; reflexivity. Qed.

(** The reaper leaves a job alone 59 s after its last access and evicts it
    after 61 s, without a change on disk when the job is cached. *)
Example reaper_evicts_idle_job :
  hlsJobs (reaper_tick (with_now (now_ms finished_state + 59000) finished_state)).2 !! foo_key
  = Some 1%positive
  /\ hlsJobs (reaper_tick (with_now (now_ms finished_state + 61000) finished_state)).2 !! foo_key
     = None
  /\ disk (reaper_tick (with_now (now_ms finished_state + 61000) finished_state)).2
     = disk finished_state.
Proof. split_all; vm_compute; reflexivity. Qed.

(** The fingerprint is the first eight bytes of an MD5 digest, in hex. *)
Example md5_test_vectors :
  hex (MD5.Sum (list_byte_of_string "")) = "d41d8cd98f00b204e9800998ecf8427e"
  /\ hex (MD5.Sum (list_byte_of_string "abc")) = "900150983cd24fb0d6963f7d28e17f72"
  /\ key_on video_disk "/v/foo.mkv" = foo_key
  /\ String.length foo_key = 16%nat.
Proof. split_all; vm_compute; reflexivity. Qed.

(** Paths as [filepath.Ext], [filepath.Clean] and [filepath.Join] give them. *)
Example path_samples :
  filepath_Ext "/a/b.c/foo.tar.MP4" = ".MP4"
  /\ filepath_Ext "/a/b.c/foo" = ""
  /\ needsTranscode "/v/Film.MP4" = false
  /\ needsTranscode "/v/film.mkv" = true
  /\ filepath_Clean "/a/b/../c/./d//e/" = "/a/c/d/e"
  /\ filepath_Join "/home/u/.cache/localcinema/hls" foo_key
     = "/home/u/.cache/localcinema/hls/09d25094f467daf8"
  /\ parse_codec ("streams.stream.0.codec_name=" ++ quote ++ "h264" ++ quote) = "h264".
Proof. split_all; vm_compute; reflexivity. Qed.

(** Idle eviction keeps the cache: the reaper drops the adopted job from the
    registry, the playlist stays on disk, and the next call adopts it again
    without any external tool. *)
Example idle_eviction_preserves_cache :
  hlsJobs adopted_state !! foo_key = Some 1%positive
  /\ hlsJobs reaped_state !! foo_key = None
  /\ disk reaped_state = cached_disk
  /\ (getOrStartHLS (quiet_env "hevc") "/v/foo.mkv" reaped_state).1 = Ok 2%positive
  /\ ((fun j => (Cmd j, Cached j, Done j))
       <$> heap (getOrStartHLS (quiet_env "hevc") "/v/foo.mkv" reaped_state).2 !! 2%positive)
     = Some (None, true, true)
  /\ goroutines (getOrStartHLS (quiet_env "hevc") "/v/foo.mkv" reaped_state).2 = []
  /\ trace (getOrStartHLS (quiet_env "hevc") "/v/foo.mkv" reaped_state).2
     = (trace reaped_state
        ++ [EvStat "/v/foo.mkv";
            EvReadFile "/home/u/.cache/localcinema/hls/09d25094f467daf8/stream.m3u8"])%list.
Proof. split_all; vm_compute; reflexivity. Qed.

(** ** Stopping jobs and the reaper *)

(** What [StopHLS] leaves behind. *)
Lemma StopHLS_run key st :
  exists st',
    StopHLS key st = (tt, st')
    /\ hlsJobs st' = delete key (hlsJobs st)
    /\ heap st' = heap st
    /\ next_loc st' = next_loc st
    /\ hlsJobsMu st' = false
    /\ goroutines st' = goroutines st
    /\ now_ms st' = now_ms st
    /\ (hlsJobs st !! key = None -> trace st' = trace st /\ disk st' = disk st)
    /\ (forall job j,
           hlsJobs st !! key = Some job -> heap st !! job = Some j ->
           match live_handle j, Cached j with
           | Some pid, false =>
               trace st' = (trace st ++ [EvKill pid; EvRemoveAll (Dir j)])%list
               /\ disk st' = remove_all (Dir j) (disk st)
           | _, _ => trace st' = trace st /\ disk st' = disk st
           end)
    /\ (forall job, hlsJobs st !! key = Some job -> heap st !! job = None ->
           trace st' = trace st /\ disk st' = disk st).
Proof.
  unfold StopHLS, RemoveAll. run_m.
  destruct (hlsJobs st !! key) as [job|] eqn:Hjob.
  2:{ eexists. split; [run_m; reflexivity|]. proj_st.
      rewrite delete_id by exact Hjob. repeat split; try reflexivity; discriminate. }
  run_m.
  destruct (heap st !! job) as [[dir [[path args [pid|]]|] dn [|] la]|] eqn:Hheap;
    (eexists; split; [run_m; reflexivity|]); proj_st;
    (repeat split; try reflexivity; try discriminate);
    try (intros job' j' [= <-] Hj'; rewrite Hheap in Hj'; try discriminate;
         injection Hj' as <-; cbn; repeat split; reflexivity);
    try (intros job' [= <-] Hj'; rewrite Hheap in Hj'; discriminate).
  all: congruence.
Qed.

(** [StopHLS] touches no file outside the directory it removes. *)
Lemma StopHLS_disk key st p :
  (forall dir, stop_removes st key dir -> path_under dir p = false) ->
  files (disk (StopHLS key st).2) !! p = files (disk st) !! p.
Proof.
  intros Hp.
  destruct (StopHLS_run key st) as (st' & -> & _ & _ & _ & _ & _ & _ & Hnone & Hsome & Hdangling).
  cbn [snd]. destruct (hlsJobs st !! key) as [job|] eqn:Hjob.
  2:{ destruct (Hnone eq_refl) as [_ ->]. reflexivity. }
  destruct (heap st !! job) as [j|] eqn:Hj.
  2:{ destruct (Hdangling job eq_refl Hj) as [_ ->]. reflexivity. }
  specialize (Hsome job j eq_refl Hj).
  destruct (live_handle j) as [pid|] eqn:Hlive; [|destruct Hsome as [_ ->]; reflexivity].
  destruct (Cached j) eqn:Hc; [destruct Hsome as [_ ->]; reflexivity|].
  destruct Hsome as [_ ->]. apply remove_all_elsewhere, Hp.
  exists job, j, pid. repeat split; assumption.
Qed.

(** The reaper's loop over the keys it found idle. *)
Lemma stop_all_run keys : forall st,
  exists st',
    stop_all keys st = (tt, st')
    /\ (forall k, hlsJobs st' !! k = if decide (k ∈ keys) then None else hlsJobs st !! k)
    /\ heap st' = heap st
    /\ next_loc st' = next_loc st
    /\ goroutines st' = goroutines st
    /\ now_ms st' = now_ms st
    /\ (keys <> [] -> hlsJobsMu st' = false)
    /\ (forall p, (forall k dir, k ∈ keys -> stop_removes st k dir -> path_under dir p = false) ->
                  files (disk st') !! p = files (disk st) !! p).
Proof.
  induction keys as [|key keys IH]; intros st.
  - exists st. cbn [stop_all]. split; [reflexivity|]. split.
    { intros k. destruct (decide (k ∈ [])) as [H|_]; [inversion H|reflexivity]. }
    repeat split; try reflexivity. congruence.
  - cbn [stop_all]. unfold bind.
    pose proof (StopHLS_disk key st) as Hd1.
    destruct (StopHLS_run key st) as (st1 & Hrun & Hj1 & Hh1 & Hn1 & Hm1 & Hg1 & Ht1 & _).
    rewrite Hrun in *. cbn [snd] in Hd1.
    destruct (IH st1) as (st' & Hrun' & Hj' & Hh' & Hn' & Hg' & Ht' & Hm' & Hd').
    exists st'. split; [exact Hrun'|]. split.
    { intros k. rewrite Hj', Hj1.
      destruct (decide (k ∈ keys)) as [Hin|Hnin].
      - rewrite decide_True by (now right). reflexivity.
      - destruct (decide (k = key)) as [->|Hne].
        + rewrite decide_True by (now left). apply lookup_delete_eq.
        + rewrite decide_False by (rewrite elem_of_cons; tauto).
          now apply lookup_delete_ne. }
    split; [congruence|]. split; [congruence|]. split; [congruence|]. split; [congruence|].
    split.
    { intros _. destruct keys as [|k' keys'].
      - cbn [stop_all] in Hrun'. injection Hrun' as <-. exact Hm1.
      - now apply Hm'. }
    intros p Hp. rewrite Hd'.
    + apply Hd1. intros dir Hdir. apply (Hp key dir); [now left|exact Hdir].
    + intros k dir Hk (job & j & pid & Hjob & Hj & Hrest). apply (Hp k dir); [now right|].
      exists job, j, pid. split; [|split; [congruence|exact Hrest]].
      rewrite Hj1 in Hjob. apply lookup_delete_Some in Hjob. tauto.
Qed.

(** One tick of the reaper: the keys it finds idle, then [StopHLS] on each. *)
Lemma reaper_tick_keys (st : State) :
  exists keys,
    reaper_tick st = stop_all keys (with_mu false (with_mu true st))
    /\ forall k, k ∈ keys <->
         exists job, hlsJobs st !! k = Some job
                     /\ is_idle (now_ms st / 1000) (heap st !! job) = true.
Proof.
  unfold reaper_tick. run_m.
  set (idle := fun kv : string * loc => match heap st !! kv.2 with
                | Some j => (0 <? lastAccess j) && (hlsIdleTimeout <? now_ms st / 1000 - lastAccess j)
                | None => false end).
  exists (filter (fun kv => idle kv = true) (map_to_list (hlsJobs st))).*1.
  split; [reflexivity|].
  intros k. rewrite list_elem_of_fmap. split.
  - intros ([k' job] & -> & Hin). apply list_elem_of_filter in Hin as [Hidle Hin].
    apply elem_of_map_to_list in Hin. exists job. split; [exact Hin|exact Hidle].
  - intros (job & Hjob & Hidle). exists (k, job). split; [reflexivity|].
    apply list_elem_of_filter. split; [exact Hidle|]. now apply elem_of_map_to_list.
Qed.

(** The registry after a tick. *)
Lemma reaper_tick_jobs (st : State) (key : string) :
  hlsJobs (reaper_tick st).2 !! key
  = match hlsJobs st !! key with
    | Some job => if is_idle (now_ms st / 1000) (heap st !! job) then None else Some job
    | None => None
    end.
Proof.
  destruct (reaper_tick_keys st) as (keys & -> & Hkeys).
  destruct (stop_all_run keys (with_mu false (with_mu true st))) as (st' & -> & Hj & _).
  cbn [snd]. rewrite Hj. cbn [hlsJobs with_mu].
  destruct (decide (key ∈ keys)) as [Hin|Hnin].
  - apply Hkeys in Hin as (job & -> & ->). reflexivity.
  - destruct (hlsJobs st !! key) as [job|] eqn:Hjob; [|reflexivity].
    destruct (is_idle _ (heap st !! job)) eqn:Hidle; [|reflexivity].
    exfalso. apply Hnin, Hkeys. eauto.
Qed.

(** X1.  One tick of the reaper removes from the registry exactly the keys
    whose job was touched at least once and not for more than
    [hlsIdleTimeout] (60) seconds, whatever else the job is (running, failed,
    finished or adopted from the cache); every other key keeps its job.  A
    job whose [lastAccess] is 0 is never evicted.  The jobs themselves, the
    goroutines and the clock are left alone, the mutex ends released, and on
    the disk nothing changes outside the directories of the evicted jobs
    that held a started process and were not cached. *)
Theorem reaper_evicts_exactly_the_idle (st : State) :
  exists st',
    reaper_tick st = (tt, st')
    /\ (forall key,
          hlsJobs st' !! key
          = match hlsJobs st !! key with
            | Some job =>
                if is_idle (now_ms st / 1000) (heap st !! job) then None else Some job
            | None => None
            end)
    /\ heap st' = heap st
    /\ goroutines st' = goroutines st
    /\ now_ms st' = now_ms st
    /\ hlsJobsMu st' = false
    /\ (forall p,
          (forall key dir,
             is_idle (now_ms st / 1000) (hlsJobs st !! key ≫= (heap st !!.)) = true ->
             stop_removes st key dir -> path_under dir p = false) ->
          files (disk st') !! p = files (disk st) !! p).
Proof.
  destruct (reaper_tick_keys st) as (keys & Hrun & Hkeys).
  destruct (stop_all_run keys (with_mu false (with_mu true st)))
    as (st' & Hstop & Hj & Hh & _ & Hg & Ht & Hm & Hd).
  exists st'. split; [now rewrite Hrun|].
  revert Hj Hh Hg Ht Hm Hd. proj_st. intros Hj Hh Hg Ht Hm Hd.
  split.
  { intros key. rewrite Hj. destruct (decide (key ∈ keys)) as [Hin|Hnin].
    - apply Hkeys in Hin as (job & -> & ->). reflexivity.
    - destruct (hlsJobs st !! key) as [job|] eqn:Hjob; [|reflexivity].
      destruct (is_idle _ (heap st !! job)) eqn:Hidle; [|reflexivity].
      exfalso. apply Hnin, Hkeys. eauto. }
  split; [exact Hh|]. split; [exact Hg|]. split; [exact Ht|]. split.
  { destruct keys as [|k ks] eqn:Ek; [|now apply Hm].
    cbn [stop_all] in Hstop. injection Hstop as <-. reflexivity. }
  intros p Hp. apply Hd. intros k dir Hk Hdir. apply (Hp k dir); [|exact Hdir].
  apply Hkeys in Hk as (job & -> & Hidle). exact Hidle.
Qed.

(** X2.  A touch keeps a job through the reaper: after [TouchHLS] on a
    registered key, a tick of the reaper at most 60 seconds later leaves the
    key with its job; a tick 61 seconds or more later, with no touch in
    between, evicts it. *)
Theorem touched_job_outlives_the_tick (key : string) (st : State) (job : loc) (dt : Z) :
  hlsJobs st !! key = Some job ->
  0 <= dt ->
  (dt <= 60000 ->
   hlsJobs (reaper_tick (with_now (now_ms st + dt) (TouchHLS key st).2)).2 !! key = Some job)
  /\ (61000 <= dt -> 1000 <= now_ms st -> is_Some (heap st !! job) ->
      hlsJobs (reaper_tick (with_now (now_ms st + dt) (TouchHLS key st).2)).2 !! key = None).
Proof.
  intros Hjob Hdt.
  destruct (TouchHLS_run key st) as (st1 & -> & Hj1 & Hh1 & _). cbn [snd].
  rewrite reaper_tick_jobs. cbn [hlsJobs heap now_ms with_now]. rewrite Hj1, Hjob, Hh1, Hjob.
  rewrite lookup_alter_eq. unfold is_idle, hlsIdleTimeout.
  destruct (heap st !! job) as [j|]; cbn [fmap option_fmap option_map set_lastAccess lastAccess].
  2:{ split; [reflexivity|]. intros _ _ [? [=]]. }
  pose proof (Z.div_mod (now_ms st) 1000 ltac:(lia)).
  pose proof (Z.mod_pos_bound (now_ms st) 1000 ltac:(lia)).
  pose proof (Z.div_mod (now_ms st + dt) 1000 ltac:(lia)).
  pose proof (Z.mod_pos_bound (now_ms st + dt) 1000 ltac:(lia)).
  split.
  - intros Hle.
    destruct (Z.ltb_spec 60 ((now_ms st + dt) / 1000 - now_ms st / 1000)); [lia|].
    now rewrite andb_false_r.
  - intros Hge Hnow _.
    destruct (Z.ltb_spec 60 ((now_ms st + dt) / 1000 - now_ms st / 1000)); [|lia].
    destruct (Z.ltb_spec 0 (now_ms st / 1000)); [reflexivity|lia].
Qed.

Lemma touched_job_outlives_the_tick_witness :
  hlsJobs running_state !! foo_key = Some 1%positive
  /\ hlsJobs (reaper_tick (with_now (now_ms running_state + 60000)
                             (TouchHLS foo_key running_state).2)).2 !! foo_key
     = Some 1%positive
  /\ hlsJobs (reaper_tick (with_now (now_ms running_state + 61000)
                             (TouchHLS foo_key running_state).2)).2 !! foo_key
     = None.
Proof.
  assert (H : hlsJobs running_state !! foo_key = Some 1%positive) by (vm_compute; reflexivity).
  refine (conj H (conj _ _)).
  - exact (proj1 (touched_job_outlives_the_tick foo_key running_state 1%positive 60000
                    H ltac:(lia)) ltac:(lia)).
  - refine (proj2 (touched_job_outlives_the_tick foo_key running_state 1%positive 61000
                     H ltac:(lia)) ltac:(lia) _ _).
    + vm_compute. discriminate.
    + vm_compute. eauto.
Defined.

(** ** Calling [getOrStartHLS] again *)

Lemma mkdir_all_files path d d' : mkdir_all path d = Some d' -> files d' = files d.
Proof.
  unfold mkdir_all. destruct (existsb _ _); [discriminate|]. now intros [= <-].
Qed.

Lemma key_on_files d d' filePath : files d' = files d -> key_on d' filePath = key_on d filePath.
Proof. unfold key_on, os_Stat. now intros ->. Qed.

Lemma os_ReadFile_files d d' p : files d' = files d -> os_ReadFile d' p = os_ReadFile d p.
Proof. unfold os_ReadFile, os_Open. now intros ->. Qed.

(** Removing a directory cannot complete a cache. *)
Lemma complete_on_remove_all dir d dir' :
  complete_on d dir' = false -> complete_on (remove_all dir d) dir' = false.
Proof.
  unfold complete_on, os_ReadFile, os_Open. intros H.
  destruct (path_under dir (filepath_Join dir' "stream.m3u8")) eqn:Hu.
  - destruct (remove_all_gone dir d _ Hu) as [-> _]. reflexivity.
  - rewrite (remove_all_elsewhere dir d _ Hu). exact H.
Qed.

Section Again.

Variable env : Env.

(** X3.  A second call of [getOrStartHLS] for the same path, right after
    one that returned a job, returns that same job and does nothing else: no
    job is made, no goroutine launched, no directory made and no tool run;
    its only effect is the [os.Stat] that computes the key.  So calls for one
    path share one job, and at most one transcoder is launched for them. *)
Theorem getOrStartHLS_second_call_joins
    (filePath : string) (st : State) (job : loc) (st1 : State) :
  getOrStartHLS env filePath st = (Ok job, st1) ->
  exists st2,
    getOrStartHLS env filePath st1 = (Ok job, st2)
    /\ hlsJobs st2 = hlsJobs st1
    /\ heap st2 = heap st1
    /\ next_loc st2 = next_loc st1
    /\ goroutines st2 = goroutines st1
    /\ disk st2 = disk st1
    /\ trace st2 = (trace st1 ++ [EvStat filePath])%list.
Proof.
  intros Hrun.
  assert (Hres : hlsJobs st1 !! key_on (disk st1) filePath = Some job).
  { destruct (hlsJobs st !! key_on (disk st) filePath) as [job0|] eqn:Hjob.
    { rewrite (getOrStartHLS_resident env filePath st job0 Hjob) in Hrun.
      injection Hrun as <- <-. exact Hjob. }
    destruct (complete_on (disk st)
                (filepath_Join (hlsCacheDir env) (key_on (disk st) filePath))) eqn:Hc.
    { destruct (getOrStartHLS_cached env filePath st _ _ eq_refl eq_refl Hjob Hc)
        as (st' & Hrun' & Hj & _ & _ & _ & Hd & _).
      rewrite Hrun' in Hrun. injection Hrun as <- <-.
      rewrite Hd, Hj. apply lookup_insert_eq. }
    destruct (mkdir_all (filepath_Join (hlsCacheDir env) (key_on (disk st) filePath)) (disk st))
      as [d'|] eqn:Hmk.
    - destruct (getOrStartHLS_starts env filePath st _ _ d' eq_refl eq_refl Hjob Hc Hmk)
        as (st' & Hrun' & Hj & _ & _ & _ & Hd & _).
      rewrite Hrun' in Hrun. injection Hrun as <- <-.
      rewrite Hd, (key_on_files (disk st) d' filePath (mkdir_all_files _ _ _ Hmk)), Hj.
      apply lookup_insert_eq.
    - destruct (getOrStartHLS_mkdir_fails env filePath st _ _ eq_refl eq_refl Hjob Hc Hmk)
        as (st' & Hrun' & _).
      rewrite Hrun' in Hrun. discriminate. }
  rewrite (getOrStartHLS_resident env filePath st1 job Hres).
  eexists. split; [reflexivity|]. proj_st. repeat split; reflexivity.
Qed.

End Again.

Lemma getOrStartHLS_second_call_joins_witness :
  exists st2,
    getOrStartHLS (quiet_env "hevc") "/v/foo.mkv"
      (getOrStartHLS (quiet_env "hevc") "/v/foo.mkv" (fresh_state video_disk)).2
    = (Ok 1%positive, st2)
    /\ hlsJobs st2
       = hlsJobs (getOrStartHLS (quiet_env "hevc") "/v/foo.mkv" (fresh_state video_disk)).2
    /\ heap st2
       = heap (getOrStartHLS (quiet_env "hevc") "/v/foo.mkv" (fresh_state video_disk)).2
    /\ next_loc st2
       = next_loc (getOrStartHLS (quiet_env "hevc") "/v/foo.mkv" (fresh_state video_disk)).2
    /\ goroutines st2
       = goroutines (getOrStartHLS (quiet_env "hevc") "/v/foo.mkv" (fresh_state video_disk)).2
    /\ disk st2
       = disk (getOrStartHLS (quiet_env "hevc") "/v/foo.mkv" (fresh_state video_disk)).2
    /\ trace st2
       = (trace (getOrStartHLS (quiet_env "hevc") "/v/foo.mkv" (fresh_state video_disk)).2
          ++ [EvStat "/v/foo.mkv"])%list.
Proof.
  apply (getOrStartHLS_second_call_joins (quiet_env "hevc") "/v/foo.mkv"
           (fresh_state video_disk) 1%positive).
  vm_compute. reflexivity.
Defined.

(** ** A stopped job and its successor *)

Section Successor.

Variable env : Env.

(** X4.  [StopHLS] and a new admission, then the old goroutine returns.
    After [StopHLS] on a running job, the next [getOrStartHLS] for the path
    finds nothing to adopt and admits a new job for the same key and the
    same directory, with a new goroutine.  When the goroutine of the stopped
    job then returns from [cmd.Run] with its error, it removes that
    directory: whatever the new transcoder has written there by then is
    gone from the disk, while the new job stays registered, not done, with
    its goroutine still running. *)
Theorem late_exit_removes_successor_output
    (filePath : string) (st : State) (r : Runner) (j : HLSJob) (pid : Z) (key : string)
    (d' : Disk) :
  key = key_on (disk st) filePath ->
  hlsJobs st !! key = Some (r_job r) ->
  heap st !! r_job r = Some j ->
  live_handle j = Some pid ->
  Cached j = false ->
  Dir j = filepath_Join (hlsCacheDir env) key ->
  r_cacheDir r = Dir j ->
  (r_job r < next_loc st)%positive ->
  path_under (Dir j) filePath = false ->
  complete_on (disk st) (Dir j) = false ->
  mkdir_all (Dir j) (remove_all (Dir j) (disk st)) = Some d' ->
  exists st1 job2 st2,
    StopHLS key st = (tt, st1)
    /\ getOrStartHLS env filePath st1 = (Ok job2, st2)
    /\ job2 <> r_job r
    /\ goroutines st2
       = (goroutines st ++ [{| r_job := job2; r_cacheDir := Dir j; r_key := key |}])%list
    /\ forall written t,
         exists st4,
           runner_returned r Signaled (with_now t (with_disk written st2)) = (tt, st4)
           /\ (forall p, path_under (Dir j) p = true -> files (disk st4) !! p = None)
           /\ hlsJobs st4 !! key = Some job2
           /\ (fun j2 => (Dir j2, Done j2, Cached j2)) <$> heap st4 !! job2
              = Some (Dir j, false, false)
           /\ {| r_job := job2; r_cacheDir := Dir j; r_key := key |} ∈ goroutines st4.
Proof.
  intros Hkey Hjob Hj Hlive Hcached Hdir Hrdir Hlt Hout Hc Hmk.
  destruct (StopHLS_run key st)
    as (st1 & Hstop & Hj1 & Hh1 & Hn1 & _ & Hg1 & Ht1 & _ & Hsome & _).
  specialize (Hsome _ _ Hjob Hj). rewrite Hlive, Hcached in Hsome. destruct Hsome as [_ Hd1].
  assert (Hkey1 : key = key_on (disk st1) filePath).
  { rewrite Hkey, Hd1. unfold key_on, os_Stat.
    now rewrite (remove_all_elsewhere _ _ _ Hout). }
  destruct (getOrStartHLS_starts env filePath st1 key (Dir j) d')
    as (st2 & Hstart & Hj2 & Hh2 & _ & _ & Hd2 & Hg2 & _).
  { exact Hkey1. }
  { exact Hdir. }
  { rewrite Hj1. apply lookup_delete_eq. }
  { rewrite Hd1. now apply complete_on_remove_all. }
  { now rewrite Hd1. }
  assert (Hne : next_loc st1 <> r_job r) by (rewrite Hn1; lia).
  exists st1, (next_loc st1), st2. split; [exact Hstop|]. split; [exact Hstart|].
  split; [exact Hne|]. split; [now rewrite Hg2, Hg1|].
  intros written t.
  destruct (runner_returned_run r Signaled (with_now t (with_disk written st2)))
    as (st4 & Hret & Hj4 & Hh4 & _ & _ & Hd4 & Hg4 & _).
  exists st4. split; [exact Hret|]. cbn [run_error] in Hh4, Hd4.
  revert Hj4 Hh4 Hd4 Hg4. proj_st. intros Hj4 Hh4 Hd4 Hg4. split.
  { intros p Hp. rewrite Hd4, Hrdir. now apply remove_all_gone. }
  split.
  { rewrite Hj4, Hj2. apply lookup_insert_eq. }
  split.
  { rewrite Hh4, lookup_alter_ne by congruence. rewrite Hh2, lookup_insert_eq. reflexivity. }
  rewrite Hg4, Hg2. apply list_elem_of_filter. split; [exact Hne|].
  apply elem_of_app. right. now left.
Qed.

End Successor.

Lemma late_exit_removes_successor_output_witness :
  exists st1 job2 st2,
    StopHLS foo_key running_state = (tt, st1)
    /\ getOrStartHLS (quiet_env "hevc") "/v/foo.mkv" st1 = (Ok job2, st2)
    /\ job2 <> r_job foo_runner
    /\ goroutines st2
       = (goroutines running_state
          ++ [{| r_job := job2; r_cacheDir := Dir foo_job; r_key := foo_key |}])%list
    /\ forall written t,
         exists st4,
           runner_returned foo_runner Signaled (with_now t (with_disk written st2)) = (tt, st4)
           /\ (forall p, path_under (Dir foo_job) p = true -> files (disk st4) !! p = None)
           /\ hlsJobs st4 !! foo_key = Some job2
           /\ (fun j2 => (Dir j2, Done j2, Cached j2)) <$> heap st4 !! job2
              = Some (Dir foo_job, false, false)
           /\ {| r_job := job2; r_cacheDir := Dir foo_job; r_key := foo_key |}
              ∈ goroutines st4.
Proof.
  refine (late_exit_removes_successor_output (quiet_env "hevc") "/v/foo.mkv" running_state
            foo_runner foo_job 4242 foo_key
            (default (disk running_state)
               (mkdir_all (Dir foo_job) (remove_all (Dir foo_job) (disk running_state))))
            _ _ _ _ _ _ _ _ _ _ _);
    try (vm_compute; reflexivity).
Defined.

(** ** What serving an artifact does and does not do *)

Lemma only_looked_refl st : only_looked st st.
Proof.
  split; [apply same_memory_refl|]. exists []. now rewrite app_nil_r.
Qed.

Lemma only_looked_trans st1 st2 st3 :
  only_looked st1 st2 -> only_looked st2 st3 -> only_looked st1 st3.
Proof.
  intros [Hm1 (e1 & Ht1 & Hl1)] [Hm2 (e2 & Ht2 & Hl2)].
  split; [eapply same_memory_trans; eassumption|].
  exists (e1 ++ e2)%list. split; [now rewrite Ht2, Ht1, app_assoc|].
  now rewrite forallb_app, Hl1, Hl2.
Qed.

Lemma only_looked_log st e : looks_only e = true -> only_looked st (log [e] st).
Proof.
  intros He. split; [repeat split|]. exists [e]. split; [reflexivity|].
  cbn. now rewrite He.
Qed.

Section Looking.

Variable env : Env.

Lemma time_Sleep_looks ms st : only_looked st (time_Sleep env ms st).2.
Proof.
  destruct (time_Sleep_run env ms st) as (st' & -> & Hm & _ & _ & Ht). cbn [snd].
  split; [exact Hm|]. exists [EvSleep ms]. split; [exact Ht|reflexivity].
Qed.

Lemma poll_m3u8_looks n filePath : forall st, only_looked st (poll_m3u8 env n filePath st).2.
Proof.
  induction n as [|n IH]; intros st; cbn [poll_m3u8]; [apply only_looked_refl|].
  unfold ReadFile. run_m.
  destruct (m3u8_ready (os_ReadFile (disk st) filePath)).
  { now apply only_looked_log. }
  fold (bind (time_Sleep env 100) (fun _ => poll_m3u8 env n filePath)).
  unfold bind. pose proof (time_Sleep_looks 100 (log [EvReadFile filePath] st)) as Hs.
  destruct (time_Sleep env 100 _) as [[] st1]. cbn [snd] in Hs.
  eapply only_looked_trans; [now apply (only_looked_log st (EvReadFile filePath))|].
  eapply only_looked_trans; [exact Hs|apply IH].
Qed.

Lemma poll_ts_looks n filePath : forall st, only_looked st (poll_ts env n filePath st).2.
Proof.
  induction n as [|n IH]; intros st; cbn [poll_ts]; [apply only_looked_refl|].
  unfold Stat. run_m.
  destruct (bool_decide (is_Some (os_Stat (disk st) filePath))).
  { now apply only_looked_log. }
  fold (bind (time_Sleep env 100) (fun _ => poll_ts env n filePath)).
  unfold bind. pose proof (time_Sleep_looks 100 (log [EvStat filePath] st)) as Hs.
  destruct (time_Sleep env 100 _) as [[] st1]. cbn [snd] in Hs.
  eapply only_looked_trans; [now apply (only_looked_log st (EvStat filePath))|].
  eapply only_looked_trans; [exact Hs|apply IH].
Qed.

(** [serve_artifact] only looks, and answers with the file under the
    directory it was given, or with 503. *)
Lemma serve_artifact_looks hlsDir fileName st :
  only_looked st (serve_artifact env hlsDir fileName st).2
  /\ ((exists headers,
         (serve_artifact env hlsDir fileName st).1
         = ServeFile headers (filepath_Join hlsDir fileName))
      \/ exists msg,
           (serve_artifact env hlsDir fileName st).1 = Error msg StatusServiceUnavailable).
Proof.
  unfold serve_artifact.
  destruct (strings_HasSuffix fileName ".m3u8"); [|destruct (strings_HasSuffix fileName ".ts")].
  - run_m. pose proof (poll_m3u8_looks 150 (filepath_Join hlsDir fileName) st) as H.
    destruct (poll_m3u8 env 150 _ st) as [[] st1]; cbn [fst snd] in *.
    + split; [|left; eauto].
      eapply only_looked_trans; [exact H|now apply only_looked_log].
    + split; [exact H|right; eauto].
  - run_m. pose proof (poll_ts_looks 300 (filepath_Join hlsDir fileName) st) as H.
    destruct (poll_ts env 300 _ st) as [[] st1]; cbn [fst snd] in *.
    + split; [|left; eauto].
      eapply only_looked_trans; [exact H|now apply only_looked_log].
    + split; [exact H|right; eauto].
  - run_m. split; [now apply only_looked_log|left; eauto].
Qed.

Lemma resolve_dir_run key st :
  exists st',
    resolve_dir env key st
    = (match hlsJobs st !! key with
       | Some job => Dir <$> heap st !! job
       | None =>
           if complete_on (disk st) (filepath_Join (hlsCacheDir env) key)
           then Some (filepath_Join (hlsCacheDir env) key) else None
       end, st')
    /\ hlsJobs st' = hlsJobs st /\ heap st' = heap st /\ next_loc st' = next_loc st
    /\ hlsJobsMu st' = false /\ goroutines st' = goroutines st
    /\ disk st' = disk st /\ now_ms st' = now_ms st
    /\ trace st'
       = (trace st
          ++ match hlsJobs st !! key with
             | Some _ => []
             | None => [EvReadFile (filepath_Join (filepath_Join (hlsCacheDir env) key)
                                      "stream.m3u8")]
             end)%list.
Proof.
  unfold resolve_dir. run_m. destruct (hlsJobs st !! key) as [job|].
  - eexists. split; [run_m; reflexivity|]. proj_st. rewrite app_nil_r.
    repeat split; reflexivity.
  - rewrite isCacheComplete_run. run_m.
    destruct (complete_on (disk st) _); (eexists; split; [reflexivity|]); proj_st;
      repeat split; reflexivity.
Qed.

End Looking.

Section Serving.

Variable env : Env.

Lemma untouched_set_lastAccess t j : untouched (set_lastAccess t j) = untouched j.
Proof. reflexivity. Qed.

(** On a disk that nobody else writes to, polling leaves the disk alone. *)
Lemma poll_m3u8_disk n filePath :
  (forall t d, elapse env t d = d) ->
  forall st, disk (poll_m3u8 env n filePath st).2 = disk st.
Proof.
  intros Hq. induction n as [|n IH]; intros st; cbn [poll_m3u8]; [reflexivity|].
  unfold ReadFile. run_m.
  destruct (m3u8_ready (os_ReadFile (disk st) filePath)); [reflexivity|].
  destruct (time_Sleep_run env 100 (log [EvReadFile filePath] st)) as (st1 & -> & _ & Hd & _).
  rewrite IH, Hd, Hq. reflexivity.
Qed.

Lemma poll_ts_disk n filePath :
  (forall t d, elapse env t d = d) ->
  forall st, disk (poll_ts env n filePath st).2 = disk st.
Proof.
  intros Hq. induction n as [|n IH]; intros st; cbn [poll_ts]; [reflexivity|].
  unfold Stat. run_m.
  destruct (bool_decide (is_Some (os_Stat (disk st) filePath))); [reflexivity|].
  destruct (time_Sleep_run env 100 (log [EvStat filePath] st)) as (st1 & -> & _ & Hd & _).
  rewrite IH, Hd, Hq. reflexivity.
Qed.

Lemma serve_artifact_disk hlsDir fileName st :
  (forall t d, elapse env t d = d) ->
  disk (serve_artifact env hlsDir fileName st).2 = disk st.
Proof.
  intros Hq. unfold serve_artifact.
  destruct (strings_HasSuffix fileName ".m3u8"); [|destruct (strings_HasSuffix fileName ".ts")].
  - run_m. pose proof (poll_m3u8_disk 150 (filepath_Join hlsDir fileName) Hq st) as H.
    destruct (poll_m3u8 env 150 _ st) as [[] st1]; exact H.
  - run_m. pose proof (poll_ts_disk 300 (filepath_Join hlsDir fileName) Hq st) as H.
    destruct (poll_ts env 300 _ st) as [[] st1]; exact H.
  - run_m. reflexivity.
Qed.

(** X5.  Whatever the request, [handleHLS] changes nothing in memory
    but the time of last access of the job of the requested key: the
    registry and the goroutines are as before; every job is as before in
    every field but [lastAccess]; and a job is as before in [lastAccess]
    too, unless it is the job registered under the key that the request
    names, which is then the job it was with [lastAccess] set to the second
    at which the request arrived.  Outside memory it only looks and waits:
    its events are reads, stats, sleeps and the serving of a file, never a
    tool run, a process started or killed, a directory made or removed; and
    when nothing else writes to the disk while it sleeps, the disk is as
    before. *)
Theorem handleHLS_only_touches (urlPath : string) (st : State) :
  hlsJobs (handleHLS env urlPath st).2 = hlsJobs st
  /\ goroutines (handleHLS env urlPath st).2 = goroutines st
  /\ next_loc (handleHLS env urlPath st).2 = next_loc st
  /\ (forall l, untouched <$> heap (handleHLS env urlPath st).2 !! l
                = untouched <$> heap st !! l)
  /\ (forall l,
        heap (handleHLS env urlPath st).2 !! l = heap st !! l
        \/ exists key fileName,
             strings_SplitN_slash_2 (strings_TrimPrefix urlPath "/hls/") = [key; fileName]
             /\ hlsJobs st !! key = Some l
             /\ heap (handleHLS env urlPath st).2 !! l
                = set_lastAccess (now_ms st / 1000) <$> heap st !! l)
  /\ (exists evs, trace (handleHLS env urlPath st).2 = (trace st ++ evs)%list
                  /\ forallb looks_only evs = true)
  /\ ((forall t d, elapse env t d = d) -> disk (handleHLS env urlPath st).2 = disk st).
Proof.
  assert (Hsame : forall r : Response,
    handleHLS env urlPath st = (r, st) ->
    hlsJobs (handleHLS env urlPath st).2 = hlsJobs st
    /\ goroutines (handleHLS env urlPath st).2 = goroutines st
    /\ next_loc (handleHLS env urlPath st).2 = next_loc st
    /\ (forall l, untouched <$> heap (handleHLS env urlPath st).2 !! l
                  = untouched <$> heap st !! l)
    /\ (forall l,
          heap (handleHLS env urlPath st).2 !! l = heap st !! l
          \/ exists key fileName,
               strings_SplitN_slash_2 (strings_TrimPrefix urlPath "/hls/") = [key; fileName]
               /\ hlsJobs st !! key = Some l
               /\ heap (handleHLS env urlPath st).2 !! l
                  = set_lastAccess (now_ms st / 1000) <$> heap st !! l)
    /\ (exists evs, trace (handleHLS env urlPath st).2 = (trace st ++ evs)%list
                    /\ forallb looks_only evs = true)
    /\ ((forall t d, elapse env t d = d) -> disk (handleHLS env urlPath st).2 = disk st)).
  { intros r ->. cbn [snd]. split_all; try reflexivity.
    - intros l. now left.
    - exists []. now rewrite app_nil_r. }
  destruct (strings_SplitN_slash_2 (strings_TrimPrefix urlPath "/hls/"))
    as [|key [|fileName [|? ?]]] eqn:Hsplit;
    try (eapply Hsame; unfold handleHLS; rewrite Hsplit; reflexivity).
  destruct (strings_Contains fileName "/" || strings_Contains fileName "..") eqn:Hbad.
  { eapply Hsame. unfold handleHLS. rewrite Hsplit, Hbad. reflexivity. }
  clear Hsame.
  assert (Hrun : handleHLS env urlPath st
                 = (let (hlsDir, st1) := touch_and_resolve env key st in
                    match hlsDir with
                    | None => (Error "转码任务不存在或已结束" StatusNotFound, st1)
                    | Some hlsDir => serve_artifact env hlsDir fileName st1
                    end)).
  { unfold handleHLS. rewrite Hsplit, Hbad. unfold touch_and_resolve, bind.
    destruct (TouchHLS key st) as [[] st0].
    destruct (resolve_dir env key st0) as [[d|] st1]; reflexivity. }
  rewrite Hrun. clear Hrun. unfold touch_and_resolve, bind.
  destruct (TouchHLS_run key st)
    as (st0 & -> & Hj0 & Hh0 & Hn0 & _ & Hd0 & Hg0 & _ & Ht0).
  destruct (resolve_dir_run env key st0)
    as (st1 & -> & Hj1 & Hh1 & Hn1 & _ & Hg1 & Hd1 & _ & Ht1).
  assert (Hheap : forall l, untouched <$> heap st1 !! l = untouched <$> heap st !! l).
  { intros l. rewrite Hh1, Hh0. destruct (hlsJobs st !! key) as [job|]; [|reflexivity].
    destruct (decide (l = job)) as [->|Hne].
    - rewrite lookup_alter_eq. now destruct (heap st !! job).
    - now rewrite lookup_alter_ne. }
  assert (Hstamp : forall l,
            heap st1 !! l = heap st !! l
            \/ exists key' fileName',
                 [key; fileName] = [key'; fileName']
                 /\ hlsJobs st !! key' = Some l
                 /\ heap st1 !! l = set_lastAccess (now_ms st / 1000) <$> heap st !! l).
  { intros l. rewrite Hh1, Hh0. destruct (hlsJobs st !! key) as [job|] eqn:Hjob; [|now left].
    destruct (decide (l = job)) as [->|Hne].
    - right. exists key, fileName. split; [reflexivity|]. split; [exact Hjob|].
      apply lookup_alter_eq.
    - left. now rewrite lookup_alter_ne. }
  assert (Hlook1 : exists evs, trace st1 = (trace st ++ evs)%list
                               /\ forallb looks_only evs = true).
  { rewrite Ht1, Ht0. eexists. split; [reflexivity|].
    now destruct (hlsJobs st0 !! key). }
  set (dir := match hlsJobs st0 !! key with Some job => Dir <$> heap st0 !! job | None => _ end).
  destruct dir as [hlsDir|]; cbn [snd].
  2:{ split_all; first [congruence | exact Hlook1 | exact Hheap | exact Hstamp]. }
  destruct (serve_artifact_looks env hlsDir fileName st1)
    as [[(Hj2 & Hh2 & Hn2 & _ & Hg2) (e2 & Ht2 & Hl2)] _].
  split; [congruence|]. split; [congruence|]. split; [congruence|].
  split; [intros l; rewrite Hh2; apply Hheap|].
  split; [intros l; rewrite Hh2; apply Hstamp|]. split.
  - destruct Hlook1 as (e1 & Ht1' & Hl1). exists (e1 ++ e2)%list.
    split; [now rewrite Ht2, Ht1', app_assoc|]. now rewrite forallb_app, Hl1, Hl2.
  - intros Hq. rewrite (serve_artifact_disk hlsDir fileName st1 Hq). congruence.
Qed.

(** X6.  How [handleHLS] resolves a well-formed request
    [/hls/key/name].  With a job registered under the key, the answer is the
    file [name] under the directory of that job, or 503 after the wait;
    never 404.  With no job registered but a complete playlist in the cache
    directory of the key, the answer is the file under that directory, or
    503, and the key stays unregistered: the handler adopts nothing.  With
    neither, the answer is 404 at once: the handler has read the playlist
    path once and has not slept. *)
Theorem handleHLS_resolution (key fileName : string) (st : State) :
  strings_Contains key "/" = false ->
  strings_Contains fileName "/" = false ->
  strings_Contains fileName ".." = false ->
  (forall l, hlsJobs st !! key = Some l -> is_Some (heap st !! l)) ->
  let answer := (handleHLS env ("/hls/" ++ key ++ "/" ++ fileName) st).1 in
  let st' := (handleHLS env ("/hls/" ++ key ++ "/" ++ fileName) st).2 in
  let cacheDir := filepath_Join (hlsCacheDir env) key in
  match hlsJobs st !! key with
  | Some job =>
      exists j, heap st !! job = Some j
      /\ ((exists headers, answer = ServeFile headers (filepath_Join (Dir j) fileName))
          \/ exists msg, answer = Error msg StatusServiceUnavailable)
  | None =>
      hlsJobs st' !! key = None
      /\ if complete_on (disk st) cacheDir
         then (exists headers, answer = ServeFile headers (filepath_Join cacheDir fileName))
              \/ exists msg, answer = Error msg StatusServiceUnavailable
         else answer = Error "转码任务不存在或已结束" StatusNotFound
              /\ now_ms st' = now_ms st
              /\ disk st' = disk st
              /\ trace st' = (trace st ++ [EvReadFile (filepath_Join cacheDir "stream.m3u8")])%list
  end.
Proof.
  intros Hkey Hslash Hdots Halloc answer st' cacheDir. subst answer st'.
  pose proof (handleHLS_jobs env ("/hls/" ++ key ++ "/" ++ fileName) st) as Hjobs.
  rewrite (handleHLS_well_formed env key fileName st Hkey Hslash Hdots) in *.
  unfold touch_and_resolve, bind in *.
  destruct (TouchHLS_run key st)
    as (st0 & Htouch & Hj0 & Hh0 & _ & _ & Hd0 & _ & Hn0 & Ht0).
  rewrite Htouch in *.
  destruct (resolve_dir_run env key st0)
    as (st1 & Hres & Hj1 & Hh1 & _ & _ & _ & Hd1 & Hn1 & Ht1).
  rewrite Hres in *. rewrite Hj0 in *.
  destruct (hlsJobs st !! key) as [job|] eqn:Hjob.
  - destruct (Halloc job eq_refl) as [j Hj]. exists j. split; [exact Hj|].
    rewrite Hh0, lookup_alter_eq, Hj. cbn [fmap option_fmap option_map set_lastAccess Dir].
    apply (serve_artifact_looks env (Dir j) fileName st1).
  - split; [now rewrite Hjobs|]. rewrite Hd0. fold cacheDir.
    destruct (complete_on (disk st) cacheDir).
    + apply (serve_artifact_looks env cacheDir fileName st1).
    + cbn [fst snd]. rewrite Hn1, Hn0, Hd1, Hd0, Ht1, Ht0. repeat split; reflexivity.
Qed.

End Serving.

Lemma handleHLS_resolution_witness :
  (exists j, heap running_state !! 1%positive = Some j
     /\ ((exists headers,
            (handleHLS writing_env ("/hls/" ++ foo_key ++ "/" ++ "stream.m3u8")
               running_state).1
            = ServeFile headers (filepath_Join (Dir j) "stream.m3u8"))
         \/ exists msg,
              (handleHLS writing_env ("/hls/" ++ foo_key ++ "/" ++ "stream.m3u8")
                 running_state).1
              = Error msg StatusServiceUnavailable))
  /\ (handleHLS writing_env ("/hls/" ++ "0000000000000000" ++ "/" ++ "stream.m3u8")
        running_state).1
     = Error "转码任务不存在或已结束" StatusNotFound.
Proof.
  assert (E1 : hlsJobs running_state !! foo_key = @Some loc 1%positive)
    by (vm_compute; reflexivity).
  assert (E2 : hlsJobs running_state !! "0000000000000000" = @None loc)
    by (vm_compute; reflexivity).
  assert (E3 : complete_on (disk running_state)
                 (filepath_Join (hlsCacheDir writing_env) "0000000000000000") = false)
    by (vm_compute; reflexivity).
  split.
  - pose proof (handleHLS_resolution writing_env foo_key "stream.m3u8" running_state
                  eq_refl eq_refl eq_refl) as H.
    cbv zeta in H. rewrite E1 in H. apply H.
    intros l [= <-]. vm_compute. eauto.
  - pose proof (handleHLS_resolution writing_env "0000000000000000" "stream.m3u8"
                  running_state eq_refl eq_refl eq_refl) as H.
    cbv zeta in H. rewrite E2, E3 in H. apply H. intros l [=].
Defined.

(** ** What holds of the registry throughout *)

Lemma registry_ok_start env d : registry_ok env (fresh_state d).
Proof.
  unfold registry_ok, fresh_state. cbn [hlsJobs heap next_loc goroutines]. split_all.
  - intros key l H. now rewrite lookup_empty in H.
  - intros l [j H]. now rewrite lookup_empty in H.
  - intros r H. inversion H.
  - constructor.
Qed.

(** A step that makes no job, registers none and launches no goroutine, and
    that leaves the directory of every job, and the command and the flags of
    the jobs of the goroutines that remain, keeps [registry_ok]. *)
Lemma registry_ok_frame env st st' :
  registry_ok env st ->
  (forall k l, hlsJobs st' !! k = Some l -> hlsJobs st !! k = Some l) ->
  (forall l, is_Some (heap st' !! l) <-> is_Some (heap st !! l)) ->
  (forall l j j', heap st !! l = Some j -> heap st' !! l = Some j' -> Dir j' = Dir j) ->
  next_loc st' = next_loc st ->
  goroutines st' `sublist_of` goroutines st ->
  (forall r j j', r ∈ goroutines st' -> heap st !! r_job r = Some j ->
                  heap st' !! r_job r = Some j' ->
                  (is_Some (Cmd j) -> is_Some (Cmd j'))
                  /\ Cached j' = Cached j /\ Done j' = Done j) ->
  registry_ok env st'.
Proof.
  intros (Hreg & Hfresh & Hrun & Hnd) Hjobs Hdom Hdir Hnext Hsub Hkeep.
  unfold registry_ok. split_all.
  - intros key l Hl. destruct (Hreg key l (Hjobs _ _ Hl)) as (j & Hj & Hd).
    destruct (proj2 (Hdom l) (mk_is_Some _ _ Hj)) as [j' Hj'].
    exists j'. split; [exact Hj'|]. rewrite <- Hd. eapply Hdir; eassumption.
  - intros l Hl. rewrite Hnext. apply Hfresh, Hdom, Hl.
  - intros r Hr. pose proof (elem_of_sublist _ _ _ Hr Hsub) as Hr0.
    destruct (Hrun r Hr0) as (Hcd & j & Hj & Hd & Hcmd & Hca & Hdn).
    split; [exact Hcd|].
    destruct (proj2 (Hdom (r_job r)) (mk_is_Some _ _ Hj)) as [j' Hj'].
    destruct (Hkeep r j j' Hr Hj Hj') as (Hc1 & Hc2 & Hc3).
    exists j'. split; [exact Hj'|]. split; [rewrite <- Hd; eapply Hdir; eassumption|].
    split; [now apply Hc1|]. split; congruence.
  - eapply sublist_NoDup; [exact Hnd|]. now apply fmap_sublist.
Qed.

(** The same, for a step that alters one job by a function that keeps its
    directory, its command and its flags. *)
Lemma registry_ok_alter env st st' (f : HLSJob -> HLSJob) (l : loc) :
  registry_ok env st ->
  (forall j, Dir (f j) = Dir j /\ (is_Some (Cmd j) -> is_Some (Cmd (f j)))
             /\ Cached (f j) = Cached j /\ Done (f j) = Done j) ->
  hlsJobs st' = hlsJobs st ->
  heap st' = alter f l (heap st) ->
  next_loc st' = next_loc st ->
  goroutines st' = goroutines st ->
  registry_ok env st'.
Proof.
  intros Hok Hf Hj Hh Hn Hg. apply (registry_ok_frame env st st' Hok).
  - intros k l'. now rewrite Hj.
  - intros l'. rewrite Hh. apply lookup_alter_is_Some.
  - intros l' j j' H1. rewrite Hh. destruct (decide (l = l')) as [<-|Hne].
    + rewrite lookup_alter_eq, H1. intros [= <-]. apply Hf.
    + rewrite lookup_alter_ne by exact Hne. rewrite H1. now intros [= <-].
  - exact Hn.
  - now rewrite Hg.
  - intros r j j' _ H1. rewrite Hh. destruct (decide (l = r_job r)) as [E|Hne].
    + rewrite E, lookup_alter_eq, H1. intros [= <-]. apply Hf.
    + rewrite lookup_alter_ne by exact Hne. rewrite H1. intros [= <-]. tauto.
Qed.

(** The same, for a step that leaves the memory as it is. *)
Lemma registry_ok_same env st st' :
  registry_ok env st ->
  hlsJobs st' = hlsJobs st -> heap st' = heap st -> next_loc st' = next_loc st ->
  goroutines st' = goroutines st ->
  registry_ok env st'.
Proof.
  intros Hok Hj Hh Hn Hg. unfold registry_ok in *. now rewrite Hj, Hh, Hn, Hg.
Qed.

Lemma runner_started_run r pid st :
  exists st',
    runner_started r pid st = (tt, st')
    /\ hlsJobs st' = hlsJobs st
    /\ (heap st' = heap st \/ heap st' = alter (set_Process pid) (r_job r) (heap st))
    /\ next_loc st' = next_loc st
    /\ goroutines st' = goroutines st.
Proof.
  unfold runner_started. run_m.
  destruct (heap st !! r_job r) as [[dir [c|] dn ca la]|];
    (eexists; split; [run_m; reflexivity|]); proj_st; repeat split; auto.
Qed.

Section Invariant.

Variable env : Env.

Lemma registry_ok_getOrStartHLS filePath st :
  registry_ok env st -> registry_ok env (getOrStartHLS env filePath st).2.
Proof.
  intros Hok.
  destruct (hlsJobs st !! key_on (disk st) filePath) as [job|] eqn:Hjob.
  { rewrite (getOrStartHLS_resident env filePath st job Hjob). cbn [snd].
    now apply (registry_ok_same env st). }
  set (key := key_on (disk st) filePath) in *.
  set (cacheDir := filepath_Join (hlsCacheDir env) key).
  destruct Hok as (Hreg & Hfresh & Hrun & Hnd).
  assert (Hnew : heap st !! next_loc st = None).
  { destruct (heap st !! next_loc st) as [j|] eqn:E; [|reflexivity].
    pose proof (Hfresh _ (mk_is_Some _ _ E)). lia. }
  assert (Hold : forall l, is_Some (heap st !! l) -> l <> next_loc st).
  { intros l Hl ->. rewrite Hnew in Hl. now destruct Hl. }
  destruct (complete_on (disk st) cacheDir) eqn:Hc.
  { destruct (getOrStartHLS_cached env filePath st key cacheDir eq_refl eq_refl Hjob Hc)
      as (st' & -> & Hj & Hh & Hn & _ & _ & Hg & _). cbn [snd].
    unfold registry_ok. rewrite Hj, Hh, Hn, Hg. split_all.
    - intros k l. destruct (decide (k = key)) as [->|Hne].
      + rewrite lookup_insert_eq. intros [= <-]. rewrite lookup_insert_eq. eauto.
      + rewrite lookup_insert_ne by congruence. intros Hl.
        destruct (Hreg k l Hl) as (j & Hjl & Hd).
        rewrite lookup_insert_ne by (apply not_eq_sym, Hold; eauto). eauto.
    - intros l. destruct (decide (l = next_loc st)) as [->|Hne]; [lia|].
      rewrite lookup_insert_ne by congruence. intros Hl. pose proof (Hfresh l Hl). lia.
    - intros r Hr. destruct (Hrun r Hr) as (Hcd & j & Hjr & Hrest).
      split; [exact Hcd|]. exists j.
      rewrite lookup_insert_ne by (apply not_eq_sym, Hold; eauto). split; assumption.
    - exact Hnd. }
  destruct (mkdir_all cacheDir (disk st)) as [d'|] eqn:Hmk.
  2:{ destruct (getOrStartHLS_mkdir_fails env filePath st key cacheDir eq_refl eq_refl
                  Hjob Hc Hmk) as (st' & -> & Hj & Hh & Hn & _ & _ & Hg & _).
      cbn [snd]. apply (registry_ok_same env st); try assumption.
      unfold registry_ok; tauto. }
  destruct (getOrStartHLS_starts env filePath st key cacheDir d' eq_refl eq_refl Hjob Hc Hmk)
    as (st' & -> & Hj & Hh & Hn & _ & _ & Hg & _). cbn [snd].
  unfold registry_ok. rewrite Hj, Hh, Hn, Hg. split_all.
  - intros k l. destruct (decide (k = key)) as [->|Hne].
    + rewrite lookup_insert_eq. intros [= <-]. rewrite lookup_insert_eq. eauto.
    + rewrite lookup_insert_ne by congruence. intros Hl.
      destruct (Hreg k l Hl) as (j & Hjl & Hd).
      rewrite lookup_insert_ne by (apply not_eq_sym, Hold; eauto). eauto.
  - intros l. destruct (decide (l = next_loc st)) as [->|Hne]; [lia|].
    rewrite lookup_insert_ne by congruence. intros Hl. pose proof (Hfresh l Hl). lia.
  - intros r Hr. apply elem_of_app in Hr as [Hr|Hr].
    + destruct (Hrun r Hr) as (Hcd & j & Hjr & Hrest).
      split; [exact Hcd|]. exists j.
      rewrite lookup_insert_ne by (apply not_eq_sym, Hold; eauto). split; assumption.
    + apply list_elem_of_singleton in Hr as ->. cbn [r_job r_cacheDir r_key].
      split; [reflexivity|]. eexists. rewrite lookup_insert_eq. split; [reflexivity|].
      cbn [Dir Cmd Cached Done]. repeat split; eauto.
  - rewrite fmap_app. apply NoDup_app. split; [exact Hnd|]. split.
    + intros l Hl. cbn. intros Hin. apply list_elem_of_singleton in Hin as ->.
      apply list_elem_of_fmap in Hl as (r & Hr & Hin).
      destruct (Hrun r Hin) as (_ & j & Hjr & _).
      apply (Hold (r_job r)); eauto.
    + cbn. apply NoDup_singleton.
Qed.

End Invariant.

Section Steps.

Variable env : Env.

(** The memory after [handleHLS]: at most one job has been touched. *)
Lemma handleHLS_memory urlPath st :
  hlsJobs (handleHLS env urlPath st).2 = hlsJobs st
  /\ (heap (handleHLS env urlPath st).2 = heap st
      \/ exists t l, heap (handleHLS env urlPath st).2 = alter (set_lastAccess t) l (heap st))
  /\ next_loc (handleHLS env urlPath st).2 = next_loc st
  /\ goroutines (handleHLS env urlPath st).2 = goroutines st.
Proof.
  split; [apply handleHLS_jobs|]. unfold handleHLS.
  destruct (strings_SplitN_slash_2 _) as [|key [|fileName [|? ?]]]; try (cbn; tauto).
  destruct (_ || _); [cbn; tauto|]. unfold bind.
  destruct (TouchHLS_run key st) as (st0 & -> & _ & Hh0 & Hn0 & _ & _ & Hg0 & _).
  destruct (resolve_dir_run env key st0) as (st1 & -> & _ & Hh1 & Hn1 & _ & Hg1 & _).
  assert (Hh : heap st1 = heap st
               \/ exists t l, heap st1 = alter (set_lastAccess t) l (heap st)).
  { rewrite Hh1, Hh0. destruct (hlsJobs st !! key); eauto. }
  set (dir := match hlsJobs st0 !! key with Some job => Dir <$> heap st0 !! job | None => _ end).
  destruct dir as [hlsDir|]; unfold ret; cbn [snd].
  2:{ split; [exact Hh|]. split; congruence. }
  destruct (serve_artifact_looks env hlsDir fileName st1)
    as [[(_ & Hh2 & Hn2 & _ & Hg2) _] _].
  rewrite Hh2, Hn2, Hg2. split; [exact Hh|]. split; congruence.
Qed.

Lemma registry_ok_perform a st : registry_ok env st -> registry_ok env (perform env st a).
Proof.
  intros Hok. destruct a as [filePath | key | r pid | r res | urlPath]; cbn [perform].
  - now apply registry_ok_getOrStartHLS.
  - destruct (TouchHLS_run key st) as (st' & -> & Hj & Hh & Hn & _ & _ & Hg & _). cbn [snd].
    destruct (hlsJobs st !! key) as [job|].
    + apply (registry_ok_alter env st st' (set_lastAccess (now_ms st / 1000)) job);
        try assumption. intros j. cbn. tauto.
    + now apply (registry_ok_same env st).
  - destruct (runner_started_run r pid st) as (st' & -> & Hj & [Hh|Hh] & Hn & Hg). 
    + cbn [snd]. now apply (registry_ok_same env st).
    + cbn [snd]. apply (registry_ok_alter env st st' (set_Process pid) (r_job r));
        try assumption.
      intros j. cbn. split; [reflexivity|]. split; [|tauto].
      intros [c Hc]. rewrite Hc. cbn. eauto.
  - destruct (runner_returned_run r res st)
      as (st' & -> & Hj & Hh & Hn & _ & _ & Hg & _). cbn [snd].
    assert (Hlook : forall l, heap st' !! l
              = (if decide (l = r_job r)
                 then (fun j => close_Done (if run_error res then j else set_Cached j))
                        <$> heap st !! l
                 else heap st !! l)).
    { intros l. rewrite Hh. destruct (decide (l = r_job r)) as [->|Hne].
      - rewrite lookup_alter_eq. destruct (run_error res); [reflexivity|].
        rewrite lookup_alter_eq. now destruct (heap st !! r_job r).
      - rewrite lookup_alter_ne by congruence. destruct (run_error res); [reflexivity|].
        now rewrite lookup_alter_ne by congruence. }
    apply (registry_ok_frame env st st' Hok).
    + intros k l. now rewrite Hj.
    + intros l. rewrite Hlook. destruct (decide (l = r_job r)); [|reflexivity].
      apply fmap_is_Some.
    + intros l j j' H1. rewrite Hlook, H1. destruct (decide (l = r_job r)).
      * intros [= <-]. now destruct (run_error res).
      * now intros [= <-].
    + exact Hn.
    + rewrite Hg. apply sublist_filter.
    + intros r' j j' Hr' H1. rewrite Hlook, H1. rewrite Hg in Hr'.
      apply list_elem_of_filter in Hr' as [Hne _].
      rewrite decide_False by exact Hne. intros [= <-]. tauto.
  - destruct (handleHLS_memory urlPath st) as (Hj & [Hh|(t & l & Hh)] & Hn & Hg).
    + now apply (registry_ok_same env st).
    + apply (registry_ok_alter env st _ (set_lastAccess t) l); try assumption.
      intros j. cbn. tauto.
Qed.

Lemma registry_ok_step s st : registry_ok env st -> registry_ok env (run_step env st s).
Proof.
  intros Hok. destruct s as [a | key | | d t]; cbn [run_step].
  - now apply registry_ok_perform.
  - destruct (StopHLS_run key st) as (st' & -> & Hj & Hh & Hn & _ & Hg & _). cbn [snd].
    apply (registry_ok_frame env st st' Hok); rewrite ?Hh, ?Hn, ?Hg; try reflexivity.
    + intros k l. rewrite Hj. intros H. apply lookup_delete_Some in H. tauto.
    + intros l j j' H1 H2. congruence.
    + intros r j j' _ H1 H2. assert (j' = j) as -> by congruence. tauto.
  - destruct (reaper_tick_keys st) as (keys & Hrun & _). rewrite Hrun.
    destruct (stop_all_run keys (with_mu false (with_mu true st)))
      as (st' & -> & Hj & Hh & Hn & Hg & _). cbn [snd].
    revert Hj Hh Hn Hg. proj_st. intros Hj Hh Hn Hg.
    apply (registry_ok_frame env st st' Hok); rewrite ?Hh, ?Hn, ?Hg; try reflexivity.
    + intros k l. rewrite Hj. now destruct (decide (k ∈ keys)).
    + intros l j j' H1 H2. congruence.
    + intros r j j' _ H1 H2. assert (j' = j) as -> by congruence. tauto.
  - now apply (registry_ok_same env st).
Qed.

(** X7.  In every state the process can reach from its start, by
    calls of [getOrStartHLS], touches, the two halves of the transcoder
    goroutines, requests to [handleHLS], [StopHLS], ticks of the reaper and
    whatever happens to the disk and the clock meanwhile: every registered
    job exists and its directory is the cache directory of its key; the job
    of every running goroutine exists, writes to the cache directory of the
    goroutine's key, has a command and is neither cached nor done; and no
    two goroutines share a job. *)
Theorem reachable_registry_ok (st : State) : reachable env st -> registry_ok env st.
Proof.
  induction 1 as [d | st s _ IH].
  - apply registry_ok_start.
  - now apply registry_ok_step.
Qed.

End Steps.

Lemma reachable_registry_ok_witness : registry_ok (quiet_env "hevc") running_state.
Proof.
  apply (reachable_registry_ok (quiet_env "hevc") running_state).
  apply (reach_step (quiet_env "hevc")
           (run_step (quiet_env "hevc") (fresh_state video_disk)
              (StepAction (ActGetOrStart "/v/foo.mkv")))
           (StepAction (ActStarted foo_runner 4242))).
  apply (reach_step (quiet_env "hevc") (fresh_state video_disk)
           (StepAction (ActGetOrStart "/v/foo.mkv"))).
  apply reach_start.
Defined.

(** ** The shape of a key *)

Lemma le_bytes_length n v : length (MD5.le_bytes n v) = n.
Proof. unfold MD5.le_bytes. now rewrite length_map, length_seq. Qed.

Lemma MD5_Sum_length data : length (MD5.Sum data) = 16%nat.
Proof.
  unfold MD5.Sum. destruct (MD5.blocks _ _ _) as [[[a b] c] d].
  now rewrite !length_app, !le_bytes_length.
Qed.

Lemma hex_length b : String.length (hex b) = (2 * length b)%nat.
Proof. induction b as [|x b IH]; cbn [hex String.length length]; [reflexivity|lia]. Qed.

Lemma hex_digit_is_hex n :
  0 <= n < 16 ->
  existsb (Ascii.eqb (hex_digit n)) (list_ascii_of_string "0123456789abcdef") = true.
Proof.
  intros Hn. assert (H : exists k, (k < 16)%nat /\ n = Z.of_nat k).
  { exists (Z.to_nat n). lia. }
  destruct H as (k & Hk & ->). unfold hex_digit. rewrite Nat2Z.id.
  do 16 (destruct k as [|k]; [reflexivity|]). lia.
Qed.

Lemma is_hex_string_cons c s :
  is_hex_string (String c s)
  = existsb (Ascii.eqb c) (list_ascii_of_string "0123456789abcdef") && is_hex_string s.
Proof. reflexivity. Qed.

Lemma hex_is_hex b : is_hex_string (hex b) = true.
Proof.
  induction b as [|x b IH]; [reflexivity|].
  cbn [hex]. pose proof (byte_val_range x).
  rewrite !is_hex_string_cons, !hex_digit_is_hex, IH; [reflexivity| |].
  - apply Z.mod_pos_bound. lia.
  - split; [apply Z.div_pos; lia|apply Z.div_lt_upper_bound; lia].
Qed.

(** A string of hexadecimal digits holds no slash and no dot. *)
Lemma hex_string_no_slash s :
  is_hex_string s = true ->
  strings_Contains s "/" = false /\ strings_Contains s ".." = false.
Proof.
  induction s as [|c s IH]; [intros _; split; reflexivity|].
  rewrite is_hex_string_cons. intros H. apply andb_true_iff in H as [Hc Hs].
  destruct (IH Hs) as [IH1 IH2]. cbn [strings_Contains strings_HasPrefix].
  rewrite IH1, IH2.
  assert (Hne : Ascii.eqb "/" c = false /\ Ascii.eqb "." c = false).
  { cbn [list_ascii_of_string existsb] in Hc.
    destruct (Ascii.eqb_spec "/" c) as [<-|_]; [discriminate|].
    destruct (Ascii.eqb_spec "." c) as [<-|_]; [discriminate|]. split; reflexivity. }
  destruct Hne as [-> ->]. split; reflexivity.
Qed.

Lemma job_key_shape filePath mtime :
  String.length (job_key filePath mtime) = 16%nat
  /\ is_hex_string (job_key filePath mtime) = true.
Proof.
  unfold job_key. split; [|apply hex_is_hex].
  now rewrite hex_length, length_firstn, MD5_Sum_length.
Qed.

(** X8.  The key of a job is always sixteen lower-case hexadecimal
    digits, whatever the path and whether or not the file exists: it holds
    no slash and no dot, so it is one path element under the cache root and
    passes the split and the checks of [handleHLS] unchanged. *)
Theorem hlsJobKey_sixteen_hex_digits (filePath : string) (st : State) :
  String.length (hlsJobKey filePath st).1 = 16%nat
  /\ is_hex_string (hlsJobKey filePath st).1 = true
  /\ strings_Contains (hlsJobKey filePath st).1 "/" = false
  /\ strings_Contains (hlsJobKey filePath st).1 ".." = false
  /\ forall fileName,
       strings_SplitN_slash_2
         (strings_TrimPrefix ("/hls/" ++ (hlsJobKey filePath st).1 ++ "/" ++ fileName) "/hls/")
       = [(hlsJobKey filePath st).1; fileName].
Proof.
  rewrite hlsJobKey_run. cbn [fst]. unfold key_on.
  set (key := job_key _ _).
  destruct (job_key_shape filePath
              (match os_Stat (disk st) filePath with Some f => f_mtime f | None => 0 end))
    as [Hlen Hhex].
  fold key in Hlen, Hhex.
  destruct (hex_string_no_slash _ Hhex) as [Hs Hd].
  split_all; try assumption.
  intros fileName. rewrite TrimPrefix_hls. unfold strings_SplitN_slash_2.
  now rewrite (cut_slash_key _ fileName Hs).
Qed.

(** ** Reading the codec name *)

Lemma append_nil_l (s : string) : "" ++ s = s.
Proof. reflexivity. Qed.

Lemma string_app_assoc (a b c : string) : (a ++ b) ++ c = a ++ b ++ c.
Proof.
  induction a as [|x a IH]; [reflexivity|]. rewrite !append_cons. now rewrite IH.
Qed.

Lemma string_app_length (a b : string) :
  String.length (a ++ b) = (String.length a + String.length b)%nat.
Proof.
  induction a as [|x a IH]; [reflexivity|]. rewrite append_cons.
  cbn [String.length]. now rewrite IH.
Qed.

Lemma drop_string_app pre s : drop_string (String.length pre) (pre ++ s) = s.
Proof.
  induction pre as [|c pre IH]; [reflexivity|].
  rewrite append_cons. cbn [String.length drop_string]. exact IH.
Qed.

Lemma take_string_app pre s : take_string (String.length pre) (pre ++ s) = pre.
Proof.
  induction pre as [|c pre IH].
  - cbn [String.length]. rewrite append_nil_l. now destruct s.
  - rewrite append_cons. cbn [String.length take_string]. now rewrite IH.
Qed.

(** The first double quote of a text that begins with a run free of it. *)
Lemma Index_quote s post :
  strings_Contains s quote = false ->
  strings_Index (s ++ quote ++ post) quote = Some (String.length s).
Proof.
  induction s as [|c s IH]; intros Hc.
  - reflexivity.
  - rewrite append_cons. cbn [strings_Contains] in Hc.
    apply orb_false_iff in Hc as [Hp Hc].
    assert (Hno : strings_HasPrefix (String c (s ++ quote ++ post)) quote = false).
    { revert Hp. unfold quote. cbn [strings_HasPrefix]. now rewrite !andb_true_r. }
    cbn [strings_Index String.length]. rewrite Hno, (IH Hc). reflexivity.
Qed.

(** The first equals sign followed by a double quote, likewise. *)
Lemma Index_eq_quote pre rest :
  strings_Contains pre ("=" ++ quote) = false ->
  strings_Index (pre ++ "=" ++ quote ++ rest) ("=" ++ quote) = Some (String.length pre).
Proof.
  induction pre as [|c pre IH]; intros Hc.
  - reflexivity.
  - rewrite append_cons. cbn [strings_Contains] in Hc.
    apply orb_false_iff in Hc as [Hp Hc].
    assert (Hno : strings_HasPrefix (String c (pre ++ "=" ++ quote ++ rest)) ("=" ++ quote)
                  = false).
    { revert Hp. clear. unfold quote. rewrite !append_cons, !append_nil_l.
      cbn [strings_HasPrefix].
      destruct (Ascii.eqb "=" c); [|reflexivity]. cbn [andb].
      destruct pre as [|b pre']; [reflexivity|].
      rewrite append_cons. now rewrite !andb_true_r. }
    cbn [strings_Index String.length]. rewrite Hno, (IH Hc). reflexivity.
Qed.

(** X9.  [probeVideoCodec] reads back what [ffprobe] prints: when the
    output is any text in which no equals sign is followed by a double
    quote, then an equals sign and a double quote, the codec name (free of
    double quotes), a double quote and anything, the function returns
    exactly the codec name. *)
Theorem probeVideoCodec_reads_quoted_value
    (env : Env) (filePath : string) (st : State) (pre codec post : string) :
  ffprobe_Output env (probe_args filePath)
  = Some (pre ++ "=" ++ quote ++ codec ++ quote ++ post) ->
  strings_Contains pre ("=" ++ quote) = false ->
  strings_Contains codec quote = false ->
  (probeVideoCodec env filePath st).1 = codec.
Proof.
  intros Hout Hpre Hcodec. unfold probeVideoCodec. run_m. rewrite Hout. cbn [fst].
  unfold parse_codec.
  rewrite (Index_eq_quote pre (codec ++ quote ++ post) Hpre).
  replace (String.length pre + 2)%nat
    with (String.length (pre ++ "=" ++ quote)) by (now rewrite string_app_length).
  replace (pre ++ "=" ++ quote ++ codec ++ quote ++ post)
    with ((pre ++ "=" ++ quote) ++ codec ++ quote ++ post)
    by (now rewrite (string_app_assoc pre ("=" ++ quote))).
  rewrite drop_string_app, (Index_quote codec post Hcodec).
  apply take_string_app.
Qed.

Lemma probeVideoCodec_reads_quoted_value_witness :
  (probeVideoCodec (quiet_env "hevc") "/v/foo.mkv" (fresh_state video_disk)).1 = "hevc".
Proof.
  apply (probeVideoCodec_reads_quoted_value (quiet_env "hevc") "/v/foo.mkv"
           (fresh_state video_disk) "streams.stream.0.codec_name" "hevc" "");
    reflexivity.
Defined.

(** ** Cleaned paths *)

Lemma Contains_slash_cons c s :
  strings_Contains (String c s) "/" = Ascii.eqb c "/" || strings_Contains s "/".
Proof.
  cbn [strings_Contains strings_HasPrefix]. now rewrite andb_true_r, Ascii.eqb_sym.
Qed.

Lemma path_elements_go_app cur a b :
  path_elements_go cur (a ++ "/" ++ b) = (path_elements_go cur a ++ path_elements b)%list.
Proof.
  revert cur. induction a as [|c a IH]; intros cur.
  - reflexivity.
  - rewrite append_cons. cbn [path_elements_go].
    destruct (Ascii.eqb c "/"); [cbn [app]; f_equal; apply IH|apply IH].
Qed.

Lemma path_elements_app a b :
  path_elements (a ++ "/" ++ b) = (path_elements a ++ path_elements b)%list.
Proof. apply path_elements_go_app. Qed.

Lemma path_elements_go_free cur s :
  slash_free s -> path_elements_go cur s = [String.rev_app cur s].
Proof.
  unfold slash_free. revert cur. induction s as [|c s IH]; intros cur Hs; [reflexivity|].
  rewrite Contains_slash_cons in Hs. apply orb_false_iff in Hs as [Hc Hs].
  cbn [path_elements_go]. rewrite Hc. now rewrite IH.
Qed.

Lemma path_elements_free e : slash_free e -> path_elements e = [e].
Proof. intros H. unfold path_elements. now rewrite path_elements_go_free. Qed.

Lemma rev_app_slash cur acc :
  strings_Contains (String.rev_app cur acc) "/"
  = strings_Contains cur "/" || strings_Contains acc "/".
Proof.
  revert acc. induction cur as [|c cur IH]; intros acc; [reflexivity|].
  cbn [String.rev_app]. rewrite IH, !Contains_slash_cons.
  destruct (Ascii.eqb c "/"), (strings_Contains cur "/"); reflexivity.
Qed.

Lemma path_elements_go_slash_free s : forall cur,
  slash_free cur -> Forall slash_free (path_elements_go cur s).
Proof.
  unfold slash_free. induction s as [|c s IH]; intros cur Hcur; cbn [path_elements_go].
  - constructor; [|constructor]. unfold String.rev. now rewrite rev_app_slash, Hcur.
  - destruct (Ascii.eqb c "/") eqn:Hc.
    + constructor; [|now apply IH]. unfold String.rev. now rewrite rev_app_slash, Hcur.
    + apply IH. now rewrite Contains_slash_cons, Hc, Hcur.
Qed.

Lemma path_elements_slash_free s : Forall slash_free (path_elements s).
Proof. now apply path_elements_go_slash_free. Qed.

Lemma clean_push_normal r e S : normal_elem e -> clean_push r S e = e :: S.
Proof.
  intros (H1 & H2 & H3 & _). unfold clean_push.
  rewrite decide_False by tauto. now rewrite decide_False.
Qed.

Lemma fold_normal r l : forall S,
  Forall normal_elem l -> fold_left (clean_push r) l S = (rev l ++ S)%list.
Proof.
  induction l as [|e l IH]; intros S Hl; [reflexivity|].
  inversion Hl as [|? ? He Hl']; subst. cbn [fold_left rev].
  rewrite clean_push_normal by exact He. rewrite IH by exact Hl'.
  now rewrite <- app_assoc.
Qed.

Lemma dotdot_stays es : forall T,
  ".." ∈ T -> ".." ∈ fold_left (clean_push false) es T.
Proof.
  induction es as [|e es IH]; intros T HT; [exact HT|].
  cbn [fold_left]. apply IH. unfold clean_push.
  destruct (decide (e = "" \/ e = ".")); [exact HT|].
  destruct (decide (e = "..")) as [->|_]; [|now right].
  destruct T as [|top below]; [now left|].
  destruct (decide (top = "..")) as [->|Hne]; [now left|].
  apply elem_of_cons in HT as [HT|HT]; [congruence|exact HT].
Qed.

(** A relative run of elements that cleans to normal elements only does the
    same on top of any stack. *)
Lemma fold_in_context r es : forall T0 S,
  Forall slash_free es ->
  Forall normal_elem T0 ->
  Forall normal_elem (fold_left (clean_push false) es T0) ->
  fold_left (clean_push r) es (T0 ++ S)%list = (fold_left (clean_push false) es T0 ++ S)%list.
Proof.
  induction es as [|e es IH]; intros T0 S Hes HT0 HT; [reflexivity|].
  inversion Hes as [|? ? He Hes']; subst. cbn [fold_left] in *.
  unfold clean_push at 2 4. unfold clean_push at 2 in HT.
  destruct (decide (e = "" \/ e = ".")) as [Hdot|Hdot]; [now apply IH|].
  destruct (decide (e = "..")) as [->|Hdd].
  - destruct T0 as [|top below].
    + exfalso. pose proof (dotdot_stays es [".."] ltac:(now left)) as Hin.
      rewrite Forall_forall in HT. destruct (HT _ Hin) as (_ & _ & Hne & _). congruence.
    + inversion HT0 as [|? ? Htop Hbelow]; subst.
      assert (Hne : top <> "..") by (destruct Htop as (_ & _ & H & _); exact H).
      rewrite decide_False in HT |- * by exact Hne. cbn [app].
      rewrite decide_False by exact Hne. now apply IH.
  - change (e :: T0 ++ S)%list with ((e :: T0) ++ S)%list. apply IH; try assumption.
    constructor; [|exact HT0]. unfold normal_elem. split_all; first [tauto | exact He].
Qed.

(** The cleaned elements of a relative path: normal ones above, [..] below. *)
Lemma stack_shape es : forall tops dots,
  Forall slash_free es ->
  Forall normal_elem tops ->
  Forall (eq "..") dots ->
  exists tops' dots',
    fold_left (clean_push false) es (tops ++ dots)%list = (tops' ++ dots')%list
    /\ Forall normal_elem tops' /\ Forall (eq "..") dots'.
Proof.
  induction es as [|e es IH]; intros tops dots Hes Htops Hdots; [eauto|].
  inversion Hes as [|? ? He Hes']; subst. cbn [fold_left]. unfold clean_push.
  destruct (decide (e = "" \/ e = ".")) as [Hdot|Hdot]; [now apply IH|].
  destruct (decide (e = "..")) as [->|Hdd].
  - destruct tops as [|top tops'].
    + cbn [app]. destruct dots as [|d dots'].
      * apply (IH [] [".."]); auto.
      * inversion Hdots as [|? ? Hd Hdots']; subst.
        rewrite decide_True by reflexivity.
        apply (IH [] (".." :: ".." :: dots')); auto.
    + inversion Htops as [|? ? Htop Htops']; subst. cbn [app].
      rewrite decide_False by (destruct Htop as (_ & _ & H & _); exact H).
      now apply IH.
  - change (e :: tops ++ dots)%list with ((e :: tops) ++ dots)%list.
    apply IH; try assumption.
    constructor; [|exact Htops]. unfold normal_elem. split_all; first [tauto | exact He].
Qed.

Lemma join_slash_dotdot l : strings_HasPrefix (join_slash (".." :: l)) ".." = true.
Proof. destruct l; reflexivity. Qed.

Lemma join_slash_nonempty e l : e <> "" -> join_slash (e :: l) <> "".
Proof.
  intros He. destruct e as [|c e]; [congruence|].
  destruct l; cbn [join_slash]; [discriminate|]. rewrite append_cons. discriminate.
Qed.

Lemma join_slash_elements l :
  l <> [] -> Forall slash_free l -> path_elements (join_slash l) = l.
Proof.
  induction l as [|e l IH]; intros Hne Hl; [congruence|].
  inversion Hl as [|? ? He Hl']; subst.
  destruct l as [|e' l'].
  - now apply path_elements_free.
  - change (join_slash (e :: e' :: l')) with (e ++ "/" ++ join_slash (e' :: l')).
    rewrite path_elements_app, (path_elements_free e He), IH; [reflexivity|discriminate|exact Hl'].
Qed.

Lemma normal_slash_free l : Forall normal_elem l -> Forall slash_free l.
Proof. intros H. eapply Forall_impl; [exact H|]. intros e (_ & _ & _ & He). exact He. Qed.

Lemma rev_dots_head (dots tops : list string) :
  Forall (eq "..") dots ->
  exists rest, ((rev dots ++ [".."]) ++ rev tops)%list = ".." :: rest.
Proof.
  intros Hdots. apply Forall_rev in Hdots.
  destruct (rev dots) as [|x xs]; [cbn; eauto|].
  inversion Hdots as [|? ? <- _]. cbn. eauto.
Qed.

(** The stack of a relative path whose cleaned form does not begin with
    [..] holds normal elements only. *)
Lemma relative_clean_normal b :
  strings_HasPrefix b "/" = false ->
  strings_HasPrefix (filepath_Clean b) ".." = false ->
  Forall normal_elem (fold_left (clean_push false) (path_elements b) []).
Proof.
  intros Hrel Hdd. unfold filepath_Clean in Hdd. rewrite Hrel in Hdd.
  destruct (stack_shape (path_elements b) [] [] (path_elements_slash_free b))
    as (tops & dots & HT & Htops & Hdots); auto.
  cbn [app] in HT. rewrite HT in *.
  destruct dots as [|d dots]; [now rewrite app_nil_r|]. exfalso.
  rewrite rev_app_distr in Hdd. cbn [rev] in Hdd.
  inversion Hdots as [|? ? Hd Hdots']; subst.
  destruct (rev_dots_head dots tops Hdots') as (rest & Hhead). rewrite Hhead in Hdd.
  destruct (decide (join_slash (".." :: rest) = "")) as [E|_].
  - now apply join_slash_nonempty in E.
  - now rewrite join_slash_dotdot in Hdd.
Qed.

(** The elements of the cleaned form of such a path push its stack. *)
Lemma clean_elements_fold r b S :
  strings_HasPrefix b "/" = false ->
  Forall normal_elem (fold_left (clean_push false) (path_elements b) []) ->
  fold_left (clean_push r) (path_elements (filepath_Clean b)) S
  = (fold_left (clean_push false) (path_elements b) [] ++ S)%list.
Proof.
  intros Hrel HT. unfold filepath_Clean. rewrite Hrel.
  set (T := fold_left (clean_push false) (path_elements b) []) in *.
  destruct T as [|e T'] eqn:ET.
  - reflexivity.
  - assert (Hrev : rev (e :: T') <> []).
    { intros E. apply (f_equal (@length _)) in E. rewrite length_rev in E. discriminate. }
    assert (Hnorm : Forall normal_elem (rev (e :: T'))) by now apply Forall_rev.
    destruct (rev (e :: T')) as [|x xs] eqn:Er; [congruence|].
    rewrite decide_False.
    2:{ apply join_slash_nonempty. inversion Hnorm as [|? ? (H & _) _]. exact H. }
    rewrite join_slash_elements; [|discriminate|now apply normal_slash_free].
    rewrite fold_normal by exact Hnorm. rewrite <- Er, rev_involutive. reflexivity.
Qed.

(** Two paths with the same root and the same stack clean to the same. *)
Lemma Clean_ext p1 p2 :
  strings_HasPrefix p1 "/" = strings_HasPrefix p2 "/" ->
  fold_left (clean_push (strings_HasPrefix p2 "/")) (path_elements p1) []
  = fold_left (clean_push (strings_HasPrefix p2 "/")) (path_elements p2) [] ->
  filepath_Clean p1 = filepath_Clean p2.
Proof. unfold filepath_Clean. intros -> ->. reflexivity. Qed.

(** Joining a directory with a relative path, or with its cleaned form. *)
Lemma Join_Clean a b :
  b <> "" ->
  strings_HasPrefix (filepath_Clean b) "/" = false ->
  strings_HasPrefix (filepath_Clean b) ".." = false ->
  filepath_Join a (filepath_Clean b) = filepath_Join a b.
Proof.
  intros Hb Habs Hdd.
  assert (Hrel : strings_HasPrefix b "/" = false).
  { destruct (strings_HasPrefix b "/") eqn:E; [|reflexivity].
    unfold filepath_Clean in Habs. rewrite E in Habs. discriminate. }
  pose proof (relative_clean_normal b Hrel Hdd) as HT.
  assert (Hne : filepath_Clean b <> "").
  { unfold filepath_Clean. rewrite Hrel. destruct (decide (_ = "")); [discriminate|assumption]. }
  unfold filepath_Join.
  destruct (decide (filepath_Clean b = "")) as [?|_]; [congruence|].
  destruct (decide (b = "")) as [?|_]; [congruence|].
  destruct (decide (a = "")) as [->|Ha].
  - apply Clean_ext; [congruence|]. rewrite Hrel.
    now rewrite (clean_elements_fold false b [] Hrel HT), app_nil_r.
  - assert (Hroot : forall x, strings_HasPrefix (a ++ "/" ++ x) "/" = strings_HasPrefix a "/").
    { intros x. destruct a as [|c a']; [congruence|]. rewrite append_cons. reflexivity. }
    apply Clean_ext; [now rewrite !Hroot|].
    rewrite !Hroot, !path_elements_app, !fold_left_app.
    set (r := strings_HasPrefix a "/").
    set (Sa := fold_left (clean_push r) (path_elements a) []).
    rewrite (clean_elements_fold r b Sa Hrel HT).
    rewrite <- (fold_in_context r (path_elements b) [] Sa (path_elements_slash_free b)
                  ltac:(constructor) HT).
    reflexivity.
Qed.

(** ** Paths a request may name *)

(** What [isValidPath] has checked when it answers true. *)
Lemma isValidPath_true videoDir relPath :
  isValidPath videoDir relPath = true ->
  relPath <> ""
  /\ filepath_IsAbs (filepath_Clean relPath) = false
  /\ strings_HasPrefix (filepath_Clean relPath) ".." = false
  /\ filepath_Join videoDir relPath = filepath_Join videoDir (filepath_Clean relPath)
  /\ strings_HasPrefix (filepath_Join videoDir relPath) (videoDir ++ "/") = true
  /\ videoExts (strings_ToLower (filepath_Ext (filepath_Clean relPath))) = true.
Proof.
  unfold isValidPath. destruct (decide (relPath = "")) as [|Hne]; [discriminate|].
  destruct (filepath_IsAbs (filepath_Clean relPath)) eqn:Habs; [discriminate|].
  destruct (strings_HasPrefix (filepath_Clean relPath) "..") eqn:Hdd; [discriminate|].
  cbn [orb].
  destruct (strings_HasPrefix (filepath_Join videoDir (filepath_Clean relPath))
              (videoDir ++ "/")) eqn:Hin; [|discriminate].
  cbn [negb]. intros Hext.
  rewrite (Join_Clean videoDir relPath Hne Habs Hdd) in Hin.
  split_all; first [assumption | reflexivity | symmetry; now apply Join_Clean].
Qed.

Section Video.

Variable videoDir : string.

(** X10.  [handleVideo] serves a file only from under the video
    directory.  An empty [file] is answered 400 and a path that
    [isValidPath] refuses 403, both without any effect.  Otherwise the
    answer is [http.ServeFile] on [filepath.Join(videoDir, file)], and that
    path begins with [videoDir/], whatever [.], [..], doubled or trailing
    slashes [file] holds; joining the directory with [file] or with its
    cleaned form gives the same path, the cleaned form is relative, and its
    extension, in lower case, is one of the eight video extensions. *)
Theorem handleVideo_stays_under_videoDir (file : string) (st : State) :
  match (handleVideo videoDir file st).1 with
  | NotFound => False
  | Error _ code =>
      (handleVideo videoDir file st).2 = st
      /\ (code = StatusBadRequest /\ file = ""
          \/ code = StatusForbidden /\ file <> "" /\ isValidPath videoDir file = false)
  | ServeFile headers path =>
      headers = []
      /\ path = filepath_Join videoDir file
      /\ path = filepath_Join videoDir (filepath_Clean file)
      /\ strings_HasPrefix path (videoDir ++ "/") = true
      /\ path_under videoDir path = true
      /\ filepath_IsAbs (filepath_Clean file) = false
      /\ videoExts (strings_ToLower (filepath_Ext (filepath_Clean file))) = true
      /\ (handleVideo videoDir file st).2 = log [EvServeFile path] st
  end.
Proof.
  unfold handleVideo. destruct (decide (file = "")) as [->|Hne].
  { cbn. split; [reflexivity|]. left. split; reflexivity. }
  destruct (isValidPath videoDir file) eqn:Hv; cbn [negb].
  2:{ cbn. split; [reflexivity|]. right. split_all; [reflexivity|exact Hne|reflexivity]. }
  destruct (isValidPath_true videoDir file Hv) as (_ & Habs & _ & Hjoin & Hin & Hext).
  run_m. split_all; try reflexivity; try assumption.
  unfold path_under. rewrite Hin. apply orb_true_r.
Qed.

End Video.

(** ** The player page *)

(** How [getOrStartHLS] leaves the key of the path: registered with the job
    it returns, or, on its error, as unregistered as before. *)
Lemma getOrStartHLS_outcome env filePath st :
  match (getOrStartHLS env filePath st).1 with
  | Ok job => hlsJobs (getOrStartHLS env filePath st).2 !! key_on (disk st) filePath = Some job
  | Err _ =>
      hlsJobs (getOrStartHLS env filePath st).2 !! key_on (disk st) filePath = None
      /\ mkdir_all (filepath_Join (hlsCacheDir env) (key_on (disk st) filePath)) (disk st) = None
      /\ hlsJobs (getOrStartHLS env filePath st).2 = hlsJobs st
      /\ heap (getOrStartHLS env filePath st).2 = heap st
      /\ goroutines (getOrStartHLS env filePath st).2 = goroutines st
  end.
Proof.
  destruct (hlsJobs st !! key_on (disk st) filePath) as [job0|] eqn:Hjob.
  { rewrite (getOrStartHLS_resident env filePath st job0 Hjob). exact Hjob. }
  destruct (complete_on (disk st)
              (filepath_Join (hlsCacheDir env) (key_on (disk st) filePath))) eqn:Hc.
  { destruct (getOrStartHLS_cached env filePath st _ _ eq_refl eq_refl Hjob Hc)
      as (st' & -> & Hj & _). cbn [fst snd]. rewrite Hj. apply lookup_insert_eq. }
  destruct (mkdir_all (filepath_Join (hlsCacheDir env) (key_on (disk st) filePath)) (disk st))
    as [d'|] eqn:Hmk.
  - destruct (getOrStartHLS_starts env filePath st _ _ d' eq_refl eq_refl Hjob Hc Hmk)
      as (st' & -> & Hj & _). cbn [fst snd]. rewrite Hj. apply lookup_insert_eq.
  - destruct (getOrStartHLS_mkdir_fails env filePath st _ _ eq_refl eq_refl Hjob Hc Hmk)
      as (st' & -> & Hj & Hh & Hn & Hmu & _ & Hg & _). cbn [fst snd].
    split; [now rewrite Hj|]. split; [reflexivity|]. now rewrite Hj, Hh, Hg.
Qed.

Section Play.

Variable env : Env.
Variable videoDir : string.
Variable ScanVideos : string -> M (list VideoFile * option string).

(** The scan reads the directory and probes durations; it does not touch
    the registry, the jobs or the goroutines. *)
Hypothesis scan_keeps : forall st, same_memory st (ScanVideos videoDir st).2.

(** X11.  [handlePlay] on a path that [isValidPath] accepts renders the
    player page for a file under the video directory.  When the classifier
    says HLS, the page names the sixteen-digit key of that file, and that key
    is then registered with an existing job, unless the cache directory of
    the key could not be made: the error of [getOrStartHLS] is only logged,
    the page is rendered all the same and the registry is as before.  When
    the classifier says direct serving, the page names no key and nothing is
    registered or launched.  Either way the registry stays well-formed. *)
Theorem handlePlay_registers_the_key_it_names (file : string) (st : State) :
  registry_ok env st ->
  isValidPath videoDir file = true ->
  exists data st',
    handlePlay env videoDir ScanVideos file st = (Template "player.html" data, st')
    /\ strings_HasPrefix (filepath_Join videoDir file) (videoDir ++ "/") = true
    /\ Player.File data = file
    /\ Player.UseHLS data = useHLS (disk st) (filepath_Join videoDir file)
    /\ Player.Related data
       = filter (fun v => RelPath v <> file) (ScanVideos videoDir st).1.1
    /\ registry_ok env st'
    /\ if Player.UseHLS data
       then Player.HLSKey data
            = key_on (disk (ScanVideos videoDir st).2) (filepath_Join videoDir file)
            /\ String.length (Player.HLSKey data) = 16%nat
            /\ match hlsJobs st' !! Player.HLSKey data with
               | Some job => is_Some (heap st' !! job)
               | None =>
                   mkdir_all (filepath_Join (hlsCacheDir env) (Player.HLSKey data))
                     (disk (ScanVideos videoDir st).2) = None
                   /\ hlsJobs st' = hlsJobs st
                   /\ goroutines st' = goroutines st
               end
       else Player.HLSKey data = ""
            /\ st' = (ScanVideos videoDir st).2
            /\ hlsJobs st' = hlsJobs st
            /\ heap st' = heap st
            /\ goroutines st' = goroutines st.
Proof.
  intros Hok Hv.
  destruct (isValidPath_true videoDir file Hv) as (Hne & _ & _ & _ & Hin & _).
  unfold handlePlay. rewrite decide_False by exact Hne. rewrite Hv. cbn [negb].
  unfold bind at 1. unfold gets at 1. unfold bind at 1.
  pose proof (scan_keeps st) as (Hj1 & Hh1 & Hn1 & _ & Hg1).
  destruct (ScanVideos videoDir st) as [scanned st1]. cbn [fst snd] in *.
  assert (Hok1 : registry_ok env st1) by now apply (registry_ok_same env st).
  destruct (useHLS (disk st) (filepath_Join videoDir file)) eqn:Hhls.
  2:{ run_m. eexists _, st1. split; [reflexivity|]. cbn [Player.File Player.UseHLS
        Player.Related Player.HLSKey]. split_all; auto. }
  unfold bind. rewrite hlsJobKey_run.
  set (fullPath := filepath_Join videoDir file) in *.
  set (st2 := log [EvStat fullPath] st1).
  assert (Hok2 : registry_ok env st2) by now apply (registry_ok_same env st1).
  pose proof (getOrStartHLS_outcome env fullPath st2) as Hout.
  pose proof (registry_ok_getOrStartHLS env fullPath st2 Hok2) as Hok3.
  destruct (getOrStartHLS env fullPath st2) as [res st3]. cbn [fst snd] in *.
  unfold ret. eexists _, st3. split; [reflexivity|].
  cbn [Player.File Player.UseHLS Player.Related Player.HLSKey].
  split_all; auto.
  { apply job_key_shape. }
  change (disk st2) with (disk st1) in Hout.
  destruct res as [job|msg].
  - rewrite Hout. destruct Hok3 as (Hreg & _). destruct (Hreg _ _ Hout) as (j & Hj & _).
    now exists j.
  - destruct Hout as (Hnone & Hmk & Hj3 & _ & Hg3). rewrite Hnone.
    split; [exact Hmk|]. split; [now rewrite Hj3|now rewrite Hg3].
Qed.

End Play.

Lemma handlePlay_registers_the_key_it_names_witness :
  registry_ok (quiet_env "hevc") (fresh_state video_disk)
  /\ isValidPath "/v" "foo.mkv" = true
  /\ exists data st',
       handlePlay (quiet_env "hevc") "/v" (fun _ => ret ([], None)) "foo.mkv"
         (fresh_state video_disk)
       = (Template "player.html" data, st')
       /\ Player.File data = "foo.mkv"
       /\ Player.UseHLS data = useHLS (disk (fresh_state video_disk)) (filepath_Join "/v" "foo.mkv")
       /\ registry_ok (quiet_env "hevc") st'.
Proof.
  assert (H1 : registry_ok (quiet_env "hevc") (fresh_state video_disk))
    by apply registry_ok_start.
  assert (H2 : isValidPath "/v" "foo.mkv" = true) by (vm_compute; reflexivity).
  refine (conj H1 (conj H2 _)).
  destruct (handlePlay_registers_the_key_it_names (quiet_env "hevc") "/v"
              (fun _ => ret ([], None)) (fun st => same_memory_refl st)
              "foo.mkv" (fresh_state video_disk) H1 H2)
    as (data & st' & Hrun & _ & Hfile & Hhls & _ & Hok & _).
  exists data, st'. exact (conj Hrun (conj Hfile (conj Hhls Hok))).
Defined.

(** ** The root as video directory *)

Lemma fold_rooted_normal es : forall T,
  Forall slash_free es -> Forall normal_elem T ->
  Forall normal_elem (fold_left (clean_push true) es T).
Proof.
  induction es as [|e es IH]; intros T Hes HT; [exact HT|].
  inversion Hes as [|? ? He Hes']; subst. cbn [fold_left]. apply IH; [exact Hes'|].
  unfold clean_push.
  destruct (decide (e = "" \/ e = ".")) as [Hdot|Hdot]; [exact HT|].
  destruct (decide (e = "..")) as [->|Hdd].
  - destruct T as [|top below]; [constructor|].
    inversion HT as [|? ? Htop Hbelow]; subst.
    rewrite decide_False by (destruct Htop as (_ & _ & H & _); exact H). exact Hbelow.
  - constructor; [|exact HT]. unfold normal_elem. split_all; first [tauto | exact He].
Qed.

(** A cleaned path never begins with two slashes. *)
Lemma Clean_rooted_single_slash p :
  strings_HasPrefix p "/" = true -> strings_HasPrefix (filepath_Clean p) "//" = false.
Proof.
  intros Hroot. unfold filepath_Clean. rewrite Hroot.
  pose proof (fold_rooted_normal (path_elements p) [] (path_elements_slash_free p)
                ltac:(constructor)) as HT.
  apply Forall_rev in HT.
  destruct (rev (fold_left (clean_push true) (path_elements p) [])) as [|e l]; [reflexivity|].
  inversion HT as [|? ? (Hne & _ & _ & Hs) _]; subst.
  destruct e as [|c e]; [congruence|].
  unfold slash_free in *. rewrite Contains_slash_cons in Hs.
  apply orb_false_iff in Hs as [Hc _].
  assert (Hj : exists rest, join_slash (String c e :: l) = String c rest).
  { destruct l; cbn [join_slash]; [eauto|]. rewrite append_cons. eauto. }
  destruct Hj as (rest & ->).
  change ("/" ++ String c rest) with (String "/" (String c rest)).
  cbn [strings_HasPrefix]. rewrite (Ascii.eqb_sym "/" c), Hc. reflexivity.
Qed.

(** X12.  With the root [/] as video directory, [isValidPath] refuses
    every path: the joined path never begins with the two slashes the
    prefix test asks for.  [handleVideo] then answers 403 to every request
    that names a file, and serves nothing. *)
Theorem root_videoDir_refuses_everything (file : string) (st : State) :
  isValidPath "/" file = false
  /\ (file <> "" ->
      handleVideo "/" file st = (Error "无效的文件路径" StatusForbidden, st)).
Proof.
  assert (Hv : isValidPath "/" file = false).
  { unfold isValidPath. destruct (decide (file = "")); [reflexivity|].
    destruct (_ || _); [reflexivity|].
    assert (Hno : strings_HasPrefix (filepath_Join "/" (filepath_Clean file)) ("/" ++ "/")
                  = false).
    { unfold filepath_Join. rewrite decide_False by discriminate.
      destruct (decide (filepath_Clean file = "")); [reflexivity|].
      now apply Clean_rooted_single_slash. }
    now rewrite Hno. }
  split; [exact Hv|]. intros Hne. unfold handleVideo.
  rewrite decide_False by exact Hne. now rewrite Hv.
Qed.

(** ** The pages of the library *)

Lemma quot_nonpos a b : a <= 0 -> 0 < b -> Z.quot a b <= 0.
Proof.
  intros Ha Hb. replace a with (- (- a)) by lia. rewrite Z.quot_opp_l by lia.
  pose proof (Z.quot_pos (- a) b ltac:(lia) Hb). lia.
Qed.

(** The number of pages, computed with wrap-around, is the number of pages. *)
Lemma total_pages_value total size :
  0 <= total < 2 ^ 62 -> 1 <= size < 2 ^ 63 ->
  (if Z.quot (int64 (int64 (total + size) - 1)) size <? 1 then 1
   else Z.quot (int64 (int64 (total + size) - 1)) size)
  = (if total =? 0 then 1 else (total - 1) / size + 1).
Proof.
  intros Ht Hs.
  destruct (Z.lt_ge_cases (total + size) (2 ^ 63)) as [Hsmall|Hbig].
  - rewrite (int64_small (total + size)) by lia.
    rewrite (int64_small (total + size - 1)) by lia.
    rewrite Z.quot_div_nonneg by lia.
    destruct (Z.eqb_spec total 0) as [->|Hne].
    + rewrite Z.add_0_l, Z.div_small by lia. reflexivity.
    + replace (total + size - 1) with ((total - 1) + 1 * size) by lia.
      rewrite Z.div_add by lia.
      pose proof (Z.div_pos (total - 1) size ltac:(lia) ltac:(lia)).
      destruct (Z.ltb_spec ((total - 1) / size + 1) 1); [lia|reflexivity].
  - assert (Hpages : (total - 1) / size = 0) by (apply Z.div_small; lia).
    destruct (Z.eqb_spec total 0) as [->|Hne]; [lia|]. rewrite Hpages.
    rewrite (int64_wrap (total + size)) by lia.
    destruct (Z.eq_dec (total + size) (2 ^ 63)) as [E|E].
    + rewrite E. change (int64 (2 ^ 63 - 2 ^ 64 - 1)) with (2 ^ 63 - 1).
      rewrite Z.quot_div_nonneg by lia.
      assert (Hq : (2 ^ 63 - 1) / size = 1).
      { symmetry. apply (Z.div_unique _ _ 1 (2 ^ 63 - 1 - size)); lia. }
      rewrite Hq. reflexivity.
    + rewrite (int64_small (total + size - 2 ^ 64 - 1)) by lia.
      pose proof (quot_nonpos (total + size - 2 ^ 64 - 1) size ltac:(lia) ltac:(lia)).
      destruct (Z.ltb_spec (Z.quot (total + size - 2 ^ 64 - 1) size) 1); [reflexivity|lia].
Qed.

Lemma go_slice_lookup {A} (s : list A) (lo hi : Z) (k : nat) :
  0 <= lo <= hi -> hi <= Z.of_nat (length s) ->
  exists shown,
    go_slice s lo hi = Some shown
    /\ shown !! k = (if Z.of_nat k <? hi - lo then s !! Z.to_nat (lo + Z.of_nat k) else None).
Proof.
  intros Hlo Hhi. unfold go_slice.
  destruct (Z.leb_spec 0 lo); [|lia]. destruct (Z.leb_spec lo hi); [|lia].
  destruct (Z.leb_spec hi (Z.of_nat (length s))); [|lia]. cbn [andb].
  eexists. split; [reflexivity|]. rewrite lookup_take.
  destruct (Z.ltb_spec (Z.of_nat k) (hi - lo)).
  - rewrite decide_True by lia. rewrite lookup_drop. f_equal. lia.
  - rewrite decide_False by lia. reflexivity.
Qed.

(** The page arithmetic, for values of the two parameters that fit an
    [int] and a list shorter than 2^62. *)
Lemma index_data_sound (videos : list VideoFile) (page size : Z) :
  Z.of_nat (length videos) < 2 ^ 62 ->
  - 2 ^ 63 <= page < 2 ^ 63 ->
  - 2 ^ 63 <= size < 2 ^ 63 ->
  let pageSize := if size <=? 0 then 20 else size in
  let total := Z.of_nat (length videos) in
  let totalPages := if total =? 0 then 1 else (total - 1) / pageSize + 1 in
  let shownPage := Z.max 1 (Z.min page totalPages) in
  exists data,
    index_data videos page size = Some data
    /\ PageSize data = pageSize
    /\ Total data = total
    /\ TotalPages data = totalPages
    /\ Page data = shownPage
    /\ 1 <= Page data <= TotalPages data
    /\ forall k : nat,
         Videos data !! k
         = if Z.of_nat k <? pageSize
           then videos !! Z.to_nat ((shownPage - 1) * pageSize + Z.of_nat k)
           else None.
Proof.
  intros Hlen Hpage Hsize pageSize total totalPages shownPage.
  assert (HS : 1 <= pageSize < 2 ^ 63).
  { subst pageSize. destruct (Z.leb_spec size 0); lia. }
  assert (Htot : 0 <= total < 2 ^ 62) by (subst total; lia).
  assert (Hpages : 1 <= totalPages /\ (totalPages - 1) * pageSize <= Z.max 0 (total - 1)
                   /\ (2 <= totalPages -> pageSize < total)).
  { subst totalPages. destruct (Z.eqb_spec total 0) as [E|E]; [lia|].
    pose proof (Z.div_mod (total - 1) pageSize ltac:(lia)).
    pose proof (Z.mod_pos_bound (total - 1) pageSize ltac:(lia)).
    pose proof (Z.div_pos (total - 1) pageSize ltac:(lia) ltac:(lia)).
    split; [lia|]. split; [nia|]. intros H2.
    destruct (Z.lt_ge_cases pageSize total); [assumption|].
    rewrite Z.div_small in H2 by lia. lia. }
  destruct Hpages as (Hp1 & Hp2 & Hp3).
  assert (HP : 1 <= shownPage <= totalPages) by (subst shownPage; lia).
  assert (Hstart : 0 <= (shownPage - 1) * pageSize <= total
                   /\ (shownPage - 1) * pageSize + pageSize < 2 ^ 63).
  { destruct (Z.eq_dec shownPage 1) as [->|Hne]; [lia|].
    assert (pageSize < total) by (apply Hp3; lia).
    assert ((shownPage - 1) * pageSize <= (totalPages - 1) * pageSize) by nia.
    split; [nia|lia]. }
  destruct Hstart as (Hst1 & Hst2).
  unfold index_data. fold pageSize. fold total.
  rewrite (total_pages_value total pageSize Htot HS). fold totalPages.
  replace (if totalPages <? (if page <? 1 then 1 else page) then totalPages
           else if page <? 1 then 1 else page) with shownPage.
  2:{ subst shownPage. destruct (Z.ltb_spec page 1);
        [destruct (Z.ltb_spec totalPages 1)|destruct (Z.ltb_spec totalPages page)]; lia. }
  rewrite (int64_small (shownPage - 1)) by lia.
  rewrite (int64_small ((shownPage - 1) * pageSize)) by lia.
  rewrite (int64_small ((shownPage - 1) * pageSize + pageSize)) by lia.
  set (start := (shownPage - 1) * pageSize) in *.
  set (stop := if total <? start + pageSize then total else start + pageSize).
  assert (Hstop : start <= stop <= total /\ stop - start <= pageSize
                  /\ (stop - start < pageSize -> stop = total)).
  { subst stop. destruct (Z.ltb_spec total (start + pageSize)); lia. }
  destruct Hstop as (Hs1 & Hs2 & Hs3).
  destruct (go_slice_lookup videos start stop 0 ltac:(lia) ltac:(subst total; lia))
    as (shown & Hslice & _).
  rewrite Hslice. eexists. split; [reflexivity|].
  cbn [PageSize Total TotalPages Page Videos]. split_all; try reflexivity; try lia.
  intros k.
  destruct (go_slice_lookup videos start stop k ltac:(lia) ltac:(subst total; lia))
    as (shown' & Hslice' & Hk).
  rewrite Hslice in Hslice'. injection Hslice' as <-. rewrite Hk.
  destruct (Z.ltb_spec (Z.of_nat k) (stop - start)), (Z.ltb_spec (Z.of_nat k) pageSize);
    try reflexivity; try lia.
  symmetry. apply lookup_ge_None_2. subst total. lia.
Qed.

(** [strconv.Atoi] returns an [int]. *)
Lemma ParseUint_digits_range s : forall n,
  0 <= n < 2 ^ 64 ->
  match ParseUint_digits n s with
  | Value v => 0 <= v < 2 ^ 64
  | _ => True
  end.
Proof.
  induction s as [|c s IH]; intros n Hn; cbn [ParseUint_digits]; [exact Hn|].
  destruct (_ || _) eqn:Hd; [exact I|].
  apply orb_false_iff in Hd as [Hd0 Hd9].
  destruct (Z.leb_spec ((2 ^ 64 - 1) / 10 + 1) n); [exact I|].
  destruct (Z.ltb_spec (2 ^ 64 - 1) (n * 10 + (Z.of_nat (nat_of_ascii c) - 48))); [exact I|].
  apply IH. apply Z.ltb_ge in Hd0. lia.
Qed.

Lemma strconv_Atoi_range s : - 2 ^ 63 <= strconv_Atoi s < 2 ^ 63.
Proof.
  unfold strconv_Atoi, strconv_ParseInt.
  set (neg := match s with String "-" _ => true | _ => false end).
  set (digits := match s with String "-" s' => s' | String "+" s' => s' | _ => s end).
  destruct (decide (digits = "")); [lia|].
  pose proof (ParseUint_digits_range digits 0 ltac:(lia)) as Hr.
  destruct (ParseUint_digits 0 digits) as [| |un]; [lia|destruct neg; lia|].
  destruct neg; cbn [negb andb].
  - destruct (Z.ltb_spec (2 ^ 63) un); lia.
  - destruct (Z.leb_spec (2 ^ 63) un); lia.
Qed.

Section Index.

Variable videoDir : string.
Variable ScanVideos : string -> M (list VideoFile * option string).

(** X13.  [handleIndex] never slices the list of videos out of range,
    whatever the two query parameters are, overflow of the 64-bit
    arithmetic included (a list shorter than 2^62 is all that is asked),
    and its page shows what it should.  A path other than [/] is answered
    404 before anything is scanned, an error of the scan 500.  Otherwise
    the template gets: the page size, 20 when the parameter is missing,
    not a number, zero or negative; the number of pages, 1 for an empty
    list and otherwise the length divided by the page size, rounded up;
    the page, which is the requested one brought into [1, TotalPages];
    and as [k]-th video the video number [(Page - 1) * PageSize + k] of the
    list, for [k] below the page size.  So the pages in range split the
    list: every video is on exactly one of them. *)
Theorem handleIndex_pages (urlPath pageQuery sizeQuery : string) (st : State) :
  Z.of_nat (length (ScanVideos videoDir st).1.1) < 2 ^ 62 ->
  let videos := (ScanVideos videoDir st).1.1 in
  let page := strconv_Atoi pageQuery in
  let size := strconv_Atoi sizeQuery in
  let pageSize := if size <=? 0 then 20 else size in
  let total := Z.of_nat (length videos) in
  let totalPages := if total =? 0 then 1 else (total - 1) / pageSize + 1 in
  let shownPage := Z.max 1 (Z.min page totalPages) in
  match (handleIndex videoDir ScanVideos urlPath pageQuery sizeQuery st).1 with
  | Plain NotFound =>
      urlPath <> "/"
      /\ (handleIndex videoDir ScanVideos urlPath pageQuery sizeQuery st).2 = st
  | Plain (Error _ code) =>
      urlPath = "/" /\ code = StatusInternalServerError
      /\ is_Some (ScanVideos videoDir st).1.2
  | Plain (ServeFile _ _) => False
  | Panic => False
  | Template name data =>
      urlPath = "/" /\ name = "index.html"
      /\ (ScanVideos videoDir st).1.2 = None
      /\ PageSize data = pageSize
      /\ Total data = total
      /\ TotalPages data = totalPages
      /\ Page data = shownPage
      /\ 1 <= Page data <= TotalPages data
      /\ forall k : nat,
           Videos data !! k
           = if Z.of_nat k <? pageSize
             then videos !! Z.to_nat ((shownPage - 1) * pageSize + Z.of_nat k)
             else None
  end.
Proof.
  intros Hlen videos page size pageSize total totalPages shownPage.
  unfold handleIndex. destruct (String.eqb_spec urlPath "/") as [->|Hne]; cbn [negb].
  2:{ cbn. split; [exact Hne|reflexivity]. }
  unfold bind. subst videos. destruct (ScanVideos videoDir st) as [[vs [err|]] st1];
    cbn [fst snd] in *.
  { cbn. split_all; eauto. }
  destruct (index_data_sound vs (strconv_Atoi pageQuery) (strconv_Atoi sizeQuery) Hlen
              (strconv_Atoi_range pageQuery) (strconv_Atoi_range sizeQuery))
    as (data & -> & Hrest).
  cbn [fst]. split; [reflexivity|]. split; [reflexivity|]. split; [reflexivity|].
  exact Hrest.
Qed.

End Index.

Lemma handleIndex_pages_witness :
  match (handleIndex "/v"
           (fun _ => ret (repeat {| Name := "a"; RelPath := "a.mp4"; Size := 1;
                                    SizeStr := "0 MB"; Duration := "0:01" |} 45, None))
           "/" "7" "abc" (fresh_state video_disk)).1 with
  | Template name data =>
      name = "index.html" /\ PageSize data = 20 /\ Total data = 45
      /\ TotalPages data = 3 /\ Page data = 3 /\ length (Videos data) = 5%nat
  | _ => False
  end.
Proof.
  pose proof (handleIndex_pages "/v"
                (fun _ => ret (repeat {| Name := "a"; RelPath := "a.mp4"; Size := 1;
                                         SizeStr := "0 MB"; Duration := "0:01" |} 45, None))
                "/" "7" "abc" (fresh_state video_disk)
                ltac:(vm_compute; reflexivity)) as H.
  cbv zeta in H.
  assert (E : (handleIndex "/v"
                 (fun _ => ret (repeat {| Name := "a"; RelPath := "a.mp4"; Size := 1;
                                          SizeStr := "0 MB"; Duration := "0:01" |} 45, None))
                 "/" "7" "abc" (fresh_state video_disk)).1
              = Template "index.html"
                  {| Videos := repeat {| Name := "a"; RelPath := "a.mp4"; Size := 1;
                                         SizeStr := "0 MB"; Duration := "0:01" |} 5;
                     Page := 3; PageSize := 20; Total := 45; TotalPages := 3 |})
    by (vm_compute; reflexivity).
  rewrite E in H |- *. destruct H as (_ & Hname & _).
  split; [exact Hname|]. split_all; reflexivity.
Defined.

(** ** Thumbnails *)

Lemma tool_runs_app evs1 evs2 : tool_runs (evs1 ++ evs2) = (tool_runs evs1 ++ tool_runs evs2)%list.
Proof. unfold tool_runs. apply omap_app. Qed.

Section ThumbFacts.

Variable env : Env.
Variable videoDir : string.
Variable thumbCacheDir : string.
Variable ffmpeg_CombinedOutput : list string -> Disk -> option string * Disk.
Variable placeholder : option string.

Lemma CombinedOutput_run args st :
  exists st',
    CombinedOutput env ffmpeg_CombinedOutput args st
    = ((ffmpeg_CombinedOutput args (disk st)).1, st')
    /\ same_memory st st'
    /\ disk st' = (ffmpeg_CombinedOutput args (disk st)).2
    /\ trace st' = (trace st ++ [EvOutput (ffmpegPath env) args])%list.
Proof.
  unfold CombinedOutput. run_m. destruct (ffmpeg_CombinedOutput args (disk st)) as [err d'].
  eexists. split; [run_m; reflexivity|]. unfold same_memory. proj_st.
  repeat split; reflexivity.
Qed.

(** The loop: it runs a prefix of the attempts in order, and either stops
    on a non-empty output file, answering nil, or has run them all. *)
Lemma try_attempts_run attempts outPath : forall lastErr st,
  exists err st' ran rest evs,
    try_attempts env ffmpeg_CombinedOutput attempts outPath lastErr st = (err, st')
    /\ attempts = (ran ++ rest)%list
    /\ same_memory st st'
    /\ trace st' = (trace st ++ evs)%list
    /\ tool_runs evs = map (fun args => (ffmpegPath env, args)) ran
    /\ Forall (fun e => e = EvStat outPath \/ exists args, e = EvOutput (ffmpegPath env) args)
              evs
    /\ ((ran <> [] /\ err = None /\ file_there (disk st') outPath)
        \/ (rest = [] /\ (ran = [] -> err = lastErr))).
Proof.
  induction attempts as [|args attempts IH]; intros lastErr st.
  - exists lastErr, st, [], [], []. cbn [try_attempts]. unfold ret.
    split; [reflexivity|]. split; [reflexivity|]. split; [apply same_memory_refl|].
    split; [now rewrite app_nil_r|]. split; [reflexivity|]. split; [constructor|].
    right. split; reflexivity.
  - cbn [try_attempts]. unfold bind at 1.
    destruct (CombinedOutput_run args st) as (st1 & -> & Hm1 & Hd1 & Ht1).
    set (err1 := (ffmpeg_CombinedOutput args (disk st)).1) in *.
    assert (Hcont : forall st2 evs2,
              same_memory st1 st2 -> trace st2 = (trace st1 ++ evs2)%list ->
              tool_runs evs2 = [] ->
              Forall (fun e => e = EvStat outPath
                               \/ exists args, e = EvOutput (ffmpegPath env) args) evs2 ->
              exists err st' ran rest evs,
                try_attempts env ffmpeg_CombinedOutput attempts outPath err1 st2 = (err, st')
                /\ args :: attempts = (ran ++ rest)%list
                /\ same_memory st st'
                /\ trace st' = (trace st ++ evs)%list
                /\ tool_runs evs = map (fun args => (ffmpegPath env, args)) ran
                /\ Forall (fun e => e = EvStat outPath
                                    \/ exists args, e = EvOutput (ffmpegPath env) args) evs
                /\ ((ran <> [] /\ err = None /\ file_there (disk st') outPath)
                    \/ (rest = [] /\ (ran = [] -> err = lastErr)))).
    { intros st2 evs2 Hm2 Ht2 Hruns2 Hevs2.
      destruct (IH err1 st2)
        as (err & st' & ran & rest & evs & Hrun & Hsplit & Hm & Ht & Hruns & Hevs & Hend).
      exists err, st', (args :: ran), rest,
        ([EvOutput (ffmpegPath env) args] ++ evs2 ++ evs)%list.
      split; [exact Hrun|]. split; [now rewrite Hsplit|].
      split; [eapply same_memory_trans; [exact Hm1|];
              eapply same_memory_trans; [exact Hm2|exact Hm]|].
      split; [rewrite Ht, Ht2, Ht1, <- !app_assoc; reflexivity|].
      split; [rewrite !tool_runs_app, Hruns2, Hruns; reflexivity|].
      split.
      { apply Forall_app. split; [constructor; [right; eauto|constructor]|].
        apply Forall_app. split; assumption. }
      destruct Hend as [(Hne & Hnone & Hthere)|(Hrest & _)].
      - left. split; [discriminate|]. split; assumption.
      - right. split; [exact Hrest|discriminate]. }
    destruct err1 as [e|].
    + apply (Hcont st1 []);
        [apply same_memory_refl|now rewrite app_nil_r|reflexivity|constructor].
    + unfold Stat. run_m.
      set (st2 := log [EvStat outPath] st1).
      assert (Hm2 : same_memory st1 st2) by (repeat split).
      assert (Ht2 : trace st2 = (trace st1 ++ [EvStat outPath])%list) by reflexivity.
      assert (Hev2 : Forall (fun e => e = EvStat outPath
                                      \/ exists args, e = EvOutput (ffmpegPath env) args)
                            [EvStat outPath]) by (constructor; [now left|constructor]).
      destruct (os_Stat (disk st1) outPath) as [f|] eqn:Hstat.
      2:{ now apply (Hcont st2 [EvStat outPath]). }
      destruct (Z.ltb_spec 0 (f_size f)) as [Hpos|Hzero].
      2:{ now apply (Hcont st2 [EvStat outPath]). }
      exists None, st2, [args], attempts, [EvOutput (ffmpegPath env) args; EvStat outPath].
      split; [reflexivity|]. split; [reflexivity|].
      split; [eapply same_memory_trans; [exact Hm1|exact Hm2]|].
      split; [rewrite Ht2, Ht1, <- app_assoc; reflexivity|].
      split; [reflexivity|]. split.
      { constructor; [right; eauto|exact Hev2]. }
      left. split; [discriminate|]. split; [reflexivity|].
      exists f. split; [exact Hstat|exact Hpos].
Qed.

(** X14.  [generateThumb] runs [ffmpeg] on an initial run of its
    four argument vectors, in their order and at least on the first, and
    besides that only looks at the output path.  When it stops before the
    fourth it returns nil and a non-empty file is at the output path.  It
    returns an error only after all four have run.  The registry, the jobs
    and the goroutines are as before. *)
Theorem generateThumb_tries_in_order (videoPath outPath : string) (st : State) :
  exists err st' ran rest evs,
    generateThumb env ffmpeg_CombinedOutput videoPath outPath st = (err, st')
    /\ thumb_attempts videoPath outPath = (ran ++ rest)%list
    /\ ran <> []
    /\ same_memory st st'
    /\ trace st' = (trace st ++ evs)%list
    /\ tool_runs evs = map (fun args => (ffmpegPath env, args)) ran
    /\ Forall (fun e => e = EvStat outPath \/ exists args, e = EvOutput (ffmpegPath env) args)
              evs
    /\ (rest <> [] -> err = None /\ file_there (disk st') outPath)
    /\ (is_Some err -> rest = []).
Proof.
  unfold generateThumb.
  destruct (try_attempts_run (thumb_attempts videoPath outPath) outPath None st)
    as (err & st' & ran & rest & evs & Hrun & Hsplit & Hm & Ht & Hruns & Hevs & Hend).
  exists err, st', ran, rest, evs. split_all; try assumption.
  - intros ->. destruct Hend as [(Hne & _)|(-> & _)]; [congruence|].
    cbn in Hsplit. discriminate.
  - intros Hrest. destruct Hend as [(_ & Hnone & Hthere)|(E & _)]; [|congruence].
    split; assumption.
  - intros [e ->]. destruct Hend as [(_ & Hnone & _)|(E & _)]; [discriminate|exact E].
Qed.

(** X15.  [handleThumb] on a path that [isValidPath] accepts.  The
    video it looks at lies under the video directory, and the thumbnail is
    the file named by the sixteen-digit key of the video, with [.jpg], under
    the thumbnail directory.  When that file exists it is served with a
    day of caching and no tool is run.  Otherwise [ffmpeg] is run, only with
    argument vectors of [generateThumb] for that video and that file, and
    the answer is the file, or the placeholder after all four attempts.  The
    registry, the jobs and the goroutines are as before. *)
Theorem handleThumb_serves_the_cache (file : string) (st : State) :
  isValidPath videoDir file = true ->
  let fullPath := filepath_Join videoDir file in
  let cached := filepath_Join thumbCacheDir (key_on (disk st) fullPath ++ ".jpg") in
  let served := Answered (ServeFile [("Cache-Control", "public, max-age=86400")] cached) in
  strings_HasPrefix fullPath (videoDir ++ "/") = true
  /\ String.length (key_on (disk st) fullPath) = 16%nat
  /\ exists answer st' evs,
       handleThumb env videoDir thumbCacheDir ffmpeg_CombinedOutput placeholder file st
       = (answer, st')
       /\ same_memory st st'
       /\ trace st' = (trace st ++ [EvStat fullPath; EvStat cached] ++ evs)%list
       /\ (forall run, run ∈ tool_runs evs ->
             run.1 = ffmpegPath env /\ run.2 ∈ thumb_attempts fullPath cached)
       /\ (answer = served \/ answer = servePlaceholder placeholder)
       /\ (is_Some (os_Stat (disk st) cached) ->
           answer = served /\ evs = [EvServeFile cached] /\ disk st' = disk st)
       /\ (answer = servePlaceholder placeholder ->
           tool_runs evs
           = map (fun args => (ffmpegPath env, args)) (thumb_attempts fullPath cached)).
Proof.
  intros Hv fullPath cached served.
  destruct (isValidPath_true videoDir file Hv) as (Hne & _ & _ & _ & Hin & _).
  split; [exact Hin|]. split; [apply job_key_shape|].
  unfold handleThumb. rewrite decide_False by exact Hne. rewrite Hv. cbn [negb].
  fold fullPath. unfold thumbPath, Stat. run_m.
  change (filepath_Join thumbCacheDir
            (job_key fullPath
               match os_Stat (disk st) fullPath with Some f => f_mtime f | None => 0 end
             ++ ".jpg")) with cached.
  destruct (os_Stat (disk st) cached) as [f|] eqn:Hstat.
  - run_m. eexists _, _, [EvServeFile cached]. split; [reflexivity|].
    unfold same_memory. proj_st. split_all; try reflexivity.
    + intros run Hrun. cbn in Hrun. inversion Hrun.
    + now left.
    + intros _. split_all; reflexivity.
    + unfold servePlaceholder. destruct placeholder; discriminate.
  - set (st1 := log [EvStat cached] (log [EvStat fullPath] st)).
    destruct (try_attempts_run (thumb_attempts fullPath cached) cached None st1)
      as (err & st' & ran & rest & evs & Hrun & Hsplit & Hm & Ht & Hruns & Hevs & Hend).
    unfold generateThumb. rewrite Hrun.
    assert (Hmem : same_memory st st').
    { eapply same_memory_trans; [|exact Hm]. repeat split. }
    assert (Hin_runs : forall run, run ∈ tool_runs evs ->
              run.1 = ffmpegPath env /\ run.2 ∈ thumb_attempts fullPath cached).
    { intros run Hr. rewrite Hruns in Hr. apply list_elem_of_fmap in Hr as (args & -> & Ha).
      split; [reflexivity|]. cbn [snd]. rewrite Hsplit. apply elem_of_app. now left. }
    destruct err as [e|].
    + run_m. exists (servePlaceholder placeholder), st', evs. split; [reflexivity|].
      split; [exact Hmem|]. split.
      { rewrite Ht. subst st1. proj_st. reflexivity. }
      split; [exact Hin_runs|]. split; [now right|]. split; [intros [? [=]]|].
      intros _. destruct Hend as [(_ & [=] & _)|(-> & _)].
      rewrite app_nil_r in Hsplit. now rewrite Hruns, Hsplit.
    + run_m. exists served, (log [EvServeFile cached] st'), (evs ++ [EvServeFile cached])%list.
      split; [reflexivity|]. split.
      { eapply same_memory_trans; [exact Hmem|]. repeat split. }
      split.
      { proj_st. rewrite Ht. subst st1. proj_st. reflexivity. }
      split.
      { intros run Hr. rewrite tool_runs_app, app_nil_r in Hr. now apply Hin_runs. }
      split; [now left|]. split; [intros [? [=]]|].
      unfold served, servePlaceholder. destruct placeholder; discriminate.
Qed.

End ThumbFacts.

Lemma handleThumb_serves_the_cache_witness :
  isValidPath "/v" "foo.mkv" = true
  /\ strings_HasPrefix (filepath_Join "/v" "foo.mkv") ("/v" ++ "/") = true
  /\ exists answer st' evs,
       handleThumb (quiet_env "h264") "/v" "/home/u/.cache/localcinema/thumbs"
         (fun _ d => (None, d)) (Some "<svg/>") "foo.mkv" (fresh_state video_disk)
       = (answer, st')
       /\ same_memory (fresh_state video_disk) st'
       /\ forall run, run ∈ tool_runs evs -> run.1 = ffmpegPath (quiet_env "h264").
Proof.
  assert (Hv : isValidPath "/v" "foo.mkv" = true) by (vm_compute; reflexivity).
  split; [exact Hv|].
  destruct (handleThumb_serves_the_cache (quiet_env "h264") "/v"
              "/home/u/.cache/localcinema/thumbs" (fun _ d => (None, d)) (Some "<svg/>")
              "foo.mkv" (fresh_state video_disk) Hv)
    as (Hin & _ & answer & st' & evs & Hrun & Hm & _ & Hruns & _).
  split; [exact Hin|]. exists answer, st', evs. split; [exact Hrun|]. split; [exact Hm|].
  intros run Hr. now apply Hruns.
Defined.

(** An [ffmpeg] that exits with status 0 four times and writes nothing
    passes for a success: [generateThumb] returns nil, and [handleThumb]
    serves the thumbnail path, at which there is no file, not the
    placeholder. *)
Example silent_ffmpeg_counts_as_success :
  (generateThumb (quiet_env "h264") (fun _ d => (None, d)) "/v/foo.mkv" "/t/x.jpg"
     (fresh_state video_disk)).1 = None
  /\ (handleThumb (quiet_env "h264") "/v" "/t" (fun _ d => (None, d)) (Some "<svg/>")
        "foo.mkv" (fresh_state video_disk)).1
     = Answered (ServeFile [("Cache-Control", "public, max-age=86400")]
                   "/t/09d25094f467daf8.jpg")
  /\ os_Stat (disk (handleThumb (quiet_env "h264") "/v" "/t" (fun _ d => (None, d))
                      (Some "<svg/>") "foo.mkv" (fresh_state video_disk)).2)
       "/t/09d25094f467daf8.jpg" = None
  /\ length (tool_runs (trace (handleThumb (quiet_env "h264") "/v" "/t"
                                 (fun _ d => (None, d)) (Some "<svg/>") "foo.mkv"
                                 (fresh_state video_disk)).2)) = 4%nat.
Proof. split_all; vm_compute; reflexivity. Qed.

(** ** Where the cache of a key lies *)

Lemma join_slash_snoc l e : l <> [] -> join_slash (l ++ [e]) = join_slash l ++ "/" ++ e.
Proof.
  induction l as [|x l IH]; intros Hne; [congruence|].
  destruct l as [|y l'].
  - reflexivity.
  - change (join_slash ((x :: y :: l') ++ [e]))
      with (x ++ "/" ++ join_slash ((y :: l') ++ [e])).
    rewrite IH by discriminate.
    change (join_slash (x :: y :: l')) with (x ++ "/" ++ join_slash (y :: l')).
    now rewrite !string_app_assoc.
Qed.

Lemma HasPrefix_app a b : strings_HasPrefix (a ++ b) a = true.
Proof.
  induction a as [|c a IH]; [reflexivity|].
  rewrite append_cons. cbn [strings_HasPrefix]. now rewrite Ascii.eqb_refl, IH.
Qed.

Lemma Clean_unfold p :
  filepath_Clean p
  = if strings_HasPrefix p "/"
    then "/" ++ join_slash (rev (fold_left (clean_push true) (path_elements p) []))
    else if decide (join_slash (rev (fold_left (clean_push false) (path_elements p) [])) = "")
         then "."
         else join_slash (rev (fold_left (clean_push false) (path_elements p) [])).
Proof. unfold filepath_Clean. destruct (strings_HasPrefix p "/"); reflexivity. Qed.

(** A cleaned directory other than [/] and [.], joined with one normal
    element. *)
Lemma Join_clean_elem root e :
  filepath_Clean root = root -> root <> "/" -> root <> "." -> normal_elem e ->
  filepath_Join root e = root ++ "/" ++ e
  /\ filepath_Clean (root ++ "/" ++ e) = root ++ "/" ++ e.
Proof.
  intros Hclean Hroot Hdot He.
  assert (Hne : root <> "").
  { intros ->. vm_compute in Hclean. discriminate. }
  assert (Hgoal : filepath_Clean (root ++ "/" ++ e) = root ++ "/" ++ e).
  { rewrite Clean_unfold in Hclean. rewrite Clean_unfold.
    assert (Hr : strings_HasPrefix (root ++ "/" ++ e) "/" = strings_HasPrefix root "/").
    { destruct root as [|c root']; [congruence|]. now rewrite append_cons. }
    rewrite Hr, path_elements_app, !fold_left_app.
    rewrite (path_elements_free e) by (destruct He as (_ & _ & _ & H); exact H).
    cbn [fold_left]. rewrite !clean_push_normal by exact He. cbn [rev].
    destruct (strings_HasPrefix root "/").
    - set (T := fold_left (clean_push true) (path_elements root) []) in *.
      destruct (rev T) as [|x l] eqn:ET.
      { exfalso. apply Hroot. now rewrite <- Hclean. }
      rewrite join_slash_snoc by discriminate.
      rewrite <- Hclean. now rewrite string_app_assoc.
    - set (T := fold_left (clean_push false) (path_elements root) []) in *.
      destruct (rev T) as [|x l] eqn:ET.
      { exfalso. apply Hdot. rewrite <- Hclean. reflexivity. }
      rewrite join_slash_snoc by discriminate.
      destruct (decide (join_slash (x :: l) = "")) as [E|_].
      { exfalso. now apply Hdot. }
      rewrite Hclean. rewrite decide_False; [reflexivity|].
      destruct root as [|c root']; [congruence|]. rewrite append_cons. discriminate. }
  split; [|exact Hgoal].
  unfold filepath_Join. rewrite decide_False by exact Hne.
  rewrite decide_False by (destruct He as (H & _); exact H). exact Hgoal.
Qed.

Lemma job_key_normal filePath mtime : normal_elem (job_key filePath mtime).
Proof.
  destruct (job_key_shape filePath mtime) as [Hlen Hhex].
  destruct (hex_string_no_slash _ Hhex) as [Hs _].
  unfold normal_elem. split_all; try exact Hs; intros E; rewrite E in Hlen; discriminate.
Qed.

(** The playlist of a key lies under the cache root. *)
Lemma playlist_under_root root filePath mtime :
  filepath_Clean root = root -> root <> "/" -> root <> "." ->
  filepath_Join (filepath_Join root (job_key filePath mtime)) "stream.m3u8"
  = root ++ "/" ++ job_key filePath mtime ++ "/" ++ "stream.m3u8"
  /\ path_under root
       (filepath_Join (filepath_Join root (job_key filePath mtime)) "stream.m3u8") = true.
Proof.
  intros Hclean Hroot Hdot.
  destruct (Join_clean_elem root (job_key filePath mtime) Hclean Hroot Hdot
              (job_key_normal filePath mtime)) as [Hj Hc].
  assert (Hn : normal_elem "stream.m3u8") by (unfold normal_elem; split_all; done).
  assert (Hne : root ++ "/" ++ job_key filePath mtime <> "/"
                /\ root ++ "/" ++ job_key filePath mtime <> ".").
  { pose proof (job_key_shape filePath mtime) as [Hlen _].
    split; intros E; apply (f_equal String.length) in E;
      rewrite string_app_length, string_app_length, Hlen in E; cbn in E; lia. }
  destruct (Join_clean_elem _ "stream.m3u8" Hc (proj1 Hne) (proj2 Hne) Hn) as [Hj2 _].
  rewrite Hj, Hj2. split; [now rewrite !string_app_assoc|].
  unfold path_under. rewrite !string_app_assoc.
  replace (root ++ "/" ++ job_key filePath mtime ++ "/" ++ "stream.m3u8")
    with ((root ++ "/") ++ job_key filePath mtime ++ "/" ++ "stream.m3u8")
    by (now rewrite string_app_assoc).
  rewrite HasPrefix_app. apply orb_true_r.
Qed.

Section Clearing.

Variable env : Env.

(** [filepath.Join] returns a cleaned path, and the cache root ends in
    [hls]. *)
Hypothesis root_clean : filepath_Clean (hlsCacheDir env) = hlsCacheDir env.
Hypothesis root_not_slash : hlsCacheDir env <> "/".
Hypothesis root_not_dot : hlsCacheDir env <> ".".

(** X16.  [ClearHLSCache] removes the cache root and touches no file
    outside it.  Afterwards no key has a complete cache: whatever the path,
    the playlist of its key, which lies under the root, is gone.  So when
    the program is started again, [getOrStartHLS] adopts nothing: a job it
    returns is not cached, has a command, and its transcoder goroutine is
    launched. *)
Theorem ClearHLSCache_forgets_every_cache (st : State) :
  exists st',
    ClearHLSCache env st = (None, st')
    /\ same_memory st st'
    /\ trace st' = (trace st ++ [EvRemoveAll (hlsCacheDir env)])%list
    /\ (forall p, path_under (hlsCacheDir env) p = false ->
                  files (disk st') !! p = files (disk st) !! p)
    /\ (forall filePath mtime,
          path_under (hlsCacheDir env)
            (filepath_Join (filepath_Join (hlsCacheDir env) (job_key filePath mtime))
               "stream.m3u8") = true
          /\ complete_on (disk st')
               (filepath_Join (hlsCacheDir env) (job_key filePath mtime)) = false)
    /\ (forall filePath job st'',
          getOrStartHLS env filePath (fresh_state (disk st')) = (Ok job, st'') ->
          exists j, heap st'' !! job = Some j /\ Cached j = false /\ is_Some (Cmd j)
                    /\ exists r, goroutines st'' = [r] /\ r_job r = job).
Proof.
  assert (Hne : hlsCacheDir env <> "").
  { intros E. rewrite E in root_clean. vm_compute in root_clean. discriminate. }
  unfold ClearHLSCache. rewrite decide_False by exact Hne. unfold RemoveAll. run_m.
  eexists. split; [reflexivity|]. unfold same_memory. proj_st.
  assert (Hgone : forall filePath mtime,
            complete_on (remove_all (hlsCacheDir env) (disk st))
              (filepath_Join (hlsCacheDir env) (job_key filePath mtime)) = false).
  { intros filePath mtime.
    destruct (playlist_under_root (hlsCacheDir env) filePath mtime
                root_clean root_not_slash root_not_dot) as [_ Hu].
    unfold complete_on, os_ReadFile, os_Open.
    destruct (remove_all_gone (hlsCacheDir env) (disk st) _ Hu) as [-> _]. reflexivity. }
  split_all; try reflexivity.
  - intros p Hp. now apply remove_all_elsewhere.
  - intros filePath mtime. split; [|apply Hgone].
    apply (playlist_under_root (hlsCacheDir env) filePath mtime
             root_clean root_not_slash root_not_dot).
  - intros filePath job st'' Hrun.
    set (st0 := fresh_state (remove_all (hlsCacheDir env) (disk st))) in *.
    assert (Hjob : hlsJobs st0 !! key_on (disk st0) filePath = None) by apply lookup_empty.
    assert (Hc : complete_on (disk st0)
                   (filepath_Join (hlsCacheDir env) (key_on (disk st0) filePath)) = false)
      by apply Hgone.
    destruct (mkdir_all (filepath_Join (hlsCacheDir env) (key_on (disk st0) filePath))
                (disk st0)) as [d'|] eqn:Hmk.
    + destruct (getOrStartHLS_starts env filePath st0 _ _ d' eq_refl eq_refl Hjob Hc Hmk)
        as (st1 & Hrun1 & _ & Hh & _ & _ & _ & Hg & _).
      rewrite Hrun1 in Hrun. injection Hrun as <- <-.
      eexists. rewrite Hh, lookup_insert_eq. split; [reflexivity|].
      cbn [Cached Cmd]. split; [reflexivity|]. split; [eauto|].
      eexists. rewrite Hg. split; reflexivity.
    + destruct (getOrStartHLS_mkdir_fails env filePath st0 _ _ eq_refl eq_refl Hjob Hc Hmk)
        as (st1 & Hrun1 & _). rewrite Hrun1 in Hrun. discriminate.
Qed.

End Clearing.

Lemma ClearHLSCache_forgets_every_cache_witness :
  complete_on cached_disk (filepath_Join (hlsCacheDir (quiet_env "hevc")) foo_key) = true
  /\ exists st',
       ClearHLSCache (quiet_env "hevc") (fresh_state cached_disk) = (None, st')
       /\ complete_on (disk st')
            (filepath_Join (hlsCacheDir (quiet_env "hevc"))
               (job_key "/v/foo.mkv" 1700000000000000000)) = false
       /\ files (disk st') !! "/v/foo.mkv" = files cached_disk !! "/v/foo.mkv".
Proof.
  split; [vm_compute; reflexivity|].
  destruct (ClearHLSCache_forgets_every_cache (quiet_env "hevc")
              ltac:(vm_compute; reflexivity) ltac:(discriminate) ltac:(discriminate)
              (fresh_state cached_disk))
    as (st' & Hrun & _ & _ & Hframe & Hgone & _).
  exists st'. split; [exact Hrun|]. split; [apply Hgone|].
  apply Hframe. vm_compute. reflexivity.
Defined.

(** ** A failed job, evicted and asked for again *)

Section Retry.

Variable env : Env.

(** X17.  A failed transcode is tried again only after the job has been
    evicted.  When the transcoder of a registered job ends in an error, the
    job stays registered (a call of [getOrStartHLS] meanwhile returns it,
    failed, and starts nothing).  Once [StopHLS], as the reaper calls it on
    an idle job, has removed the key, the next [getOrStartHLS] for the path
    is admitted afresh: a new job for the same key and directory, not done,
    not cached, with a command not yet started, and a new goroutine. *)
Theorem failed_job_is_retried_after_eviction
    (filePath : string) (st : State) (r : Runner) (res : RunResult) (j : HLSJob) (pid : Z)
    (key : string) (d' : Disk) :
  key = key_on (disk st) filePath ->
  hlsJobs st !! key = Some (r_job r) ->
  heap st !! r_job r = Some j ->
  live_handle j = Some pid ->
  Cached j = false ->
  Dir j = filepath_Join (hlsCacheDir env) key ->
  r_cacheDir r = Dir j ->
  (r_job r < next_loc st)%positive ->
  run_error res = true ->
  path_under (Dir j) filePath = false ->
  complete_on (disk st) (Dir j) = false ->
  mkdir_all (Dir j) (remove_all (Dir j) (remove_all (Dir j) (disk st))) = Some d' ->
  exists st1 st2 job2 st3,
    runner_returned r res st = (tt, st1)
    /\ (getOrStartHLS env filePath st1).1 = Ok (r_job r)
    /\ goroutines (getOrStartHLS env filePath st1).2 = goroutines st1
    /\ StopHLS key st1 = (tt, st2)
    /\ hlsJobs st2 !! key = None
    /\ trace st2 = (trace st1 ++ [EvKill pid; EvRemoveAll (Dir j)])%list
    /\ getOrStartHLS env filePath st2 = (Ok job2, st3)
    /\ job2 <> r_job r
    /\ hlsJobs st3 !! key = Some job2
    /\ (fun j2 => (Dir j2, Process <$> Cmd j2, Done j2, Cached j2)) <$> heap st3 !! job2
       = Some (Dir j, Some None, false, false)
    /\ goroutines st3
       = (goroutines st1 ++ [{| r_job := job2; r_cacheDir := Dir j; r_key := key |}])%list.
Proof.
  intros Hkey Hjob Hj Hlive Hcached Hdir Hrdir Hlt Herr Hout Hc Hmk.
  destruct (runner_returned_run r res st)
    as (st1 & Hret & Hj1 & Hh1 & Hn1 & _ & Hd1 & Hg1 & _).
  rewrite Herr in Hh1, Hd1.
  assert (Hjd : heap st1 !! r_job r = Some (close_Done j)).
  { now rewrite Hh1, lookup_alter_eq, Hj. }
  assert (Hkey1 : key_on (disk st1) filePath = key).
  { rewrite Hkey, Hd1, Hrdir. unfold key_on, os_Stat.
    now rewrite (remove_all_elsewhere _ _ _ Hout). }
  assert (Hres : hlsJobs st1 !! key_on (disk st1) filePath = Some (r_job r)).
  { now rewrite Hkey1, Hj1. }
  destruct (StopHLS_run key st1)
    as (st2 & Hstop & Hj2 & Hh2 & Hn2 & _ & Hg2 & _ & _ & Hsome & _).
  specialize (Hsome (r_job r) (close_Done j)). rewrite Hj1 in Hsome.
  specialize (Hsome Hjob Hjd).
  change (live_handle (close_Done j)) with (live_handle j) in Hsome.
  change (Cached (close_Done j)) with (Cached j) in Hsome.
  change (Dir (close_Done j)) with (Dir j) in Hsome.
  rewrite Hlive, Hcached in Hsome. destruct Hsome as [Ht2 Hd2].
  assert (Hkey2 : key = key_on (disk st2) filePath).
  { rewrite <- Hkey1, Hd2. unfold key_on, os_Stat.
    now rewrite (remove_all_elsewhere _ _ _ Hout). }
  destruct (getOrStartHLS_starts env filePath st2 key (Dir j) d')
    as (st3 & Hstart & Hj3 & Hh3 & _ & _ & _ & Hg3 & _).
  { exact Hkey2. }
  { exact Hdir. }
  { rewrite Hj2. apply lookup_delete_eq. }
  { rewrite Hd2, Hd1, Hrdir. now do 2 apply complete_on_remove_all. }
  { now rewrite Hd2, Hd1, Hrdir. }
  exists st1, st2, (next_loc st2), st3.
  rewrite (getOrStartHLS_resident env filePath st1 (r_job r) Hres). cbn [fst snd].
  split_all; try assumption; try reflexivity.
  - rewrite Hj2. apply lookup_delete_eq.
  - rewrite Hn2, Hn1. lia.
  - rewrite Hj3. apply lookup_insert_eq.
  - rewrite Hh3, lookup_insert_eq. reflexivity.
  - now rewrite Hg3, Hg2.
Qed.

End Retry.

Lemma failed_job_is_retried_after_eviction_witness :
  exists st1 st2 job2 st3,
    runner_returned foo_runner (Exited 1) running_state = (tt, st1)
    /\ (getOrStartHLS (quiet_env "hevc") "/v/foo.mkv" st1).1 = Ok (r_job foo_runner)
    /\ goroutines (getOrStartHLS (quiet_env "hevc") "/v/foo.mkv" st1).2 = goroutines st1
    /\ StopHLS foo_key st1 = (tt, st2)
    /\ hlsJobs st2 !! foo_key = None
    /\ trace st2 = (trace st1 ++ [EvKill 4242; EvRemoveAll (Dir foo_job)])%list
    /\ getOrStartHLS (quiet_env "hevc") "/v/foo.mkv" st2 = (Ok job2, st3)
    /\ job2 <> r_job foo_runner
    /\ hlsJobs st3 !! foo_key = Some job2
    /\ (fun j2 => (Dir j2, Process <$> Cmd j2, Done j2, Cached j2)) <$> heap st3 !! job2
       = Some (Dir foo_job, Some None, false, false)
    /\ goroutines st3
       = (goroutines st1
          ++ [{| r_job := job2; r_cacheDir := Dir foo_job; r_key := foo_key |}])%list.
Proof.
  refine (failed_job_is_retried_after_eviction (quiet_env "hevc") "/v/foo.mkv" running_state
            foo_runner (Exited 1) foo_job 4242 foo_key
            (default (disk running_state)
               (mkdir_all (Dir foo_job)
                  (remove_all (Dir foo_job) (remove_all (Dir foo_job) (disk running_state)))))
            _ _ _ _ _ _ _ _ _ _ _ _);
    vm_compute; reflexivity.
Defined.

(** ** A request keeps its job *)

Section Watching.

Variable env : Env.

(** X18.  A request for an artifact of a registered job keeps the job
    through the reaper for the next 60 seconds, counted from the arrival of
    the request: whatever [handleHLS] answers, a file or 503 after a wait
    of up to 30 seconds, the job's time of last access is the second at
    which the request arrived, and a tick of the reaper up to 60 seconds
    after that leaves the key with its job. *)
Theorem request_keeps_job_registered
    (key fileName : string) (st : State) (job : loc) (j : HLSJob) (dt : Z) :
  strings_Contains key "/" = false ->
  strings_Contains fileName "/" = false ->
  strings_Contains fileName ".." = false ->
  hlsJobs st !! key = Some job ->
  heap st !! job = Some j ->
  0 <= dt <= 60000 ->
  heap (handleHLS env ("/hls/" ++ key ++ "/" ++ fileName) st).2 !! job
  = Some (set_lastAccess (now_ms st / 1000) j)
  /\ hlsJobs (reaper_tick
                (with_now (now_ms st + dt)
                   (handleHLS env ("/hls/" ++ key ++ "/" ++ fileName) st).2)).2 !! key
     = Some job.
Proof.
  intros Hkey Hslash Hdots Hjob Hj Hdt.
  pose proof (handleHLS_jobs env ("/hls/" ++ key ++ "/" ++ fileName) st) as Hjobs.
  assert (Hheap : heap (handleHLS env ("/hls/" ++ key ++ "/" ++ fileName) st).2 !! job
                  = Some (set_lastAccess (now_ms st / 1000) j)).
  { rewrite (handleHLS_well_formed env key fileName st Hkey Hslash Hdots).
    unfold touch_and_resolve, bind.
    destruct (TouchHLS_run key st) as (st0 & -> & Hj0 & Hh0 & _).
    destruct (resolve_dir_run env key st0) as (st1 & -> & _ & Hh1 & _).
    rewrite Hj0, Hjob, Hh0, Hjob, lookup_alter_eq, Hj.
    cbn [fmap option_fmap option_map set_lastAccess Dir].
    destruct (serve_artifact_looks env (Dir j) fileName st1) as [[(_ & Hh2 & _) _] _].
    rewrite Hh2, Hh1, Hh0, Hjob, lookup_alter_eq, Hj. reflexivity. }
  split; [exact Hheap|].
  rewrite reaper_tick_jobs. cbn [hlsJobs heap now_ms with_now].
  rewrite Hjobs, Hjob, Hheap. unfold is_idle, hlsIdleTimeout. cbn [set_lastAccess lastAccess].
  pose proof (Z.div_mod (now_ms st) 1000 ltac:(lia)).
  pose proof (Z.mod_pos_bound (now_ms st) 1000 ltac:(lia)).
  pose proof (Z.div_mod (now_ms st + dt) 1000 ltac:(lia)).
  pose proof (Z.mod_pos_bound (now_ms st + dt) 1000 ltac:(lia)).
  destruct (Z.ltb_spec 60 ((now_ms st + dt) / 1000 - now_ms st / 1000)); [lia|].
  now rewrite andb_false_r.
Qed.

End Watching.

Lemma request_keeps_job_registered_witness :
  heap (handleHLS writing_env ("/hls/" ++ foo_key ++ "/" ++ "seg00000.ts") running_state).2
    !! 1%positive
  = Some (set_lastAccess (now_ms running_state / 1000) foo_job)
  /\ hlsJobs (reaper_tick
                (with_now (now_ms running_state + 60000)
                   (handleHLS writing_env ("/hls/" ++ foo_key ++ "/" ++ "seg00000.ts")
                      running_state).2)).2 !! foo_key
     = Some 1%positive.
Proof.
  apply (request_keeps_job_registered writing_env foo_key "seg00000.ts" running_state
           1%positive foo_job 60000);
    first [lia | vm_compute; reflexivity].
Defined.
